(** * Mission start routines of Cataclysm-DDA (src/mission_start.cpp)

    A shallow embedding of the mission-initialisation layer.  The routines
    of mission_start.cpp are sequential glue code: they query the overmap
    buffer, the NPC registry, the random number generator and a loaded map
    chunk, and they mutate those collaborators and the in-memory mission
    object.  None of the collaborators is defined in mission_start.cpp, so
    they are taken as an interface ([services]): read-only queries are
    functions of the external state, and every call that can change
    something is an [event] to which the external state reacts and which is
    appended to a log.  The routines themselves are written in a small
    state monad over the external state, the mission object and the log.

    C++ [int] values are modelled as [Z].  Coordinates of places on the
    overmap stay far away from the limits of [int], with one exception:
    [overmap::invalid_tripoint] has the smallest [int] on every axis, and
    some routines double the x and y of a point that may be it.  These
    products are modelled with their wrap-around ([wrap_int]). *)

From Stdlib Require Import ZArith List String Bool Lia.
Import ListNotations.

Local Open Scope string_scope.
Local Open Scope list_scope.
Local Open Scope Z_scope.

(** ** Points *)

(** [struct tripoint { int x; int y; int z; }]. *)
Record tripoint : Type := Tripoint { px : Z; py : Z; pz : Z }.

Definition tripoint_eqb (a b : tripoint) : bool :=
  (px a =? px b) && (py a =? py b) && (pz a =? pz b).

(** [testpoint.z = v;] on a local copy of a point. *)
Definition with_z (p : tripoint) (v : Z) : tripoint := Tripoint (px p) (py p) v.

(** ** [int] arithmetic *)

(** The smallest [int]; [overmap::invalid_tripoint] has it on x, y and z. *)
Definition int_min : Z := -2147483648.

(** The [int] that holds the exact result [v] of an [int] operation: [v]
    itself when it fits, and otherwise [v] wrapped around modulo 2^32, which
    is what the compiled code computes where the language leaves the
    overflow undefined.  The routines double the coordinates of points
    that may be [overmap::invalid_tripoint], and that doubling
    overflows. *)
Definition wrap_int (v : Z) : Z :=
  (v + 2147483648) mod 4294967296 - 2147483648.

(** ** The collaborators' data, as far as mission_start.cpp reads it *)

(** [struct city]: only [size] is read here. *)
Record city : Type := City { city_size : Z; city_name : string }.

(** [struct city_reference]: [city] is a pointer, null for the invalid
    reference ([operator bool] is [city != nullptr]). *)
Record city_reference : Type := CityReference {
  cref_city : option city;
  abs_sm_pos : tripoint;
  distance : Z
}.

Inductive npc_class_id : Type :=
| NC_NONE | NC_HACKER | NC_DOCTOR | NC_SCIENTIST | NC_COWBOY.

(** What the routines read of an [npc] found by [g->find_npc]. *)
Record npc : Type := Npc {
  npc_getID : Z;
  npc_name : string;
  myclass : npc_class_id;
  npc_global_omt_location : tripoint
}.

(** ** The mission object *)

(** The fields of [class mission] that mission_start.cpp reads or writes. *)
Record mission : Type := Mission {
  uid : Z;
  npc_id : Z;
  target : tripoint;
  item_id : string;
  follow_up : string;
  recruit_class : npc_class_id
}.

(** A write to one field of the mission object. *)
Inductive mission_write : Type :=
| WTarget (p : tripoint)
| WItemId (s : string)
| WFollowUp (s : string)
| WRecruitClass (c : npc_class_id).

Definition apply_write (wr : mission_write) (m : mission) : mission :=
  match wr with
  | WTarget p =>
      Mission (uid m) (npc_id m) p (item_id m) (follow_up m) (recruit_class m)
  | WItemId s =>
      Mission (uid m) (npc_id m) (target m) s (follow_up m) (recruit_class m)
  | WFollowUp s =>
      Mission (uid m) (npc_id m) (target m) (item_id m) s (recruit_class m)
  | WRecruitClass c =>
      Mission (uid m) (npc_id m) (target m) (item_id m) (follow_up m) c
  end.

(** ** Events: the calls that can change something *)

(** Arguments of a printf-style message. *)
Inductive fmt_arg : Type :=
| ArgInt (n : Z)
| ArgStr (s : string).

(** The arguments of [overmapbuffer::find_closest] and [find_random], in
    the order of the call.  Calls with four or five arguments leave the
    remaining ones at the defaults of the declaration ([false], [false],
    no special).  The sixth argument is the one the source comments on:
    passing [false] "allow[s] this search to create new overmaps". *)
Record find_query : Type := FindQuery {
  fq_origin : tripoint;
  fq_type : string;
  fq_radius : Z;
  fq_must_be_seen : bool;
  fq_allow_subtype_matches : bool;
  fq_existing_overmaps_only : bool;
  fq_om_special : option string
}.

Inductive npc_attitude : Type := NPCATT_TALK | NPCATT_FOLLOW.

(** Calls on the mission's NPC. *)
Inductive npc_op : Type :=
| NpcSetAttitude (a : npc_attitude)
| NpcAddEffect (eff : string) (turns : Z) (bp : string) (permanent : bool)
               (intensity : Z)
| NpcRemoveItemsWith (type_id : string)
| NpcGuardCurrentPos.

(** Calls on the freshly made NPC of [recruit_tracker]. *)
Inductive new_npc_op : Type :=
| NewNpcMake
| NewNpcNormalize
| NewNpcRandomize (c : npc_class_id)
| NewNpcSpawnAtPrecise (smx smy : Z) (p : tripoint)
| NewNpcInsert
| NewNpcSetAttitude (a : npc_attitude)
| NewNpcSetMissionShopkeep
| NewNpcAggressionSub (d : Z)
| NewNpcSetOwed (v : Z)
| NewNpcAddNewMission (mission_uid : Z).

(** Calls on the local [tinymap] and on the computer it hands out. *)
Inductive map_op : Type :=
| MapLoad (x y z : Z) (update_vehicles : bool)
| MapAddSpawn (mon : string) (count x y : Z) (friendly : bool)
              (faction mission_id : Z) (name : string)
| MapTerSet (p : tripoint) (ter : string)
| MapSpawnItem (p : tripoint) (item : string)
| MapAddComputer (p : tripoint) (name : string) (security : Z)
| MapComputerSetMission (mission_uid : Z)
| MapComputerAddOption (name action : string) (security : Z)
| MapSave.

Inductive event : Type :=
| EDebugmsg (fmt : string) (args : list fmt_arg)
| EAddMsg (fmt : string) (args : list fmt_arg)
| EFindClosest (q : find_query)
| EFindRandom (q : find_query)
| EPlaceSpecial (special : string) (origin : tripoint) (range : Z)
| ESetOter (pos : tripoint) (oter : string)
| EReveal (center : tripoint) (radius : Z)
| ERevealOmTer (omter : string) (reveal_rad : Z) (must_see : bool)
               (target_z : Z)
| ERng (lo hi : Z)
| EMission (wr : mission_write)
| ENpc (id : Z) (op : npc_op)
| ENewNpc (op : new_npc_op)
| EReserveMission (type : string) (npc : Z)
| EPlayerAddItem (type_id : string) (birthday : Z)
| EMap (op : map_op).

(** What a call does to the mission object: only the writes change it. *)
Definition apply_event (e : event) (m : mission) : mission :=
  match e with
  | EMission wr => apply_write wr m
  | _ => m
  end.

(** [enum direction], as passed to [map::is_last_ter_wall]. *)
Inductive direction : Type := NORTH | SOUTH | WEST | EAST.

(** ** The interface to the rest of the game

    [W] is the state of everything that lives outside mission_start.cpp:
    the overmap buffer, the NPC registry, the player, the random number
    engine, the saved map chunks and the [tinymap] that was loaded last.
    Constants and helpers of other headers are fields as well. *)
Record services (W : Type) : Type := Services {
  (** how the outside state changes when a call is made *)
  react : W -> event -> W;
  (** [overmap::invalid_tripoint], [OMAPX], [SEEX], [SEEY] *)
  invalid_tripoint : tripoint;
  OMAPX : Z;
  SEEX : Z;
  SEEY : Z;
  (** coordinate_conversions.h, line.h, omdata.h, overmap.h *)
  sm_to_omt_copy : tripoint -> tripoint;
  square_dist : Z -> Z -> Z -> Z -> Z;
  is_ot_type : string -> string -> bool;
  inbounds : tripoint -> Z -> bool;
  (** [g->u.global_omt_location()], [g->u.global_sm_location()],
      [g->find_npc( id )] *)
  u_global_omt_location : W -> tripoint;
  u_global_sm_location : W -> tripoint;
  find_npc : W -> Z -> option npc;
  (** the value the next [rng( lo, hi )] returns *)
  rng_value : W -> Z -> Z -> Z;
  (** [overmap_buffer]: results of the searches and read-only queries *)
  ob_find_closest : W -> find_query -> tripoint;
  ob_find_random : W -> find_query -> tripoint;
  ob_place_special : W -> string -> tripoint -> Z -> bool;
  ob_check_ot_type : W -> string -> Z -> Z -> Z -> bool;
  ob_closest_city : W -> tripoint -> city_reference;
  ob_is_safe : W -> tripoint -> bool;
  ob_ter : W -> tripoint -> string;
  (** result of [mission_util::reveal_om_ter] (mission_util.cpp) *)
  reveal_om_ter_result : W -> string -> Z -> bool -> Z -> tripoint;
  (** reads of the [tinymap] loaded last *)
  tm_ter : W -> Z -> Z -> string;
  tm_furn : W -> Z -> Z -> string;
  tm_has_flag_ter : W -> string -> Z -> Z -> bool;
  tm_is_last_ter_wall : W -> bool -> Z -> Z -> Z -> Z -> direction -> bool;
  (** [temp->getID()] and the result of [mission::reserve_new] *)
  new_npc_getID : W -> Z;
  reserve_new_result : W -> string -> Z -> Z
}.

Arguments react {W}.
Arguments invalid_tripoint {W}.
Arguments OMAPX {W}.
Arguments SEEX {W}.
Arguments SEEY {W}.
Arguments sm_to_omt_copy {W}.
Arguments square_dist {W}.
Arguments is_ot_type {W}.
Arguments inbounds {W}.
Arguments u_global_omt_location {W}.
Arguments u_global_sm_location {W}.
Arguments find_npc {W}.
Arguments rng_value {W}.
Arguments ob_find_closest {W}.
Arguments ob_find_random {W}.
Arguments ob_place_special {W}.
Arguments ob_check_ot_type {W}.
Arguments ob_closest_city {W}.
Arguments ob_is_safe {W}.
Arguments ob_ter {W}.
Arguments reveal_om_ter_result {W}.
Arguments tm_ter {W}.
Arguments tm_furn {W}.
Arguments tm_has_flag_ter {W}.
Arguments tm_is_last_ter_wall {W}.
Arguments new_npc_getID {W}.
Arguments reserve_new_result {W}.

(** ** The state the routines run in *)

Record world (W : Type) : Type := World {
  ext : W;              (** everything outside this file *)
  miss : mission;       (** the object behind [mission *miss] *)
  log : list event      (** the calls made so far, oldest first *)
}.

Arguments World {W}.
Arguments ext {W}.
Arguments miss {W}.
Arguments log {W}.

(** The integers [lo], [lo + 1], ..., [hi]: the values a loop
    [for( int v = lo; v <= hi; v++ )] runs through. *)
Definition range (lo hi : Z) : list Z :=
  map (fun i => lo + Z.of_nat i) (seq 0 (Z.to_nat (hi - lo + 1))).

(** [struct mission_target_params].  The [mission_pointer] member is not a
    field: the mission object it points to is the one of the [world]. *)
Record mission_target_params : Type := MissionTargetParams {
  overmap_terrain_subtype : string;
  search_origin : option tripoint;
  replaceable_overmap_terrain_subtype : option string;
  overmap_special : option string;
  reveal_radius : option Z;
  must_see : bool;
  random : bool;
  create_if_necessary : bool;
  search_range : Z
}.

(** ** JSON objects, as far as [set_assign_om_target] reads them *)

Inductive json_value : Type :=
| JString (s : string)
| JInt (n : Z)
| JBool (b : bool)
| JNull.

(** A [JsonObject]: its members in the order of the text. *)
Definition JsonObject : Type := list (string * json_value).

Fixpoint json_member (jo : JsonObject) (name : string) : option json_value :=
  match jo with
  | [] => None
  | (k, v) :: rest => if String.eqb k name then Some v else json_member rest name
  end.

Definition has_string (jo : JsonObject) (name : string) : bool :=
  match json_member jo name with Some (JString _) => true | _ => false end.

Definition has_int (jo : JsonObject) (name : string) : bool :=
  match json_member jo name with Some (JInt _) => true | _ => false end.

Definition has_bool (jo : JsonObject) (name : string) : bool :=
  match json_member jo name with Some (JBool _) => true | _ => false end.

(** The getters are only called behind the matching [has_...] test; the
    values after [| _ =>] are never used. *)
Definition get_string (jo : JsonObject) (name : string) : string :=
  match json_member jo name with Some (JString s) => s | _ => "" end.

Definition get_int (jo : JsonObject) (name : string) : Z :=
  match json_member jo name with Some (JInt n) => n | _ => 0 end.

Definition get_bool (jo : JsonObject) (name : string) : bool :=
  match json_member jo name with Some (JBool b) => b | _ => false end.

(** ** The routines *)

Section Routines.

Context {W : Type} (S : services W).

(** A routine takes the state and returns its result and the new state. *)
Definition M (A : Type) : Type := world W -> A * world W.

Definition ret {A : Type} (a : A) : M A := fun w => (a, w).

Definition bind {A B : Type} (c : M A) (k : A -> M B) : M B :=
  fun w => let (a, w') := c w in k a w'.

Notation "x <- c ;; k" := (bind c (fun x => k))
  (at level 61, c at next level, right associativity).
Notation "c ;; k" := (bind c (fun _ => k))
  (at level 61, right associativity).

(** A read-only query of the outside state. *)
Definition ask {A : Type} (f : W -> A) : M A := fun w => (f (ext w), w).

(** A call that can change something: it is logged, the outside state
    reacts to it, and a write to the mission object is carried out. *)
Definition emit (e : event) : M unit :=
  fun w => (tt, World (react S (ext w) e) (apply_event e (miss w)) (log w ++ [e])).

(** A call with a result: the result is the one the outside state holds
    for it when the call is made. *)
Definition call {A : Type} (result : W -> A) (e : event) : M A :=
  r <- ask result ;;
  emit e ;;
  ret r.

(** [*miss], read. *)
Definition get_miss : M mission := fun w => (miss w, w).

(** A write to a field of [*miss]; [miss->set_target( p )] and
    [miss->target = p] are both [write_mission (WTarget p)]. *)
Definition write_mission (wr : mission_write) : M unit :=
  emit (EMission wr).

Definition debugmsg (fmt : string) (args : list fmt_arg) : M unit :=
  emit (EDebugmsg fmt args).

Definition add_msg (fmt : string) (args : list fmt_arg) : M unit :=
  emit (EAddMsg fmt args).

Definition rng (lo hi : Z) : M Z := call (fun e => rng_value S e lo hi) (ERng lo hi).

Definition find_closest (q : find_query) : M tripoint :=
  call (fun e => ob_find_closest S e q) (EFindClosest q).

Definition find_random (q : find_query) : M tripoint :=
  call (fun e => ob_find_random S e q) (EFindRandom q).

Definition place_special (special : string) (origin : tripoint) (rg : Z) : M bool :=
  call (fun e => ob_place_special S e special origin rg)
       (EPlaceSpecial special origin rg).

Definition reveal (center : tripoint) (radius : Z) : M unit :=
  emit (EReveal center radius).

Definition is_invalid (p : tripoint) : bool :=
  tripoint_eqb p (invalid_tripoint S).

(** A loop whose body has no early exit. *)
Fixpoint for_each {A : Type} (l : list A) (body : A -> M unit) : M unit :=
  match l with
  | [] => ret tt
  | a :: rest => body a ;; for_each rest body
  end.

(** [random_entry( container, default_value )] of rng.h: the default when
    the container is empty, otherwise the element at index
    [rng( 0, size - 1 )]. *)
Definition random_entry (container : list tripoint) (default_value : tripoint)
  : M tripoint :=
  match container with
  | [] => ret default_value
  | _ :: _ =>
      i <- rng 0 (Z.of_nat (List.length container) - 1) ;;
      ret (nth (Z.to_nat i) container default_value)
  end.

(** *** random_house_in_city (lines 55-73)

    The reference is dereferenced without a test ("Given a (valid!) city
    reference"), so the routine takes the city that [cref.city] points to
    and [cref.abs_sm_pos]. *)

(** The vector [valid] after the two loops, for the outside state [e]. *)
Definition houses_in_square (e : W) (startx endx starty endy z : Z)
  : list tripoint :=
  flat_map (fun x =>
    flat_map (fun y =>
      if ob_check_ot_type S e "house" x y z then [Tripoint x y z] else [])
      (range starty endy))
    (range startx endx).

Definition random_house_in_city (c : city) (cref_abs_sm_pos : tripoint)
  : M tripoint :=
  let city_center_omt := sm_to_omt_copy S cref_abs_sm_pos in
  let size := city_size c in
  let z := pz cref_abs_sm_pos in
  let startx := px city_center_omt - size in
  let endx := px city_center_omt + size in
  let starty := py city_center_omt - size in
  let endy := py city_center_omt + size in
  valid <- ask (fun e => houses_in_square e startx endx starty endy z) ;;
  random_entry valid city_center_omt.

(** *** random_house_in_closest_city (lines 75-84) *)
Definition random_house_in_closest_city : M tripoint :=
  center <- ask (u_global_sm_location S) ;;
  cref <- ask (fun e => ob_closest_city S e center) ;;
  match cref_city cref with
  | None =>
      debugmsg "could not find closest city" [] ;;
      ask (u_global_omt_location S)
  | Some c => random_house_in_city c (abs_sm_pos cref)
  end.

(** *** target_closest_lab_entrance (lines 86-111) *)

Definition surface_query (origin : tripoint) : find_query :=
  FindQuery (with_z origin 0) "lab_stairs" 0 false true false None.

Definition underground_query (origin : tripoint) : find_query :=
  FindQuery (with_z origin (-1)) "hidden_lab_stairs" 0 false true false None.

Definition target_closest_lab_entrance (origin : tripoint) (reveal_rad : Z)
  : M tripoint :=
  surface <- find_closest (surface_query origin) ;;
  underground0 <- find_closest (underground_query origin) ;;
  let underground := with_z underground0 0 in
  let closest :=
    if square_dist S (px surface) (py surface) (px origin) (py origin)
       <=? square_dist S (px underground) (py underground) (px origin) (py origin)
    then surface else underground in
  (if negb (is_invalid closest) && (0 <=? reveal_rad)
   then reveal closest reveal_rad else ret tt) ;;
  write_mission (WTarget closest) ;;
  ret closest.

(** *** assign_mission_target (lines 135-205) *)

(** Lines 139-187: the search for [target_pos] and, where the parameters
    allow it, the creation of the terrain. *)
Definition assign_mission_target_search (params : mission_target_params)
  : M tripoint :=
  origin_pos <- match search_origin params with
                | Some o => ret o
                | None => ask (u_global_omt_location S)
                end ;;
  let q := FindQuery origin_pos (overmap_terrain_subtype params)
             (search_range params) (must_see params) false true
             (overmap_special params) in
  target_pos <- (if random params then find_random q else find_closest q) ;;
  if is_invalid target_pos && create_if_necessary params
     && negb (must_see params)
  then
    match overmap_special params with
    | Some special =>
        placed <- place_special special origin_pos (search_range params) ;;
        if placed
        then find_closest
               (FindQuery origin_pos (overmap_terrain_subtype params)
                  (search_range params) false false true
                  (overmap_special params))
        else ret target_pos
    | None =>
        match replaceable_overmap_terrain_subtype params with
        | Some replaceable =>
            found <- find_random
                       (FindQuery origin_pos replaceable (search_range params)
                          false false true None) ;;
            found' <- (if is_invalid found
                       then find_random
                              (FindQuery origin_pos replaceable
                                 (search_range params) false false false None)
                       else ret found) ;;
            (if negb (is_invalid found')
             then emit (ESetOter found' (overmap_terrain_subtype params))
             else ret tt) ;;
            ret found'
        | None => ret target_pos
        end
    end
  else ret target_pos.

Definition assign_mission_target (params : mission_target_params)
  : M (option tripoint) :=
  target_pos <- assign_mission_target_search params ;;
  if is_invalid target_pos
  then
    debugmsg "Unable to find and assign mission target %s."
             [ArgStr (overmap_terrain_subtype params)] ;;
    ret None
  else
    match reveal_radius params with
    | Some r => reveal target_pos r
    | None => ret tt
    end ;;
    write_mission (WTarget target_pos) ;;
    ret (Some target_pos).


(** *** join, infect_npc, need_drugs_npc (lines 211-250) *)

Definition mission_start_join : M unit :=
  m <- get_miss ;;
  p <- ask (fun e => find_npc S e (npc_id m)) ;;
  match p with
  | None => debugmsg "could not find mission NPC %d" [ArgInt (npc_id m)]
  | Some p => emit (ENpc (npc_getID p) (NpcSetAttitude NPCATT_FOLLOW))
  end.

Definition mission_start_infect_npc : M unit :=
  m <- get_miss ;;
  p <- ask (fun e => find_npc S e (npc_id m)) ;;
  match p with
  | None => debugmsg "couldn't find an NPC!" []
  | Some p =>
      emit (ENpc (npc_getID p) (NpcAddEffect "infection" 1 "num_bp" true 1)) ;;
      emit (ENpc (npc_getID p) (NpcRemoveItemsWith "antibiotics")) ;;
      emit (ENpc (npc_getID p) NpcGuardCurrentPos)
  end.

Definition mission_start_need_drugs_npc : M unit :=
  m <- get_miss ;;
  p <- ask (fun e => find_npc S e (npc_id m)) ;;
  match p with
  | None => debugmsg "couldn't find an NPC!" []
  | Some p =>
      emit (ENpc (npc_getID p) (NpcRemoveItemsWith (item_id m))) ;;
      emit (ENpc (npc_getID p) NpcGuardCurrentPos)
  end.

(** [tinymap::add_spawn] with the trailing arguments a call leaves out at
    their defaults: not friendly, faction -1, mission -1, name "NONE". *)
Definition add_spawn (mon : string) (count x y : Z) : M unit :=
  emit (EMap (MapAddSpawn mon count x y false (-1) (-1) "NONE")).

(** [m.load( p.x * 2, p.y * 2, p.z, false )]: the two products are [int]
    products. *)
Definition map_load (p : tripoint) : M unit :=
  emit (EMap (MapLoad (wrap_int (px p * 2)) (wrap_int (py p * 2)) (pz p)
                false)).

(** *** place_dog (lines 252-270) *)
Definition mission_start_place_dog : M unit :=
  house <- random_house_in_closest_city ;;
  m <- get_miss ;;
  dev <- ask (fun e => find_npc S e (npc_id m)) ;;
  match dev with
  | None => debugmsg "Couldn't find NPC! %d" [ArgInt (npc_id m)]
  | Some dev =>
      emit (EPlayerAddItem "dog_whistle" 0) ;;
      add_msg "%s gave you a dog whistle." [ArgStr (npc_name dev)] ;;
      write_mission (WTarget house) ;;
      reveal house 6 ;;
      map_load house ;;
      emit (EMap (MapAddSpawn "mon_dog" 1 (SEEX S) (SEEY S) true (-1) (uid m)
                    "NONE")) ;;
      emit (EMap MapSave)
  end.

(** *** kill_horde_master (lines 300-339) *)

(** One of the four searches for the haunt. *)
Definition haunt_query (center : tripoint) (type : string) : find_query :=
  FindQuery center type 0 false false false None.

Definition mission_start_kill_horde_master : M unit :=
  m <- get_miss ;;
  p <- ask (fun e => find_npc S e (npc_id m)) ;;
  match p with
  | None => debugmsg "could not find mission NPC %d" [ArgInt (npc_id m)]
  | Some p =>
      emit (ENpc (npc_getID p) (NpcSetAttitude NPCATT_FOLLOW)) ;;
      let center := npc_global_omt_location p in
      site <- find_closest (haunt_query center "office_tower_1") ;;
      site <- (if is_invalid site
               then find_closest (haunt_query center "hotel_tower_1_8")
               else ret site) ;;
      site <- (if is_invalid site
               then find_closest (haunt_query center "school_5")
               else ret site) ;;
      site <- (if is_invalid site
               then find_closest (haunt_query center "forest_thick")
               else ret site) ;;
      write_mission (WTarget site) ;;
      reveal site 6 ;;
      map_load site ;;
      emit (EMap (MapAddSpawn "mon_zombie_master" 1 (SEEX S) (SEEY S) false
                    (-1) (uid m) "Demonic Soul")) ;;
      add_spawn "mon_zombie_brute" 3 (SEEX S) (SEEY S) ;;
      add_spawn "mon_zombie_dog" 3 (SEEX S) (SEEY S) ;;
      (if inbounds S (Tripoint (SEEX S) (SEEY S) 0) 1
       then
         for_each (range (SEEX S - 1) (SEEX S + 1)) (fun x =>
           for_each (range (SEEY S - 1) (SEEY S + 1)) (fun y =>
             n <- rng 3 10 ;;
             add_spawn "mon_zombie" n x y) ;;
           n <- rng 0 2 ;;
           add_spawn "mon_zombie_dog" n (SEEX S) (SEEY S))
       else ret tt) ;;
      add_spawn "mon_zombie_necro" 2 (SEEX S) (SEEY S) ;;
      add_spawn "mon_zombie_hulk" 1 (SEEX S) (SEEY S) ;;
      emit (EMap MapSave)
  end.

(** *** find_potential_computer_point (lines 347-382) *)

(** The tiles [( x, y )] of the two loops over the loaded map, in the order
    the loops visit them. *)
Definition map_tiles : list (Z * Z) :=
  flat_map (fun x => map (fun y => (x, y)) (range 0 (SEEY S * 2 - 1)))
           (range 0 (SEEX S * 2 - 1)).

(** The tiles [( x2, y2 )] around [( x, y )], in the order of the inner
    loops. *)
Definition around (x y : Z) : list (Z * Z) :=
  flat_map (fun x2 => map (fun y2 => (x2, y2)) (range (y - 1) (y + 1)))
           (range (x - 1) (x + 1)).

(** The inner loops of [find_potential_computer_point]: they stop as soon
    as [okay] is set, after the wall test of that iteration.  The result is
    [( okay, wall )]. *)
Definition bed_and_walls (e : W) (x y : Z) : bool * Z :=
  fold_left
    (fun (st : bool * Z) (t : Z * Z) =>
       let (okay, wall) := st in
       let (x2, y2) := t in
       if okay then st
       else (String.eqb (tm_furn S e x2 y2) "f_bed"
             || String.eqb (tm_furn S e x2 y2) "f_dresser",
             if tm_has_flag_ter S e "WALL" x2 y2 then wall + 1 else wall))
    (around x y) (false, 0).

Definition broken_consoles (e : W) (z : Z) : list tripoint :=
  flat_map (fun t : Z * Z =>
    let (x, y) := t in
    if String.eqb (tm_ter S e x y) "t_console_broken"
    then [Tripoint x y z] else [])
    map_tiles.

Definition potential_points (e : W) (z : Z) : list tripoint :=
  flat_map (fun t : Z * Z =>
    let (x, y) := t in
    if String.eqb (tm_ter S e x y) "t_console_broken" then []
    else if String.eqb (tm_ter S e x y) "t_floor"
            && String.eqb (tm_furn S e x y) "f_null"
    then
      let (okay, wall) := bed_and_walls e x y in
      (if okay then [Tripoint x y z] else [])
      ++ (if (wall =? 5)
             && tm_is_last_ter_wall S e true x y (SEEX S * 2) (SEEY S * 2) NORTH
             && tm_is_last_ter_wall S e true x y (SEEX S * 2) (SEEY S * 2) SOUTH
             && tm_is_last_ter_wall S e true x y (SEEX S * 2) (SEEY S * 2) WEST
             && tm_is_last_ter_wall S e true x y (SEEX S * 2) (SEEY S * 2) EAST
          then [Tripoint x y z] else [])
    else [])
    map_tiles.

(** The two [rng] calls of the fallback are taken from left to right. *)
Definition find_potential_computer_point (z : Z) : M tripoint :=
  broken <- ask (fun e => broken_consoles e z) ;;
  potential <- ask (fun e => potential_points e z) ;;
  fx <- rng 10 (SEEX S * 2 - 11) ;;
  fy <- rng 10 (SEEY S * 2 - 11) ;;
  random_entry (match broken with [] => potential | _ :: _ => broken end)
               (Tripoint fx fy z).

(** *** place_npc_software (lines 384-432) *)
Definition mission_start_place_npc_software : M unit :=
  m <- get_miss ;;
  dev <- ask (fun e => find_npc S e (npc_id m)) ;;
  match dev with
  | None => debugmsg "Couldn't find NPC! %d" [ArgInt (npc_id m)]
  | Some dev =>
      emit (EPlayerAddItem "usb_drive" 0) ;;
      add_msg "%s gave you a USB drive." [ArgStr (npc_name dev)] ;;
      type <- match myclass dev with
              | NC_HACKER =>
                  write_mission (WItemId "software_hacking") ;; ret "house"
              | NC_DOCTOR =>
                  write_mission (WItemId "software_medical") ;;
                  write_mission (WFollowUp "MISSION_GET_ZOMBIE_BLOOD_ANAL") ;;
                  ret "s_pharm"
              | NC_SCIENTIST =>
                  write_mission (WItemId "software_math") ;; ret "house"
              | _ =>
                  write_mission (WItemId "software_useless") ;; ret "house"
              end ;;
      place <- (if String.eqb type "house"
                then random_house_in_closest_city
                else find_closest
                       (FindQuery (npc_global_omt_location dev) type 0 false
                          false false None)) ;;
      write_mission (WTarget place) ;;
      reveal place 6 ;;
      map_load place ;;
      oter <- ask (fun e => ob_ter S e place) ;;
      comppoint <- (if is_ot_type S "house" oter || is_ot_type S "s_pharm" oter
                       || String.eqb oter ""
                    then find_potential_computer_point (pz place)
                    else ret (Tripoint 0 0 0)) ;;
      emit (EMap (MapTerSet comppoint "t_console")) ;;
      emit (EMap (MapAddComputer comppoint (String.append (npc_name dev) "'s Terminal") 0)) ;;
      emit (EMap (MapComputerSetMission (uid m))) ;;
      emit (EMap (MapComputerAddOption "Download Software"
                    "COMPACT_DOWNLOAD_SOFTWARE" 0)) ;;
      emit (EMap MapSave)
  end.

(** *** place_deposit_box (lines 457-500) *)

(** The inner loops of [place_deposit_box]: is a metal wall next to
    [( x, y )]?  They stop at the first one. *)
Definition next_to_metal_wall (e : W) (x y : Z) : bool :=
  fold_left
    (fun (okay : bool) (t : Z * Z) =>
       let (x2, y2) := t in
       if okay then okay else String.eqb (tm_ter S e x2 y2) "t_wall_metal")
    (around x y) false.

Definition deposit_box_points (e : W) (z : Z) : list tripoint :=
  flat_map (fun t : Z * Z =>
    let (x, y) := t in
    if String.eqb (tm_ter S e x y) "t_floor" && next_to_metal_wall e x y
    then [Tripoint x y z] else [])
    map_tiles.

Definition mission_start_place_deposit_box : M unit :=
  m <- get_miss ;;
  p <- ask (fun e => find_npc S e (npc_id m)) ;;
  match p with
  | None => debugmsg "could not find mission NPC %d" [ArgInt (npc_id m)]
  | Some p =>
      emit (ENpc (npc_getID p) (NpcSetAttitude NPCATT_FOLLOW)) ;;
      let here := npc_global_omt_location p in
      site <- find_closest (FindQuery here "bank" 0 false false false None) ;;
      site <- (if is_invalid site
               then find_closest
                      (FindQuery here "office_tower_1" 0 false false false None)
               else ret site) ;;
      site <- (if is_invalid site
               then debugmsg "Couldn't find a place for deposit box" [] ;;
                    ret here
               else ret site) ;;
      write_mission (WTarget site) ;;
      reveal site 2 ;;
      map_load site ;;
      valid <- ask (fun e => deposit_box_points e (pz site)) ;;
      fx <- rng 6 (SEEX S * 2 - 7) ;;
      fy <- rng 6 (SEEY S * 2 - 7) ;;
      comppoint <- random_entry valid (Tripoint fx fy (pz site)) ;;
      emit (EMap (MapSpawnItem comppoint "safe_box")) ;;
      emit (EMap MapSave)
  end.

(** *** find_safety (lines 502-550) *)

(** A loop that is left by [return] from inside its body: the body says
    whether it returned. *)
Fixpoint until_return {A : Type} (l : list A) (body : A -> M bool) : M bool :=
  match l with
  | [] => ret false
  | a :: rest =>
      returned <- body a ;;
      if returned then ret true else until_return rest body
  end.

(** The [switch] on the direction: [check] starts as a copy of [place]. *)
Definition safety_check (place : tripoint) (radius dist dir : Z) : tripoint :=
  match dir with
  | 0 => Tripoint (px place + dist) (py place - radius) (pz place)
  | 1 => Tripoint (px place + dist) (py place + radius) (pz place)
  | 2 => Tripoint (px place - radius) (py place + dist) (pz place)
  | 3 => Tripoint (px place + radius) (py place + dist) (pz place)
  | _ => place
  end.

(** The three nested loops; [true] when a safe tile was found, made the
    target, and the routine returned. *)
Definition find_safety_search (place : tripoint) : M bool :=
  until_return (range 0 20) (fun radius =>
    until_return (range (0 - radius) radius) (fun dist =>
      offset <- rng 0 3 ;;
      until_return (range 0 3) (fun i =>
        let check := safety_check place radius dist (Z.rem (offset + i) 4) in
        safe <- ask (fun e => ob_is_safe S e check) ;;
        if safe
        then write_mission (WTarget check) ;; ret true
        else ret false))).

Definition mission_start_find_safety : M unit :=
  place <- ask (u_global_omt_location S) ;;
  returned <- find_safety_search place ;;
  if returned then ret tt
  else
    r <- rng 0 3 ;;
    match r with
    | 0 => write_mission
             (WTarget (Tripoint (px place - 20) (py place - 20) (pz place)))
    | 1 => write_mission
             (WTarget (Tripoint (px place - 20) (py place + 20) (pz place)))
    | 2 => write_mission
             (WTarget (Tripoint (px place + 20) (py place - 20) (pz place)))
    | 3 => write_mission
             (WTarget (Tripoint (px place + 20) (py place + 20) (pz place)))
    | _ => ret tt
    end.

(** *** recruit_tracker (lines 552-576) *)

(** [mission_util::target_om_ter] is defined in mission_util.cpp: it makes
    the place that [reveal_om_ter] returns the target of the mission and
    returns it. *)
Definition target_om_ter (omter : string) (reveal_rad : Z) (must_see_ : bool)
    (target_z : Z) : M tripoint :=
  place <- call (fun e => reveal_om_ter_result S e omter reveal_rad must_see_
                            target_z)
                (ERevealOmTer omter reveal_rad must_see_ target_z) ;;
  write_mission (WTarget place) ;;
  ret place.

Definition mission_start_recruit_tracker : M unit :=
  m <- get_miss ;;
  p <- ask (fun e => find_npc S e (npc_id m)) ;;
  match p with
  | None => debugmsg "could not find mission NPC %d" [ArgInt (npc_id m)]
  | Some p =>
      emit (ENpc (npc_getID p) (NpcSetAttitude NPCATT_FOLLOW)) ;;
      site <- target_om_ter "cabin" 2 false 0 ;;
      write_mission (WRecruitClass NC_COWBOY) ;;
      emit (ENewNpc NewNpcMake) ;;
      emit (ENewNpc NewNpcNormalize) ;;
      emit (ENewNpc (NewNpcRandomize NC_COWBOY)) ;;
      emit (ENewNpc (NewNpcSpawnAtPrecise (wrap_int (px site * 2))
                       (wrap_int (py site * 2))
                       (Tripoint 11 11 (pz site)))) ;;
      emit (ENewNpc NewNpcInsert) ;;
      emit (ENewNpc (NewNpcSetAttitude NPCATT_TALK)) ;;
      emit (ENewNpc NewNpcSetMissionShopkeep) ;;
      emit (ENewNpc (NewNpcAggressionSub 1)) ;;
      emit (ENewNpc (NewNpcSetOwed 10)) ;;
      id <- ask (new_npc_getID S) ;;
      new_mission <- call (fun e => reserve_new_result S e "MISSION_JOIN_TRACKER" id)
                          (EReserveMission "MISSION_JOIN_TRACKER" id) ;;
      emit (ENewNpc (NewNpcAddNewMission new_mission))
  end.

(** *** mission_util::set_assign_om_target (lines 1031-1071) *)

(** [mission_target_params p;] with the default member initialisers. *)
Definition default_mission_target_params : mission_target_params :=
  MissionTargetParams "" None None None None false false true (OMAPX S).

(** Lines 1037-1060: the parameters [p] and the level [z] read from the
    JSON object. *)
Definition assign_om_target_params (jo : JsonObject)
  : mission_target_params * option Z :=
  let p := default_mission_target_params in
  (MissionTargetParams
     (get_string jo "om_terrain")
     (search_origin p)
     (if has_string jo "om_terrain_replace"
      then Some (get_string jo "om_terrain_replace")
      else replaceable_overmap_terrain_subtype p)
     (if has_string jo "om_special"
      then Some (get_string jo "om_special")
      else overmap_special p)
     (if has_int jo "reveal_radius"
      then Some (Z.max 1 (get_int jo "reveal_radius"))
      else reveal_radius p)
     (if has_bool jo "must_see" then get_bool jo "must_see" else must_see p)
     (if has_bool jo "random" then get_bool jo "random" else random p)
     (create_if_necessary p)
     (if has_int jo "search_range"
      then Z.max 1 (get_int jo "search_range")
      else search_range p),
   if has_int jo "z" then Some (get_int jo "z") else None).

(** The closure [mission_func]. *)
Definition assign_om_target_func (p : mission_target_params) (z : option Z)
  : M unit :=
  mtp <- match z with
         | Some z =>
             loc <- ask (u_global_omt_location S) ;;
             ret (MissionTargetParams
                    (overmap_terrain_subtype p)
                    (Some (Tripoint (px loc) (py loc) z))
                    (replaceable_overmap_terrain_subtype p)
                    (overmap_special p) (reveal_radius p) (must_see p)
                    (random p) (create_if_necessary p) (search_range p))
         | None => ret p
         end ;;
  assign_mission_target mtp ;;
  ret tt.

(** [jo.throw_error] is [inl]; otherwise the closure is appended to
    [funcs]. *)
Definition mission_util_set_assign_om_target (jo : JsonObject)
    (funcs : list (M unit)) : string + list (M unit) :=
  if negb (has_string jo "om_terrain")
  then inl "'om_terrain' is required for assign_mission_target"
  else
    let (p, z) := assign_om_target_params jo in
    inr (funcs ++ [assign_om_target_func p z]).

End Routines.

(** ** What a run leaves behind *)

Section Traces.

Context {W : Type} (S : services W).

(** The mission object after the writes among [evs]. *)
Definition replay (evs : list event) (m : mission) : mission :=
  fold_left (fun m e => apply_event e m) evs m.

(** The state after the calls [evs] were made from [w], in this order. *)
Definition after (w : world W) (evs : list event) : world W :=
  World (fold_left (react S) evs (ext w)) (replay evs (miss w)) (log w ++ evs).

(** Calls that create overmap terrain: placing a special, assigning a
    terrain id, and a search that is allowed to create new overmaps. *)
Definition creates_terrain (e : event) : bool :=
  match e with
  | EPlaceSpecial _ _ _ => true
  | ESetOter _ _ => true
  | EFindClosest q => negb (fq_existing_overmaps_only q)
  | EFindRandom q => negb (fq_existing_overmaps_only q)
  | _ => false
  end.

(** The calls [assign_mission_target] makes while it looks for, or
    creates, the target. *)
Definition is_target_search (e : event) : bool :=
  match e with
  | EFindClosest _ | EFindRandom _ | EPlaceSpecial _ _ _ | ESetOter _ _ => true
  | _ => false
  end.

Definition is_reveal (e : event) : bool :=
  match e with EReveal _ _ => true | _ => false end.

Definition is_mission_write (e : event) : bool :=
  match e with EMission _ => true | _ => false end.

Definition is_rng (e : event) : bool :=
  match e with ERng _ _ => true | _ => false end.

Definition is_debugmsg (e : event) : bool :=
  match e with EDebugmsg _ _ => true | _ => false end.

Definition is_add_spawn (e : event) : bool :=
  match e with EMap (MapAddSpawn _ _ _ _ _ _ _ _) => true | _ => false end.

(** The contract of [rng( lo, hi )]. *)
Definition rng_in_range : Prop :=
  forall (e : W) (lo hi : Z), lo <= hi -> lo <= rng_value S e lo hi <= hi.

(** [sm_to_omt_copy] converts x and y only. *)
Definition sm_to_omt_keeps_z : Prop :=
  forall p : tripoint, pz (sm_to_omt_copy S p) = pz p.

(** The routine returned right after one debug message and did nothing
    else. *)
Definition only_debugmsg (routine : M unit) (w : world W) : Prop :=
  exists fmt args, routine w = (tt, after w [EDebugmsg fmt args]).

(** The first search of [assign_mission_target]. *)
Definition first_search_origin (params : mission_target_params) (w : world W)
  : tripoint :=
  match search_origin params with
  | Some o => o
  | None => u_global_omt_location S (ext w)
  end.

Definition first_search_query (params : mission_target_params) (w : world W)
  : find_query :=
  FindQuery (first_search_origin params w) (overmap_terrain_subtype params)
            (search_range params) (must_see params) false true
            (overmap_special params).

(** The choice of a haunt, specified on its own: the first valid result of
    the searches for the given types, in order, and the invalid point when
    there is none. *)
Fixpoint first_valid_site (center : tripoint) (types : list string)
  : M tripoint :=
  match types with
  | [] => ret (invalid_tripoint S)
  | type :: rest =>
      bind (find_closest S (haunt_query center type)) (fun site =>
        if is_invalid S site then first_valid_site center rest else ret site)
  end.

Definition haunt_types : list string :=
  ["office_tower_1"; "hotel_tower_1_8"; "school_5"; "forest_thick"].

(** Chebyshev distance of two points on the x/y plane. *)
Definition chebyshev (a b : tripoint) : Z :=
  Z.max (Z.abs (px a - px b)) (Z.abs (py a - py b)).

(** A search that may return from the routine: it only draws random
    numbers, and it says [true] exactly when its last call made a point
    that satisfies [good] the target of the mission. *)
Definition search_outcome (good : tripoint -> Prop) (c : M bool) : Prop :=
  forall w : world W,
    exists rngs,
      Forall (fun e => is_rng e = true) rngs
      /\ ((fst (c w) = false /\ snd (c w) = after w rngs)
          \/ (exists check,
                good check /\ fst (c w) = true
                /\ snd (c w) = after w (rngs ++ [EMission (WTarget check)]))).

(** On the z-level of [place], at most [r] away on each axis. *)
Definition within (r : Z) (place p : tripoint) : Prop :=
  pz p = pz place /\ chebyshev p place <= r.

End Traces.

(** ** A small concrete game, to run the routines on

    The outside state is a list of NPCs, at most one city with its houses,
    the overmap terrains known by type, the safe tiles, the player's
    position and the number of random draws so far.  A search returns the
    first known site of the type, a draw returns [lo] plus the number of
    draws so far modulo the width of the interval, and assigning a terrain
    id makes a new site known. *)

Module Toy.

Record state : Type := State {
  npcs : list npc;
  closest : option city;
  city_sm_pos : tripoint;
  houses : list tripoint;
  sites : list (string * tripoint);
  safe : list tripoint;
  player : tripoint;
  draws : Z
}.

Definition INT_MIN : Z := -2147483648.

Definition nowhere : tripoint := Tripoint INT_MIN INT_MIN INT_MIN.

Fixpoint site_of (l : list (string * tripoint)) (type : string) : tripoint :=
  match l with
  | [] => nowhere
  | (t, p) :: rest => if String.eqb t type then p else site_of rest type
  end.

Definition type_at (l : list (string * tripoint)) (p : tripoint) : string :=
  match find (fun tp => tripoint_eqb (snd tp) p) l with
  | Some tp => fst tp
  | None => ""
  end.

Definition step (s : state) (e : event) : state :=
  match e with
  | ERng _ _ =>
      State (npcs s) (closest s) (city_sm_pos s) (houses s) (sites s) (safe s)
            (player s) (draws s + 1)
  | ESetOter p oter =>
      State (npcs s) (closest s) (city_sm_pos s) (houses s)
            ((oter, p) :: sites s) (safe s) (player s) (draws s)
  | _ => s
  end.

Definition game : services state := {|
  react := step;
  invalid_tripoint := nowhere;
  OMAPX := 180;
  SEEX := 12;
  SEEY := 12;
  sm_to_omt_copy := fun p => Tripoint (px p / 2) (py p / 2) (pz p);
  square_dist := fun x1 y1 x2 y2 => Z.max (Z.abs (x1 - x2)) (Z.abs (y1 - y2));
  is_ot_type := String.eqb;
  inbounds := fun _ _ => true;
  u_global_omt_location := player;
  u_global_sm_location := fun s =>
    Tripoint (px (player s) * 2) (py (player s) * 2) (pz (player s));
  find_npc := fun s id => find (fun n => npc_getID n =? id) (npcs s);
  rng_value := fun s lo hi => lo + draws s mod (hi - lo + 1);
  ob_find_closest := fun s q => site_of (sites s) (fq_type q);
  ob_find_random := fun s q => site_of (sites s) (fq_type q);
  ob_place_special := fun _ _ _ _ => false;
  ob_check_ot_type := fun s type x y z =>
    String.eqb type "house"
    && existsb (tripoint_eqb (Tripoint x y z)) (houses s);
  ob_closest_city := fun s _ => CityReference (closest s) (city_sm_pos s) 0;
  ob_is_safe := fun s p => existsb (tripoint_eqb p) (safe s);
  ob_ter := fun s p => type_at (sites s) p;
  reveal_om_ter_result := fun s omter _ _ _ => site_of (sites s) omter;
  tm_ter := fun _ _ _ => "t_dirt";
  tm_furn := fun _ _ _ => "f_null";
  tm_has_flag_ter := fun _ _ _ _ => false;
  tm_is_last_ter_wall := fun _ _ _ _ _ _ _ => false;
  new_npc_getID := fun _ => 100;
  reserve_new_result := fun _ _ _ => 7
|}.

Definition a_mission : mission :=
  Mission 5 42 (Tripoint 0 0 0) "" "" NC_NONE.

Definition guide : npc := Npc 42 "Ada" NC_HACKER (Tripoint 10 10 0).

(** Nobody around, no city, nothing known on the overmap. *)
Definition empty_state : state :=
  State [] None (Tripoint 0 0 0) [] [] [] (Tripoint 3 4 0) 0.

(** A city of size 2 around overmap terrain (5, 5) with two houses, the
    mission's NPC, a school, lab stairs, and one safe tile. *)
Definition town_state : state :=
  State [guide] (Some (City 2 "Toytown")) (Tripoint 10 11 0)
        [Tripoint 4 6 0; Tripoint 7 5 0]
        [("school_5", Tripoint 20 3 0); ("lab_stairs", Tripoint 8 8 0);
         ("field", Tripoint 1 1 0)]
        [Tripoint 3 6 0]
        (Tripoint 3 4 0) 0.

Definition empty_world : world state := World empty_state a_mission [].

(** Look for the school around the player and reveal 3 tiles around it. *)
Definition find_school : mission_target_params :=
  MissionTargetParams "school_5" None None None (Some 3) false false true 180.

(** Look for a bunker the player has seen; there is none. *)
Definition find_seen_bunker : mission_target_params :=
  MissionTargetParams "bunker" None (Some "field") None (Some 3) true false
                      true 180.

(** Look for a bunker anywhere; a field may be turned into one. *)
Definition build_bunker : mission_target_params :=
  MissionTargetParams "bunker" None (Some "field") None None false true
                      true 180.

(** An "assign_mission_target" object with values below 1. *)
Definition target_json : JsonObject :=
  [("om_terrain", JString "school_5"); ("reveal_radius", JInt 0);
   ("search_range", JInt (-5)); ("random", JBool true)].

Definition town_world : world state := World town_state a_mission [].

End Toy.

(** ** More routines of mission_start.cpp *)

Section MoreRoutines.

Context {W : Type} (S : services W).

Notation "x <- c ;; k" := (bind c (fun x => k))
  (at level 61, c at next level, right associativity).
Notation "c ;; k" := (bind c (fun _ => k))
  (at level 61, right associativity).

(** *** place_priest_diary (lines 434-455) *)

(** The vector [valid] of [place_priest_diary]: the tiles with a bed, a
    dresser, an indoor plant or a cupboard. *)
Definition diary_points (e : W) (z : Z) : list tripoint :=
  flat_map (fun t : Z * Z =>
    let (x, y) := t in
    if String.eqb (tm_furn S e x y) "f_bed"
       || String.eqb (tm_furn S e x y) "f_dresser"
       || String.eqb (tm_furn S e x y) "f_indoor_plant"
       || String.eqb (tm_furn S e x y) "f_cupboard"
    then [Tripoint x y z] else [])
    (map_tiles S).

Definition mission_start_place_priest_diary : @M W unit :=
  place <- random_house_in_closest_city S ;;
  write_mission S (WTarget place) ;;
  reveal S place 2 ;;
  map_load S place ;;
  valid <- ask (fun e => diary_points e (pz place)) ;;
  fx <- rng S 6 (SEEX S * 2 - 7) ;;
  fy <- rng S 6 (SEEY S * 2 - 7) ;;
  comppoint <- random_entry S valid (Tripoint fx fy (pz place)) ;;
  emit S (EMap (MapSpawnItem comppoint "priest_diary")) ;;
  emit S (EMap MapSave).

(** *** reveal_destination (lines 822-833) *)
Definition reveal_destination (type : string) : @M W tripoint :=
  your_pos <- ask (u_global_omt_location S) ;;
  radius <- rng S 40 80 ;;
  center_pos <- find_random S
                  (FindQuery your_pos type radius false false false None) ;;
  if negb (is_invalid S center_pos)
  then reveal S center_pos 2 ;; ret center_pos
  else ret (invalid_tripoint S).

(** ** What the properties of these routines speak about *)

(** The first search of [assign_mission_target]: its call and its result. *)
Definition first_search_call (params : mission_target_params) (w : world W)
  : event :=
  if random params
  then EFindRandom (first_search_query S params w)
  else EFindClosest (first_search_query S params w).

Definition first_search_hit (params : mission_target_params) (w : world W)
  : tripoint :=
  if random params
  then ob_find_random S (ext w) (first_search_query S params w)
  else ob_find_closest S (ext w) (first_search_query S params w).

(** The origin and the range of a search or of the placement of a special. *)
Definition search_from (e : event) : option (tripoint * Z) :=
  match e with
  | EFindClosest q | EFindRandom q => Some (fq_origin q, fq_radius q)
  | EPlaceSpecial _ origin rg => Some (origin, rg)
  | _ => None
  end.

Definition is_set_oter (e : event) : bool :=
  match e with ESetOter _ _ => true | _ => false end.

Definition is_map_save (e : event) : bool :=
  match e with EMap MapSave => true | _ => false end.

Definition is_map_call (e : event) : bool :=
  match e with EMap _ => true | _ => false end.

(** The counts of the spawns of one monster among the calls, in order. *)
Definition spawn_counts (mon : string) (evs : list event) : list Z :=
  flat_map (fun e =>
    match e with
    | EMap (MapAddSpawn m count _ _ _ _ _ _) =>
        if String.eqb m mon then [count] else []
    | _ => []
    end) evs.

(** Every count of a spawn of [mon] among the calls is between [lo] and
    [hi], and there are [n] such spawns. *)
Definition spawn_groups (mon : string) (n : nat) (lo hi : Z)
    (evs : list event) : Prop :=
  List.length (spawn_counts mon evs) = n
  /\ Forall (fun c => lo <= c <= hi) (spawn_counts mon evs).

(** The item a software mission asks for, by the class of the NPC. *)
Definition software_of (c : npc_class_id) : string :=
  match c with
  | NC_HACKER => "software_hacking"
  | NC_DOCTOR => "software_medical"
  | NC_SCIENTIST => "software_math"
  | _ => "software_useless"
  end.

(** The follow-up mission a software mission gets: doctors only. *)
Definition software_follow_up (c : npc_class_id) (before : string) : string :=
  match c with
  | NC_DOCTOR => "MISSION_GET_ZOMBIE_BLOOD_ANAL"
  | _ => before
  end.

Definition is_find_closest (e : event) : bool :=
  match e with EFindClosest _ => true | _ => false end.

(** The calls on the computer that [place_npc_software] sets up at
    [point]. *)
Definition software_console (point : tripoint) (dev : npc) (mission_uid : Z)
  : list event :=
  [EMap (MapTerSet point "t_console");
   EMap (MapAddComputer point (String.append (npc_name dev) "'s Terminal") 0);
   EMap (MapComputerSetMission mission_uid);
   EMap (MapComputerAddOption "Download Software" "COMPACT_DOWNLOAD_SOFTWARE" 0);
   EMap MapSave].

(** A search that may return from the routine, as [search_outcome], where
    [good] also sees the state in which the target was written. *)
Definition search_outcome_in (good : W -> tripoint -> Prop) (c : @M W bool)
  : Prop :=
  forall w : world W,
    exists rngs,
      Forall (fun e => is_rng e = true) rngs
      /\ ((fst (c w) = false /\ snd (c w) = after S w rngs)
          \/ (exists check,
                good (ext (after S w rngs)) check /\ fst (c w) = true
                /\ snd (c w) = after S w (rngs ++ [EMission (WTarget check)]))).

End MoreRoutines.

(** ** A second small game: a map with a broken console and furniture *)

Module Lab.

(** The loaded map: a broken console at (3, 4), a bed at (5, 5), a metal
    wall at (8, 8), floor everywhere else. *)
Definition ter (x y : Z) : string :=
  if (x =? 3) && (y =? 4) then "t_console_broken"
  else if (x =? 8) && (y =? 8) then "t_wall_metal"
  else "t_floor".

Definition furn (x y : Z) : string :=
  if (x =? 5) && (y =? 5) then "f_bed" else "f_null".

(** The game of [Toy] with this map, in which every terrain is a house. *)
Definition game : services Toy.state := {|
  react := react Toy.game;
  invalid_tripoint := invalid_tripoint Toy.game;
  OMAPX := OMAPX Toy.game;
  SEEX := SEEX Toy.game;
  SEEY := SEEY Toy.game;
  sm_to_omt_copy := sm_to_omt_copy Toy.game;
  square_dist := square_dist Toy.game;
  is_ot_type := fun _ _ => true;
  inbounds := inbounds Toy.game;
  u_global_omt_location := u_global_omt_location Toy.game;
  u_global_sm_location := u_global_sm_location Toy.game;
  find_npc := find_npc Toy.game;
  rng_value := rng_value Toy.game;
  ob_find_closest := ob_find_closest Toy.game;
  ob_find_random := ob_find_random Toy.game;
  ob_place_special := ob_place_special Toy.game;
  ob_check_ot_type := ob_check_ot_type Toy.game;
  ob_closest_city := ob_closest_city Toy.game;
  ob_is_safe := ob_is_safe Toy.game;
  ob_ter := ob_ter Toy.game;
  reveal_om_ter_result := reveal_om_ter_result Toy.game;
  tm_ter := fun _ => ter;
  tm_furn := fun _ => furn;
  tm_has_flag_ter := fun _ _ _ _ => false;
  tm_is_last_ter_wall := fun _ _ _ _ _ _ _ => false;
  new_npc_getID := new_npc_getID Toy.game;
  reserve_new_result := reserve_new_result Toy.game
|}.

(** A doctor instead of the hacker, and a bank. *)
Definition doctor : npc := Npc 42 "Bea" NC_DOCTOR (Tripoint 10 10 0).

Definition bank_state : Toy.state :=
  Toy.State [doctor] None (Tripoint 0 0 0) []
            [("bank", Tripoint 9 9 0); ("forest_thick", Tripoint 30 30 0)]
            [Tripoint 3 4 0] (Tripoint 3 4 0) 0.

Definition bank_world : world Toy.state := World bank_state Toy.a_mission [].

(** Look for a bunker without permission to create one. *)
Definition find_bunker_only : mission_target_params :=
  MissionTargetParams "bunker" None (Some "field") None None false false
                      false 180.

(** Look for a bunker that belongs to a special. *)
Definition find_special_bunker : mission_target_params :=
  MissionTargetParams "bunker" None (Some "field") (Some "bunker_special")
                      None false false true 180.

(** An "assign_mission_target" object for a target the player must have
    seen, two levels down. *)
Definition seen_json : JsonObject :=
  [("om_terrain", JString "bunker"); ("om_terrain_replace", JString "field");
   ("must_see", JBool true); ("z", JInt (-2))].

(** Two lab entrances: stairs on the surface at (8, 8), and hidden stairs
    one level down at (4, 5), closer to the player at (3, 4). *)
Definition stairs_state : Toy.state :=
  Toy.State [] None (Tripoint 0 0 0) []
            [("lab_stairs", Tripoint 8 8 0);
             ("hidden_lab_stairs", Tripoint 4 5 (-1))]
            [] (Tripoint 3 4 0) 0.

Definition stairs_world : world Toy.state :=
  World stairs_state Toy.a_mission [].

(** The doctor alone: no city and nothing known on the overmap. *)
Definition lost_state : Toy.state :=
  Toy.State [doctor] None (Tripoint 0 0 0) [] [] [] (Tripoint 3 4 0) 0.

Definition lost_world : world Toy.state := World lost_state Toy.a_mission [].

End Lab.

(** * Properties *)

(** ** Points and ranges *)

Lemma tripoint_eqb_eq (a b : tripoint) : tripoint_eqb a b = true <-> a = b.
Proof.
  unfold tripoint_eqb. destruct a as [ax ay az], b as [bx b_y bz]. simpl.
  rewrite !andb_true_iff, !Z.eqb_eq. split.
  - intros [[-> ->] ->]. reflexivity.
  - intros H. injection H as -> -> ->. auto.
Qed.

Lemma tripoint_eqb_neq (a b : tripoint) : tripoint_eqb a b = false <-> a <> b.
Proof.
  rewrite <- tripoint_eqb_eq. destruct (tripoint_eqb a b); split; congruence.
Qed.

(** [wrap_int] gives an [int], and changes nothing that fits one. *)
Lemma wrap_int_bounds (v : Z) : int_min <= wrap_int v <= 2147483647.
Proof.
  unfold wrap_int, int_min.
  pose proof (Z.mod_pos_bound (v + 2147483648) 4294967296 ltac:(lia)). lia.
Qed.

Lemma wrap_int_fits (v : Z) :
  int_min <= v <= 2147483647 -> wrap_int v = v.
Proof.
  unfold wrap_int, int_min. intros Hv. rewrite Z.mod_small by lia. lia.
Qed.

Lemma in_range (lo hi v : Z) : In v (range lo hi) <-> lo <= v <= hi.
Proof.
  unfold range. rewrite in_map_iff. split.
  - intros [i [<- Hi]]. apply in_seq in Hi. lia.
  - intros Hv. exists (Z.to_nat (v - lo)). split; [lia |].
    apply in_seq. lia.
Qed.

Section Properties.

Context {W : Type} (S : services W).

(** ** Runs and what they leave behind *)

Lemma after_nil (w : world W) : after S w [] = w.
Proof. destruct w. unfold after. simpl. rewrite app_nil_r. reflexivity. Qed.

Lemma after_app (w : world W) (evs1 evs2 : list event) :
  after S (after S w evs1) evs2 = after S w (evs1 ++ evs2).
Proof.
  unfold after, replay. simpl. rewrite !fold_left_app, app_assoc. reflexivity.
Qed.

Lemma emit_after (e : event) (w : world W) : emit S e w = (tt, after S w [e]).
Proof. reflexivity. Qed.

Lemma write_mission_after (wr : mission_write) (w : world W) :
  write_mission S wr w = (tt, after S w [EMission wr]).
Proof. reflexivity. Qed.

Lemma call_after {A : Type} (result : W -> A) (e : event) (w : world W) :
  call S result e w = (result (ext w), after S w [e]).
Proof. reflexivity. Qed.

Lemma ask_run {A : Type} (f : W -> A) (w : world W) :
  ask f w = (f (ext w), w).
Proof. reflexivity. Qed.

Lemma ret_run {A : Type} (a : A) (w : world W) : ret a w = (a, w).
Proof. reflexivity. Qed.

Lemma get_miss_run (w : world W) : get_miss w = (miss w, w).
Proof. reflexivity. Qed.

Lemma debugmsg_after (fmt : string) (args : list fmt_arg) (w : world W) :
  debugmsg S fmt args w = (tt, after S w [EDebugmsg fmt args]).
Proof. reflexivity. Qed.

Lemma reveal_after (p : tripoint) (r : Z) (w : world W) :
  reveal S p r w = (tt, after S w [EReveal p r]).
Proof. reflexivity. Qed.

Lemma rng_after (lo hi : Z) (w : world W) :
  rng S lo hi w = (rng_value S (ext w) lo hi, after S w [ERng lo hi]).
Proof. reflexivity. Qed.

Lemma find_closest_after (q : find_query) (w : world W) :
  find_closest S q w = (ob_find_closest S (ext w) q, after S w [EFindClosest q]).
Proof. reflexivity. Qed.

Lemma find_random_after (q : find_query) (w : world W) :
  find_random S q w = (ob_find_random S (ext w) q, after S w [EFindRandom q]).
Proof. reflexivity. Qed.

Lemma place_special_after (special : string) (origin : tripoint) (rg : Z)
    (w : world W) :
  place_special S special origin rg w
  = (ob_place_special S (ext w) special origin rg,
     after S w [EPlaceSpecial special origin rg]).
Proof. reflexivity. Qed.

Lemma replay_no_write (evs : list event) (m : mission) :
  Forall (fun e => is_mission_write e = false) evs -> replay evs m = m.
Proof.
  intros H. revert m. induction H as [| e evs He _ IH]; intros m.
  - reflexivity.
  - unfold replay in *. simpl. destruct e; try discriminate; apply IH.
Qed.

(** ** random_entry *)

Lemma random_entry_in (container : list tripoint) (d : tripoint) (w : world W) :
  In (fst (random_entry S container d w)) container
  \/ fst (random_entry S container d w) = d.
Proof.
  destruct container as [| a rest]; [right; reflexivity |].
  unfold random_entry, rng, bind, ret. rewrite call_after. cbn [fst].
  destruct (nth_in_or_default
              (Z.to_nat (rng_value S (ext w) 0
                           (Z.of_nat (List.length (a :: rest)) - 1)))
              (a :: rest) d); auto.
Qed.

Lemma random_entry_nil (d : tripoint) (w : world W) :
  random_entry S [] d w = (d, w).
Proof. reflexivity. Qed.

Lemma random_entry_emits (container : list tripoint) (d : tripoint)
    (w : world W) :
  exists evs, Forall (fun e => is_rng e = true) evs
              /\ snd (random_entry S container d w) = after S w evs.
Proof.
  destruct container as [| a rest].
  - exists []. rewrite after_nil. auto.
  - exists [ERng 0 (Z.of_nat (List.length (a :: rest)) - 1)].
    split; [repeat constructor |].
    unfold random_entry, rng, bind, ret. rewrite call_after. reflexivity.
Qed.

(** ** random_house_in_city *)

Lemma houses_in_square_spec (e : W) (startx endx starty endy z : Z)
    (p : tripoint) :
  In p (houses_in_square S e startx endx starty endy z) <->
  startx <= px p <= endx /\ starty <= py p <= endy /\ pz p = z
  /\ ob_check_ot_type S e "house" (px p) (py p) z = true.
Proof.
  unfold houses_in_square. rewrite in_flat_map. split.
  - intros [x [Hx Hin]]. apply in_flat_map in Hin. destruct Hin as [y [Hy Hin]].
    apply in_range in Hx. apply in_range in Hy.
    destruct (ob_check_ot_type S e "house" x y z) eqn:Hc; [| contradiction].
    destruct Hin as [<- | []]. simpl. auto.
  - intros (Hx & Hy & Hz & Hc). exists (px p). split; [apply in_range; exact Hx |].
    apply in_flat_map. exists (py p). split; [apply in_range; exact Hy |].
    rewrite Hc. left. destruct p. simpl in *. congruence.
Qed.

Lemma houses_in_square_none (e : W) (startx endx starty endy z : Z) :
  (forall x y, startx <= x <= endx -> starty <= y <= endy ->
               ob_check_ot_type S e "house" x y z = false) ->
  houses_in_square S e startx endx starty endy z = [].
Proof.
  intros Hnone.
  destruct (houses_in_square S e startx endx starty endy z) as [| p rest] eqn:E;
    [reflexivity |].
  assert (Hin : In p (houses_in_square S e startx endx starty endy z))
    by (rewrite E; left; reflexivity).
  apply houses_in_square_spec in Hin. destruct Hin as (Hx & Hy & _ & Hc).
  rewrite (Hnone _ _ Hx Hy) in Hc. discriminate.
Qed.

(** C6.  For a city of non-negative size, [random_house_in_city] returns a
    point on the z-level of the city's submap position whose x and y are
    within [size] of the city centre (the city's position converted to
    overmap terrain coordinates); it is the city centre itself when no tile
    of that square is a "house", and otherwise the centre or a "house" tile
    of the square. *)
Theorem random_house_in_city_within_city (c : city) (pos : tripoint)
    (w : world W) :
  0 <= city_size c ->
  sm_to_omt_keeps_z S ->
  let center := sm_to_omt_copy S pos in
  let house := fst (random_house_in_city S c pos w) in
  pz house = pz pos
  /\ px center - city_size c <= px house <= px center + city_size c
  /\ py center - city_size c <= py house <= py center + city_size c
  /\ ((forall x y,
          px center - city_size c <= x <= px center + city_size c ->
          py center - city_size c <= y <= py center + city_size c ->
          ob_check_ot_type S (ext w) "house" x y (pz pos) = false) ->
      house = center)
  /\ (house = center
      \/ ob_check_ot_type S (ext w) "house" (px house) (py house) (pz pos) = true).
Proof.
  intros Hsize Hz center house.
  assert (Hcz : pz center = pz pos) by apply Hz.
  unfold random_house_in_city, bind, ask in house. simpl in house.
  fold center in house.
  set (valid := houses_in_square S (ext w) (px center - city_size c)
                  (px center + city_size c) (py center - city_size c)
                  (py center + city_size c) (pz pos)) in *.
  assert (Hcases : In house valid \/ house = center)
    by apply random_entry_in.
  assert (Hnone : (forall x y,
          px center - city_size c <= x <= px center + city_size c ->
          py center - city_size c <= y <= py center + city_size c ->
          ob_check_ot_type S (ext w) "house" x y (pz pos) = false) ->
      house = center).
  { intros Hno. subst house valid.
    rewrite (houses_in_square_none _ _ _ _ _ _ Hno). reflexivity. }
  destruct Hcases as [Hin | Heq].
  - apply houses_in_square_spec in Hin. destruct Hin as (Hx & Hy & Hpz & Hc).
    repeat split; try lia; auto.
  - rewrite Heq. repeat split; try lia; auto.
Qed.

(** ** random_house_in_closest_city *)

(** C7.  When [closest_city] finds no city near the player's submap
    location, [random_house_in_closest_city] logs the debug message "could
    not find closest city", does nothing else, and returns the player's
    global overmap terrain location. *)
Theorem random_house_in_closest_city_no_city (w : world W) :
  cref_city (ob_closest_city S (ext w) (u_global_sm_location S (ext w))) = None ->
  let w' := after S w [EDebugmsg "could not find closest city" []] in
  random_house_in_closest_city S w = (u_global_omt_location S (ext w'), w').
Proof.
  intros Hnone w'. unfold random_house_in_closest_city, bind, ask. simpl.
  rewrite Hnone. reflexivity.
Qed.

(** ** target_closest_lab_entrance *)

Lemma target_closest_lab_entrance_run (origin : tripoint) (reveal_rad : Z)
    (w : world W) :
  let surface := ob_find_closest S (ext w) (surface_query origin) in
  let w1 := after S w [EFindClosest (surface_query origin)] in
  let underground :=
    with_z (ob_find_closest S (ext w1) (underground_query origin)) 0 in
  let closest :=
    if square_dist S (px surface) (py surface) (px origin) (py origin)
       <=? square_dist S (px underground) (py underground) (px origin)
             (py origin)
    then surface else underground in
  target_closest_lab_entrance S origin reveal_rad w
  = (closest,
     after S w
       ([EFindClosest (surface_query origin);
         EFindClosest (underground_query origin)]
        ++ (if negb (is_invalid S closest) && (0 <=? reveal_rad)
            then [EReveal closest reveal_rad] else [])
        ++ [EMission (WTarget closest)])).
Proof.
  intros surface w1 underground closest.
  unfold target_closest_lab_entrance, bind. cbv beta.
  rewrite find_closest_after. cbv beta iota.
  rewrite find_closest_after. cbv beta iota.
  fold surface. fold w1. fold underground. fold closest.
  destruct (negb (is_invalid S closest) && (0 <=? reveal_rad)).
  - rewrite reveal_after, write_mission_after, ret_run.
    unfold w1. rewrite !after_app. reflexivity.
  - rewrite ret_run, write_mission_after, ret_run.
    unfold w1. rewrite !after_app. reflexivity.
Qed.

(** C8.  [target_closest_lab_entrance] searches "lab_stairs" from the
    origin moved to z = 0 and then "hidden_lab_stairs" from the origin moved
    to z = -1, both with radius 0, not restricted to seen terrain and with
    subtype matches, and moves the second result to z = 0.  It returns the
    surface result when its square distance to the origin is at most that
    of the other one, and the other one otherwise.  The returned point
    always becomes the mission's target, as the last step, and the only call
    in between is a reveal around it, made exactly when the point is not the
    invalid point and the radius is not negative. *)
Theorem target_closest_lab_entrance_closest (origin : tripoint)
    (reveal_rad : Z) (w : world W) :
  let surface_stairs :=
    FindQuery (Tripoint (px origin) (py origin) 0) "lab_stairs" 0 false true
              false None in
  let hidden_stairs :=
    FindQuery (Tripoint (px origin) (py origin) (-1)) "hidden_lab_stairs" 0
              false true false None in
  let surface := ob_find_closest S (ext w) surface_stairs in
  let w1 := after S w [EFindClosest surface_stairs] in
  let hidden := ob_find_closest S (ext w1) hidden_stairs in
  let underground := Tripoint (px hidden) (py hidden) 0 in
  let dist := fun p : tripoint =>
    square_dist S (px p) (py p) (px origin) (py origin) in
  let closest := fst (target_closest_lab_entrance S origin reveal_rad w) in
  let w' := snd (target_closest_lab_entrance S origin reveal_rad w) in
  (dist surface <= dist underground -> closest = surface)
  /\ (dist underground < dist surface -> closest = underground)
  /\ target (miss w') = closest
  /\ w' = after S w
            ([EFindClosest surface_stairs; EFindClosest hidden_stairs]
             ++ (if negb (tripoint_eqb closest (invalid_tripoint S))
                    && (0 <=? reveal_rad)
                 then [EReveal closest reveal_rad] else [])
             ++ [EMission (WTarget closest)]).
Proof.
  intros surface_stairs hidden_stairs surface w1 hidden underground dist
         closest w'.
  pose proof (target_closest_lab_entrance_run origin reveal_rad w) as Hrun.
  cbv zeta in Hrun.
  unfold surface_query, underground_query, with_z, is_invalid in Hrun.
  fold surface_stairs hidden_stairs in Hrun.
  fold surface w1 in Hrun. fold hidden in Hrun. fold underground in Hrun.
  assert (Hc : closest
               = if dist surface <=? dist underground
                 then surface else underground)
    by (unfold closest; rewrite Hrun; reflexivity).
  assert (Hw : w' = snd (target_closest_lab_entrance S origin reveal_rad w))
    by reflexivity.
  rewrite Hrun in Hw. cbn [snd] in Hw. unfold dist in Hc. rewrite <- Hc in Hw.
  fold (dist surface) (dist underground) in Hc.
  repeat split.
  - intros Hle. rewrite Hc. apply Z.leb_le in Hle. rewrite Hle. reflexivity.
  - intros Hlt. rewrite Hc. apply Z.leb_gt in Hlt. rewrite Hlt. reflexivity.
  - rewrite Hw. unfold after. cbn [miss]. unfold replay.
    rewrite !fold_left_app. reflexivity.
  - exact Hw.
Qed.

(** ** assign_mission_target *)

Ltac run_step :=
  first [ rewrite ret_run | rewrite ask_run | rewrite get_miss_run
        | rewrite find_closest_after | rewrite find_random_after
        | rewrite place_special_after | rewrite rng_after
        | rewrite reveal_after | rewrite debugmsg_after
        | rewrite write_mission_after | rewrite emit_after ];
  cbv beta iota.

Ltac run := cbv beta iota; repeat run_step; rewrite ?after_app; cbn [app].

(** The search phase only makes search and creation calls. *)
Lemma assign_mission_target_search_trace (params : mission_target_params)
    (w : world W) :
  exists evs,
    snd (assign_mission_target_search S params w) = after S w evs
    /\ Forall (fun e => is_target_search e = true) evs.
Proof.
  unfold assign_mission_target_search, bind.
  destruct (search_origin params) as [o |]; run;
  destruct (random params); run;
  match goal with |- context [is_invalid S ?p && _ && _] =>
    destruct (is_invalid S p) end; cbn [andb];
  try (destruct (create_if_necessary params); cbn [andb]);
  try (destruct (must_see params); cbn [andb negb]);
  run;
  try (eexists; split; [reflexivity | repeat constructor]; fail);
  (destruct (overmap_special params) as [special |]; run;
   [ match goal with |- context [ob_place_special S ?e ?a ?b ?c] =>
       destruct (ob_place_special S e a b c) end; run
   | destruct (replaceable_overmap_terrain_subtype params) as [repl |]; run;
     [ match goal with |- context [is_invalid S ?p] =>
         destruct (is_invalid S p) end; run;
       match goal with |- context [negb (is_invalid S ?p)] =>
         destruct (is_invalid S p) end; cbn [negb]; run
     | ] ]);
  (eexists; split; [reflexivity | repeat constructor]).
Qed.

(** When the player must have seen the target, the search phase is the
    first search and nothing else. *)
Lemma assign_mission_target_search_must_see (params : mission_target_params)
    (w : world W) :
  must_see params = true ->
  let q := first_search_query S params w in
  assign_mission_target_search S params w
  = if random params
    then (ob_find_random S (ext w) q, after S w [EFindRandom q])
    else (ob_find_closest S (ext w) q, after S w [EFindClosest q]).
Proof.
  intros Hsee q. subst q.
  unfold assign_mission_target_search, first_search_query, first_search_origin,
    bind.
  rewrite Hsee.
  destruct (search_origin params) as [o |]; run;
    destruct (random params); run;
    rewrite !andb_false_r; run; reflexivity.
Qed.

Lemma bind_run {A B : Type} (c : M A) (k : A -> M B) (w : world W) :
  bind c k w = k (fst (c w)) (snd (c w)).
Proof. unfold bind. destruct (c w). reflexivity. Qed.

Lemma target_after_write (w : world W) (evs : list event) (p : tripoint) :
  target (miss (after S w (evs ++ [EMission (WTarget p)]))) = p.
Proof.
  unfold after, replay. cbn [miss]. rewrite fold_left_app. reflexivity.
Qed.

(** C1.  When the search and creation steps of [assign_mission_target] end
    with a valid position, the routine then reveals the overmap around that
    position exactly when [reveal_radius] is set (with that radius), makes
    the position the target of the mission, and returns it.  It makes no
    other call after the search, and the calls of the search are searches
    and creation calls only, so this reveal is the only one. *)
Theorem assign_mission_target_found (params : mission_target_params)
    (w : world W) :
  let pos := fst (assign_mission_target_search S params w) in
  let w1 := snd (assign_mission_target_search S params w) in
  is_invalid S pos = false ->
  assign_mission_target S params w
  = (Some pos,
     after S w1
       (match reveal_radius params with
        | Some r => [EReveal pos r]
        | None => []
        end ++ [EMission (WTarget pos)]))
  /\ target (miss (snd (assign_mission_target S params w))) = pos
  /\ exists evs,
       w1 = after S w evs /\ Forall (fun e => is_target_search e = true) evs.
Proof.
  intros pos w1 Hvalid.
  assert (Hrun : assign_mission_target S params w
    = (Some pos,
       after S w1
         (match reveal_radius params with
          | Some r => [EReveal pos r]
          | None => []
          end ++ [EMission (WTarget pos)]))).
  { unfold assign_mission_target. rewrite bind_run. fold pos w1.
    rewrite Hvalid. unfold bind.
    destruct (reveal_radius params) as [r |]; run; reflexivity. }
  split; [exact Hrun |]. split.
  - rewrite Hrun. cbn [snd]. apply target_after_write.
  - apply assign_mission_target_search_trace.
Qed.

(** C2.  When the search and creation steps of [assign_mission_target] end
    with the invalid position, the routine logs the debug message "Unable
    to find and assign mission target" and returns the empty optional; the
    calls before the message are search and creation calls only, so there
    is no reveal and no write to the mission object, which is the same
    object as before. *)
Theorem assign_mission_target_not_found (params : mission_target_params)
    (w : world W) :
  is_invalid S (fst (assign_mission_target_search S params w)) = true ->
  exists evs,
    assign_mission_target S params w
    = (None,
       after S w
         (evs ++ [EDebugmsg "Unable to find and assign mission target %s."
                    [ArgStr (overmap_terrain_subtype params)]]))
    /\ Forall (fun e => is_reveal e = false /\ is_mission_write e = false) evs
    /\ miss (snd (assign_mission_target S params w)) = miss w.
Proof.
  intros Hinvalid.
  destruct (assign_mission_target_search_trace params w)
    as (evs & Hw1 & Hsearch).
  exists evs.
  assert (Hquiet :
    Forall (fun e => is_reveal e = false /\ is_mission_write e = false) evs).
  { eapply Forall_impl; [| exact Hsearch].
    intros e He. destruct e; try discriminate; split; reflexivity. }
  assert (Hrun : assign_mission_target S params w
    = (None,
       after S w
         (evs ++ [EDebugmsg "Unable to find and assign mission target %s."
                    [ArgStr (overmap_terrain_subtype params)]]))).
  { unfold assign_mission_target. rewrite bind_run, Hinvalid, Hw1.
    unfold bind. run. reflexivity. }
  split; [exact Hrun |]. split; [exact Hquiet |].
  rewrite Hrun. cbn [snd]. unfold after. cbn [miss].
  apply replay_no_write. apply Forall_app. split.
  - eapply Forall_impl; [| exact Hquiet]. intros e [_ He]. exact He.
  - repeat constructor.
Qed.

(** C9.  With [must_see] set, [assign_mission_target] makes one search,
    restricted to the existing overmaps, and after it no search and no
    creation call at all: it never places a special, never assigns a
    terrain id and never searches with the creation of overmaps allowed,
    whether or not a target is found.  (What follows the search is the
    debug message, or the reveal and the write of the target.) *)
Theorem assign_mission_target_must_see_creates_nothing
    (params : mission_target_params) (w : world W) :
  must_see params = true ->
  exists q rest,
    let first := if random params then EFindRandom q else EFindClosest q in
    snd (assign_mission_target S params w) = after S w (first :: rest)
    /\ fq_existing_overmaps_only q = true
    /\ Forall (fun e => is_target_search e = false) rest
    /\ Forall (fun e => creates_terrain e = false) (first :: rest).
Proof.
  intros Hsee. exists (first_search_query S params w).
  unfold assign_mission_target. rewrite bind_run.
  rewrite (assign_mission_target_search_must_see params w Hsee).
  destruct (random params); cbn [fst snd];
    match goal with |- context [is_invalid S ?p] =>
      destruct (is_invalid S p) end;
    unfold bind;
    try (destruct (reveal_radius params) as [r |]);
    run; eexists; cbv zeta;
    (split; [reflexivity |]); (split; [reflexivity |]);
    split; repeat constructor.
Qed.

(** ** mission_util::set_assign_om_target *)

(** C10.  [set_assign_om_target] fails without an "om_terrain" string
    and otherwise appends a closure over the parameters [p] read from the
    JSON object.  In [p] an integer "reveal_radius" or "search_range"
    below 1 has become 1 and any other integer is kept; without an integer
    "search_range" (in particular when the member is absent) the range is
    [OMAPX], and without an integer "reveal_radius" no reveal radius is
    set. *)
Theorem set_assign_om_target_clamps (jo : JsonObject)
    (funcs : list (M (W := W) unit)) :
  let p := fst (assign_om_target_params S jo) in
  let z := snd (assign_om_target_params S jo) in
  mission_util_set_assign_om_target S jo funcs
  = (if has_string jo "om_terrain"
     then inr (funcs ++ [assign_om_target_func S p z])
     else inl "'om_terrain' is required for assign_mission_target")
  /\ reveal_radius p
     = match json_member jo "reveal_radius" with
       | Some (JInt v) => Some (if v <? 1 then 1 else v)
       | _ => None
       end
  /\ search_range p
     = match json_member jo "search_range" with
       | Some (JInt v) => if v <? 1 then 1 else v
       | _ => OMAPX S
       end.
Proof.
  intros p z. subst p z. split; [| split].
  - unfold mission_util_set_assign_om_target.
    destruct (assign_om_target_params S jo).
    destruct (has_string jo "om_terrain"); reflexivity.
  - unfold assign_om_target_params. cbn [fst reveal_radius].
    unfold has_int, get_int.
    destruct (json_member jo "reveal_radius") as [[s0 | v | b |] |];
      try reflexivity.
    f_equal. destruct (Z.ltb_spec v 1); lia.
  - unfold assign_om_target_params. cbn [fst search_range].
    unfold has_int, get_int.
    destruct (json_member jo "search_range") as [[s0 | v | b |] |];
      try reflexivity.
    destruct (Z.ltb_spec v 1); lia.
Qed.

(** ** The routines that need the mission's NPC *)

Lemma only_debugmsg_frame (routine : M unit) (w : world W) :
  only_debugmsg S routine w ->
  miss (snd (routine w)) = miss w
  /\ exists fmt args, log (snd (routine w)) = log w ++ [EDebugmsg fmt args].
Proof.
  intros (fmt & args & Hrun). rewrite Hrun. split; [reflexivity |].
  exists fmt, args. reflexivity.
Qed.

(** What [random_house_in_closest_city] leaves behind: at most one call,
    a debug message or a random draw. *)
Lemma random_house_in_closest_city_trace (w : world W) :
  exists evs,
    snd (random_house_in_closest_city S w) = after S w evs
    /\ Forall (fun e => is_debugmsg e || is_rng e = true) evs
    /\ (List.length evs <= 1)%nat.
Proof.
  unfold random_house_in_closest_city, bind. run.
  destruct (cref_city _) as [c |].
  - unfold random_house_in_city, bind. run.
    match goal with |- context [random_entry S ?l ?d ?w0] =>
      destruct (random_entry_emits l d w0) as (evs & Hrng & Hrun);
      destruct l as [| a rest] end.
    + exists []. rewrite random_entry_nil, after_nil. cbn. auto.
    + eexists [_]. unfold random_entry, bind. run.
      split; [reflexivity |]. split; [repeat constructor | cbn; lia].
  - run. eexists [_]. split; [reflexivity |].
    split; [repeat constructor | cbn; lia].
Qed.

(** C3 (amended).  When [g->find_npc] does not find the mission's NPC,
    [join], [infect_npc], [need_drugs_npc], [kill_horde_master],
    [place_deposit_box], [recruit_tracker] and [place_npc_software] return
    right after one debug message.  [place_dog] looks for a house first
    (at most one call: a debug message or a random draw) and then, when the
    NPC is not found, returns after the debug message "Couldn't find NPC!".
    None of the eight changes the mission object or calls the map. *)
Theorem npc_missing_returns_after_debugmsg (w : world W) :
  (find_npc S (ext w) (npc_id (miss w)) = None ->
   only_debugmsg S (mission_start_join S) w
   /\ only_debugmsg S (mission_start_infect_npc S) w
   /\ only_debugmsg S (mission_start_need_drugs_npc S) w
   /\ only_debugmsg S (mission_start_kill_horde_master S) w
   /\ only_debugmsg S (mission_start_place_deposit_box S) w
   /\ only_debugmsg S (mission_start_recruit_tracker S) w
   /\ only_debugmsg S (mission_start_place_npc_software S) w)
  /\ (let w1 := snd (random_house_in_closest_city S w) in
      find_npc S (ext w1) (npc_id (miss w)) = None ->
      mission_start_place_dog S w
      = (tt, after S w1 [EDebugmsg "Couldn't find NPC! %d"
                           [ArgInt (npc_id (miss w))]])
      /\ miss (snd (mission_start_place_dog S w)) = miss w
      /\ exists evs,
           w1 = after S w evs
           /\ Forall (fun e => is_debugmsg e || is_rng e = true) evs
           /\ (List.length evs <= 1)%nat).
Proof.
  split.
  - intros Hnone.
    repeat split; eexists; eexists;
      unfold mission_start_join, mission_start_infect_npc,
        mission_start_need_drugs_npc, mission_start_kill_horde_master,
        mission_start_place_deposit_box, mission_start_recruit_tracker,
        mission_start_place_npc_software, bind;
      run; rewrite Hnone; run; reflexivity.
  - intros w1 Hnone.
    destruct (random_house_in_closest_city_trace w) as (evs & Hw1 & Hevs & Hlen).
    fold w1 in Hw1.
    assert (Hmiss : miss w1 = miss w).
    { rewrite Hw1. unfold after. cbn [miss]. apply replay_no_write.
      eapply Forall_impl; [| exact Hevs].
      intros e He. destruct e; try discriminate; reflexivity. }
    assert (Hrun : mission_start_place_dog S w
      = (tt, after S w1 [EDebugmsg "Couldn't find NPC! %d"
                           [ArgInt (npc_id (miss w))]])).
    { unfold mission_start_place_dog. rewrite bind_run. fold w1.
      unfold bind. run. rewrite Hmiss, Hnone. run. reflexivity. }
    split; [exact Hrun |]. split.
    + rewrite Hrun. cbn [snd]. unfold after. cbn. exact Hmiss.
    + exists evs. auto.
Qed.

(** ** find_safety *)

Lemma until_return_outcome {A : Type} (good : tripoint -> Prop) (l : list A)
    (body : A -> M bool) :
  (forall a, In a l -> search_outcome S good (body a)) ->
  search_outcome S good (until_return l body).
Proof.
  induction l as [| a rest IH]; intros Hbody w.
  - exists []. split; [constructor |]. left. rewrite after_nil. auto.
  - cbn [until_return]. rewrite bind_run.
    destruct (Hbody a (or_introl eq_refl) w)
      as (rngs1 & Hrngs1 & [[Hfalse Hw1] | (check & Hgood & Htrue & Hw1)]).
    + rewrite Hfalse, Hw1.
      destruct (IH (fun b Hb => Hbody b (or_intror Hb)) (after S w rngs1))
        as (rngs2 & Hrngs2 & [[Hfalse2 Hw2] | (check & Hgood & Htrue & Hw2)]).
      * exists (rngs1 ++ rngs2). split; [apply Forall_app; auto |]. left.
        rewrite Hfalse2, Hw2, after_app. auto.
      * exists (rngs1 ++ rngs2). split; [apply Forall_app; auto |]. right.
        exists check. rewrite Htrue, Hw2, after_app, app_assoc. auto.
    + rewrite Htrue, Hw1. exists rngs1. split; [exact Hrngs1 |]. right.
      exists check. auto.
Qed.

Lemma rng_then_outcome (good : tripoint -> Prop) (lo hi : Z)
    (k : Z -> M bool) :
  (forall v, search_outcome S good (k v)) ->
  search_outcome S good (bind (rng S lo hi) k).
Proof.
  intros Hk w. rewrite bind_run, rng_after. cbn [fst snd].
  destruct (Hk (rng_value S (ext w) lo hi) (after S w [ERng lo hi]))
    as (rngs & Hrngs & [[Hfalse Hw1] | (check & Hgood & Htrue & Hw1)]).
  - exists (ERng lo hi :: rngs). split; [constructor; auto |]. left.
    rewrite Hfalse, Hw1, after_app. auto.
  - exists (ERng lo hi :: rngs). split; [constructor; auto |]. right.
    exists check. rewrite Htrue, Hw1, after_app. auto.
Qed.

Lemma safety_check_within (place : tripoint) (radius dist dir : Z) :
  0 <= radius <= 20 -> - radius <= dist <= radius ->
  within 20 place (safety_check place radius dist dir).
Proof.
  intros Hr Hd. unfold within, chebyshev, safety_check.
  destruct dir as [| [[| |] | [| |] |] |]; cbn [px py pz]; split;
    try reflexivity; lia.
Qed.

Lemma find_safety_search_outcome (place : tripoint) :
  search_outcome S (within 20 place) (find_safety_search S place).
Proof.
  unfold find_safety_search.
  apply until_return_outcome. intros radius Hradius. apply in_range in Hradius.
  apply until_return_outcome. intros dist Hdist. apply in_range in Hdist.
  apply rng_then_outcome. intros offset.
  apply until_return_outcome. intros i _ w.
  exists []. split; [constructor |].
  rewrite bind_run, ask_run. cbn [fst snd].
  destruct (ob_is_safe S (ext w) _) eqn:Hsafe.
  - right. exists (safety_check place radius dist (Z.rem (offset + i) 4)).
    split; [apply safety_check_within; lia |].
    rewrite bind_run, write_mission_after. split; reflexivity.
  - left. rewrite after_nil. auto.
Qed.

(** When no tile within 20 of the player is safe, whatever else happens,
    the search of [find_safety] finds nothing. *)
Lemma find_safety_search_none (place : tripoint) (w : world W) :
  (forall e p, within 20 place p -> ob_is_safe S e p = false) ->
  fst (find_safety_search S place w) = false.
Proof.
  intros Hunsafe. revert w. unfold find_safety_search.
  assert (Hloop : forall (A : Type) (l : list A) (body : A -> @M W bool),
             (forall a w, In a l -> fst (body a w) = false) ->
             forall w, fst (until_return l body w) = false).
  { intros A l body. induction l as [| a rest IH]; intros Hbody w.
    - reflexivity.
    - cbn [until_return]. rewrite bind_run.
      rewrite (Hbody a w (or_introl eq_refl)).
      apply IH. intros b w0 Hb. apply Hbody. right. exact Hb. }
  intros w. apply Hloop. intros radius w0 Hradius. apply in_range in Hradius.
  apply Hloop. intros dist w1 Hdist. apply in_range in Hdist.
  rewrite bind_run. apply Hloop. intros i w2 _.
  rewrite bind_run, ask_run. cbn [fst snd].
  rewrite Hunsafe; [reflexivity | apply safety_check_within; lia].
Qed.

(** C4.  With [rng( 0, 3 )] inside its bounds, [find_safety] makes exactly
    one write to the mission object, a write of its target and its last
    call (the other calls are random draws).  The target is on the
    z-level of the player's global overmap terrain location and at
    Chebyshev distance at most 20 from it; when the search of the rings of
    radius 0 to 20 finds no safe tile, it is the player's location moved by
    20 or -20 on the x axis and by 20 or -20 on the y axis. *)
Theorem find_safety_sets_target (w : world W) :
  rng_in_range S ->
  let place := u_global_omt_location S (ext w) in
  let w' := snd (mission_start_find_safety S w) in
  (exists rngs,
      Forall (fun e => is_rng e = true) rngs
      /\ w' = after S w (rngs ++ [EMission (WTarget (target (miss w')))]))
  /\ pz (target (miss w')) = pz place
  /\ chebyshev (target (miss w')) place <= 20
  /\ (fst (find_safety_search S place w) = false ->
      exists dx dy,
        (dx = 20 \/ dx = -20) /\ (dy = 20 \/ dy = -20)
        /\ target (miss w')
           = Tripoint (px place + dx) (py place + dy) (pz place)).
Proof.
  intros Hrng place w'.
  assert (Hw' : w' = snd (mission_start_find_safety S w)) by reflexivity.
  clearbody w'.
  unfold mission_start_find_safety in Hw'.
  rewrite bind_run, ask_run in Hw'. cbn [fst snd] in Hw'. fold place in Hw'.
  rewrite bind_run in Hw'.
  destruct (find_safety_search_outcome place w)
    as (rngs & Hrngs & [[Hfalse Hw1] | (check & [Hz Hd] & Htrue & Hw1)]).
  - rewrite Hfalse, Hw1 in Hw'. rewrite bind_run, rng_after in Hw'.
    cbn [fst snd] in Hw'.
    set (r := rng_value S (ext (after S w rngs)) 0 3) in *.
    assert (Hr : r = 0 \/ r = 1 \/ r = 2 \/ r = 3)
      by (pose proof (Hrng (ext (after S w rngs)) 0 3 ltac:(lia)); lia).
    assert (Hcorner : exists dx dy,
      (dx = 20 \/ dx = -20) /\ (dy = 20 \/ dy = -20)
      /\ w' = after S w (rngs ++ [ERng 0 3]
                          ++ [EMission (WTarget (Tripoint (px place + dx)
                                                   (py place + dy) (pz place)))])).
    { destruct Hr as [Hr | [Hr | [Hr | Hr]]]; rewrite Hr in Hw';
        rewrite write_mission_after in Hw'; cbn [snd] in Hw';
        rewrite !after_app in Hw'.
      - exists (-20), (-20). repeat split; auto.
      - exists (-20), 20. repeat split; auto.
      - exists 20, (-20). repeat split; auto.
      - exists 20, 20. repeat split; auto. }
    destruct Hcorner as (dx & dy & Hdx & Hdy & Hrun).
    assert (Htarget : target (miss w')
                      = Tripoint (px place + dx) (py place + dy) (pz place)).
    { rewrite Hrun, app_assoc. apply target_after_write. }
    rewrite Htarget. repeat split.
    + exists (rngs ++ [ERng 0 3]). split.
      * apply Forall_app. split; [exact Hrngs | repeat constructor].
      * rewrite <- app_assoc. exact Hrun.
    + unfold chebyshev. cbn [px py]. lia.
    + intros _. exists dx, dy. auto.
  - rewrite Htrue, Hw1 in Hw'. rewrite ret_run in Hw'. cbn [snd] in Hw'.
    assert (Htarget : target (miss w') = check)
      by (rewrite Hw'; apply target_after_write).
    rewrite Htarget. repeat split; auto.
    + exists rngs. auto.
    + intros Hfalse. congruence.
Qed.

(** ** kill_horde_master *)

Lemma for_each_trace {A : Type} (P : event -> Prop) (l : list A)
    (body : A -> M unit) :
  (forall a w, exists evs, snd (body a w) = after S w evs /\ Forall P evs) ->
  forall w, exists evs, snd (for_each l body w) = after S w evs /\ Forall P evs.
Proof.
  intros Hbody. induction l as [| a rest IH]; intros w.
  - exists []. rewrite after_nil. split; [reflexivity | constructor].
  - cbn [for_each]. rewrite bind_run.
    destruct (Hbody a w) as (evs1 & Hw1 & Hevs1). rewrite Hw1.
    destruct (IH (after S w evs1)) as (evs2 & Hw2 & Hevs2).
    exists (evs1 ++ evs2). rewrite Hw2, after_app.
    split; [reflexivity | apply Forall_app; auto].
Qed.

(** The searches of [first_valid_site]: one for each type, in order, up to
    the first valid result. *)
Lemma first_valid_site_trace (center : tripoint) (types : list string)
    (w : world W) :
  exists n,
    (n <= List.length types)%nat
    /\ (types <> [] -> (1 <= n)%nat)
    /\ snd (first_valid_site S center types w)
       = after S w (map (fun type => EFindClosest (haunt_query center type))
                        (firstn n types)).
Proof.
  revert w. induction types as [| type rest IH]; intros w.
  - exists 0%nat. cbn. rewrite after_nil. repeat split; auto. congruence.
  - cbn [first_valid_site]. rewrite bind_run, find_closest_after.
    cbn [fst snd].
    destruct (is_invalid S _).
    + destruct (IH (after S w [EFindClosest (haunt_query center type)]))
        as (n & Hn & _ & Hrun).
      exists (Datatypes.S n). rewrite Hrun, after_app. cbn.
      repeat split; auto; lia.
    + exists 1%nat. cbn. repeat split; auto; lia.
Qed.

(** The four searches of [kill_horde_master] are [first_valid_site] on the
    four types. *)
Lemma haunt_chain {B : Type} (center : tripoint) (k : tripoint -> M B)
    (w : world W) :
  bind (find_closest S (haunt_query center "office_tower_1")) (fun site =>
    bind (if is_invalid S site
          then find_closest S (haunt_query center "hotel_tower_1_8")
          else ret site) (fun site =>
      bind (if is_invalid S site
            then find_closest S (haunt_query center "school_5")
            else ret site) (fun site =>
        bind (if is_invalid S site
              then find_closest S (haunt_query center "forest_thick")
              else ret site) k))) w
  = bind (first_valid_site S center haunt_types) k w.
Proof.
  unfold haunt_types. cbn [first_valid_site]. unfold bind. run.
  destruct (is_invalid S (ob_find_closest S (ext w) _)) eqn:H1; run;
    [| repeat (rewrite H1; run); reflexivity].
  match goal with |- context [is_invalid S ?p] =>
    destruct (is_invalid S p) eqn:H2 end; run;
    [| repeat (rewrite H2; run); reflexivity].
  match goal with |- context [is_invalid S ?p] =>
    destruct (is_invalid S p) eqn:H3 end; run;
    [| repeat (rewrite H3; run); reflexivity].
  match goal with |- context [is_invalid S ?p] =>
    destruct (is_invalid S p) eqn:H4 end; run; [| reflexivity].
  apply tripoint_eqb_eq in H4. rewrite H4. reflexivity.
Qed.

Lemma add_spawn_after (mon : string) (count x y : Z) (w : world W) :
  add_spawn S mon count x y w
  = (tt, after S w [EMap (MapAddSpawn mon count x y false (-1) (-1) "NONE")]).
Proof. reflexivity. Qed.

(** The loops of [kill_horde_master] only draw random numbers and add
    spawns. *)
Lemma horde_loops_trace (w : world W) :
  exists evs,
    snd ((if inbounds S (Tripoint (SEEX S) (SEEY S) 0) 1
          then
            for_each (range (SEEX S - 1) (SEEX S + 1)) (fun x =>
              bind (for_each (range (SEEY S - 1) (SEEY S + 1)) (fun y =>
                      bind (rng S 3 10) (fun n =>
                        add_spawn S "mon_zombie" n x y)))
                   (fun _ =>
                      bind (rng S 0 2) (fun n =>
                        add_spawn S "mon_zombie_dog" n (SEEX S) (SEEY S))))
          else ret tt) w)
    = after S w evs
    /\ Forall (fun e => is_add_spawn e || is_rng e = true) evs.
Proof.
  destruct (inbounds S _ _).
  - apply for_each_trace. intros x w0. rewrite bind_run.
    destruct (for_each_trace (fun e => is_add_spawn e || is_rng e = true)
                (range (SEEY S - 1) (SEEY S + 1))
                (fun y => bind (rng S 3 10) (fun n =>
                            add_spawn S "mon_zombie" n x y))) with (w := w0)
      as (evs & Hrun & Hevs).
    + intros y w1. unfold bind. run. rewrite add_spawn_after. cbn [snd].
      rewrite after_app. eexists. split; [reflexivity |].
      repeat constructor.
    + rewrite Hrun. unfold bind. run. rewrite add_spawn_after. cbn [snd].
      rewrite !after_app. eexists. split; [reflexivity |].
      rewrite !Forall_app. repeat split; auto; repeat constructor.
  - exists []. rewrite ret_run, after_nil. split; [reflexivity | constructor].
Qed.

Lemma target_after_write_first (w : world W) (p : tripoint)
    (evs : list event) :
  Forall (fun e => is_mission_write e = false) evs ->
  target (miss (after S w (EMission (WTarget p) :: evs))) = p.
Proof.
  intros Hevs. unfold after, replay. cbn [miss fold_left apply_event].
  fold (replay evs (apply_write (WTarget p) (miss w))).
  rewrite (replay_no_write _ _ Hevs). reflexivity.
Qed.

(** The searches of [first_valid_site], one by one: [n] searches are made;
    the results of all but the last are invalid, the last result is the
    site, and it is valid when a type is left over. *)
Lemma first_valid_site_first (center : tripoint) (types : list string)
    (w : world W) :
  types <> [] ->
  let search := fun type => EFindClosest (haunt_query center type) in
  let result := fun k =>
    ob_find_closest S (ext (after S w (map search (firstn k types))))
      (haunt_query center (nth k types "")) in
  exists n,
    (1 <= n <= List.length types)%nat
    /\ (forall k, (k < n - 1)%nat -> is_invalid S (result k) = true)
    /\ fst (first_valid_site S center types w) = result (n - 1)%nat
    /\ ((n < List.length types)%nat ->
        is_invalid S (fst (first_valid_site S center types w)) = false)
    /\ snd (first_valid_site S center types w)
       = after S w (map search (firstn n types)).
Proof.
  revert w. induction types as [| type rest IH]; intros w Hne;
    [congruence |].
  cbv zeta. cbn [first_valid_site]. rewrite bind_run, find_closest_after.
  cbn [fst snd].
  destruct (is_invalid S (ob_find_closest S (ext w) (haunt_query center type)))
    eqn:Hthis.
  - destruct rest as [| type2 rest2].
    + exists 1%nat. cbn [first_valid_site List.length]. rewrite ret_run.
      cbn [fst snd Nat.sub firstn map nth]. rewrite after_nil.
      split; [lia |]. split; [intros k Hk; lia |].
      split; [symmetry; apply tripoint_eqb_eq; exact Hthis |].
      split; [intros Hn; lia | reflexivity].
    + destruct (IH (after S w [EFindClosest (haunt_query center type)])
                  ltac:(discriminate))
        as (n & Hn & Hbefore & Hsite & Hvalid & Hrun).
      cbv zeta in Hbefore, Hsite.
      exists (Datatypes.S n).
      assert (Hshift : forall k,
                 after S (after S w [EFindClosest (haunt_query center type)])
                   (map (fun t => EFindClosest (haunt_query center t))
                        (firstn k (type2 :: rest2)))
                 = after S w
                     (map (fun t => EFindClosest (haunt_query center t))
                          (firstn (Datatypes.S k) (type :: type2 :: rest2)))).
      { intros k. rewrite after_app. reflexivity. }
      split; [cbn [List.length] in *; lia |].
      split.
      { intros k Hk. destruct k as [| k].
        - cbn [firstn map nth]. rewrite after_nil. exact Hthis.
        - rewrite <- Hshift. cbn [nth]. apply Hbefore. lia. }
      split.
      { rewrite Hsite. rewrite Hshift.
        replace (Datatypes.S n - 1)%nat with (Datatypes.S (n - 1)) by lia.
        reflexivity. }
      split; [intros Hlt; apply Hvalid; cbn [List.length] in *; lia |].
      rewrite Hrun. apply Hshift.
  - exists 1%nat. rewrite ret_run.
    cbn [fst snd Nat.sub firstn map nth List.length]. rewrite after_nil.
    split; [lia |]. split; [intros k Hk; lia |].
    split; [reflexivity |].
    split; [intros _; exact Hthis | reflexivity].
Qed.

(** C5 (amended).  When the mission's NPC is not found, [kill_horde_master]
    returns after the debug message, without a search.  When it is found,
    the routine makes the NPC follow and then picks the haunt with
    [find_closest] searches from the NPC's location for "office_tower_1",
    "hotel_tower_1_8", "school_5" and "forest_thick", in this order and up
    to the first valid result: every search before the last one made gave
    the invalid point, the site is the result of the last one, and it is
    valid unless all four were made.  It then makes that site the mission's
    target, reveals the overmap around it with radius 6, and only then loads
    the map (at the [int] products of the site's x and y with 2) and adds
    the spawns of the horde, before it saves the map. *)
Theorem kill_horde_master_haunt (w : world W) :
  (find_npc S (ext w) (npc_id (miss w)) = None ->
   snd (mission_start_kill_horde_master S w)
   = after S w
       [EDebugmsg "could not find mission NPC %d" [ArgInt (npc_id (miss w))]])
  /\ forall p : npc,
       find_npc S (ext w) (npc_id (miss w)) = Some p ->
       let center := npc_global_omt_location p in
       let types :=
         ["office_tower_1"; "hotel_tower_1_8"; "school_5"; "forest_thick"] in
       let query := fun type =>
         FindQuery center type 0 false false false None in
       let search := fun type => EFindClosest (query type) in
       let w0 :=
         after S w [ENpc (npc_getID p) (NpcSetAttitude NPCATT_FOLLOW)] in
       let result := fun k =>
         ob_find_closest S (ext (after S w0 (map search (firstn k types))))
           (query (nth k types "")) in
       let w' := snd (mission_start_kill_horde_master S w) in
       exists n site horde,
         (1 <= n <= 4)%nat
         /\ (forall k, (k < n - 1)%nat -> is_invalid S (result k) = true)
         /\ site = result (n - 1)%nat
         /\ ((n < 4)%nat -> is_invalid S site = false)
         /\ site = fst (first_valid_site S center haunt_types w0)
         /\ w' = after S w0
                   (map search (firstn n types)
                    ++ [EMission (WTarget site); EReveal site 6;
                        EMap (MapLoad (wrap_int (px site * 2))
                                (wrap_int (py site * 2)) (pz site) false)]
                    ++ EMap (MapAddSpawn "mon_zombie_master" 1 (SEEX S)
                               (SEEY S) false (-1) (uid (miss w))
                               "Demonic Soul")
                    :: horde ++ [EMap MapSave])
         /\ Forall (fun e => is_add_spawn e || is_rng e = true) horde
         /\ target (miss w') = site.
Proof.
  split.
  { intros Hnone. unfold mission_start_kill_horde_master, bind. run.
    rewrite Hnone. run. reflexivity. }
  intros p Hfound center types query search w0 result w'.
  set (site := fst (first_valid_site S center haunt_types w0)).
  set (w1 := snd (first_valid_site S center haunt_types w0)).
  assert (Hw' : w' = snd (mission_start_kill_horde_master S w)) by reflexivity.
  clearbody w'.
  unfold mission_start_kill_horde_master in Hw'.
  rewrite bind_run, get_miss_run in Hw'. cbn [fst snd] in Hw'.
  rewrite bind_run, ask_run in Hw'. cbn [fst snd] in Hw'.
  rewrite Hfound in Hw'.
  rewrite bind_run, emit_after in Hw'. cbn [fst snd] in Hw'.
  fold center w0 in Hw'.
  rewrite haunt_chain in Hw'. rewrite bind_run in Hw'. fold site w1 in Hw'.
  unfold map_load in Hw'.
  rewrite bind_run, write_mission_after in Hw'. cbn [fst snd] in Hw'.
  rewrite bind_run, reveal_after in Hw'. cbn [fst snd] in Hw'.
  rewrite bind_run, emit_after in Hw'. cbn [fst snd] in Hw'.
  rewrite bind_run, emit_after in Hw'. cbn [fst snd] in Hw'.
  rewrite bind_run, add_spawn_after in Hw'. cbn [fst snd] in Hw'.
  rewrite bind_run, add_spawn_after in Hw'. cbn [fst snd] in Hw'.
  rewrite bind_run in Hw'.
  match type of Hw' with context [snd ((if _ then _ else _) ?wx)] =>
    destruct (horde_loops_trace wx) as (loops & Hloops & Hspawns) end.
  rewrite Hloops in Hw'.
  rewrite bind_run, add_spawn_after in Hw'. cbn [fst snd] in Hw'.
  rewrite bind_run, add_spawn_after in Hw'. cbn [fst snd] in Hw'.
  rewrite emit_after in Hw'. cbn [snd] in Hw'.
  rewrite !after_app in Hw'. rewrite <- ?app_assoc in Hw'. cbn [app] in Hw'.
  set (horde :=
         EMap (MapAddSpawn "mon_zombie_brute" 3 (SEEX S) (SEEY S) false
                 (-1) (-1) "NONE")
         :: EMap (MapAddSpawn "mon_zombie_dog" 3 (SEEX S) (SEEY S) false
                    (-1) (-1) "NONE")
         :: loops
         ++ [EMap (MapAddSpawn "mon_zombie_necro" 2 (SEEX S) (SEEY S)
                     false (-1) (-1) "NONE");
             EMap (MapAddSpawn "mon_zombie_hulk" 1 (SEEX S) (SEEY S)
                     false (-1) (-1) "NONE")]).
  assert (Hhorde : Forall (fun e => is_add_spawn e || is_rng e = true) horde).
  { unfold horde. repeat (apply Forall_cons; [reflexivity |]).
    apply Forall_app. split; [exact Hspawns | repeat constructor]. }
  assert (Hrun : w' = after S w1
                   ([EMission (WTarget site); EReveal site 6;
                     EMap (MapLoad (wrap_int (px site * 2))
                             (wrap_int (py site * 2)) (pz site) false)]
                    ++ EMap (MapAddSpawn "mon_zombie_master" 1 (SEEX S)
                               (SEEY S) false (-1) (uid (miss w))
                               "Demonic Soul")
                    :: horde ++ [EMap MapSave])).
  { rewrite Hw'. unfold horde. cbn [app]. rewrite <- app_assoc. reflexivity. }
  clearbody horde. clear Hw'.
  destruct (first_valid_site_first center haunt_types w0 ltac:(discriminate))
    as (n & Hn & Hbefore & Hsite & Hvalid & Hsearches).
  cbv zeta in Hbefore, Hsite. fold site in Hsite, Hvalid.
  fold w1 in Hsearches.
  assert (Hflat : w' = after S w0
                   (map search (firstn n types)
                    ++ [EMission (WTarget site); EReveal site 6;
                        EMap (MapLoad (wrap_int (px site * 2))
                                (wrap_int (py site * 2)) (pz site) false)]
                    ++ EMap (MapAddSpawn "mon_zombie_master" 1 (SEEX S)
                               (SEEY S) false (-1) (uid (miss w))
                               "Demonic Soul")
                    :: horde ++ [EMap MapSave])).
  { rewrite Hrun, Hsearches, after_app. reflexivity. }
  exists n, site, horde.
  split; [exact Hn |]. split; [exact Hbefore |]. split; [exact Hsite |].
  split; [exact Hvalid |]. split; [reflexivity |].
  split; [exact Hflat |]. split; [exact Hhorde |].
  rewrite Hrun. cbn [app]. apply target_after_write_first.
  do 3 (apply Forall_cons; [reflexivity |]).
  apply Forall_app. split; [| repeat constructor].
  eapply Forall_impl; [| exact Hhorde].
  intros e He. destruct e; try discriminate; reflexivity.
Qed.

End Properties.

(** * The routines on the small game *)

Lemma toy_rng_in_range : rng_in_range Toy.game.
Proof.
  intros s lo hi Hle. cbn.
  pose proof (Z.mod_pos_bound (Toy.draws s) (hi - lo + 1) ltac:(lia)). lia.
Qed.

Lemma toy_sm_to_omt_keeps_z : sm_to_omt_keeps_z Toy.game.
Proof. intros p. reflexivity. Qed.

(** C1 on the small game: no bunker is known, a field is turned into one,
    and the bunker becomes the target. *)
Lemma assign_mission_target_found_witness :
  is_invalid Toy.game
    (fst (assign_mission_target_search Toy.game Toy.build_bunker Toy.town_world))
  = false
  /\ fst (assign_mission_target Toy.game Toy.build_bunker Toy.town_world)
     = Some (Tripoint 1 1 0)
  /\ target (miss (snd (assign_mission_target Toy.game Toy.build_bunker
                          Toy.town_world)))
     = Tripoint 1 1 0.
Proof.
  assert (Hvalid :
    is_invalid Toy.game
      (fst (assign_mission_target_search Toy.game Toy.build_bunker
              Toy.town_world)) = false) by (vm_compute; reflexivity).
  destruct (assign_mission_target_found Toy.game Toy.build_bunker
              Toy.town_world Hvalid) as (Hrun & Htarget & _).
  split; [exact Hvalid |]. split.
  - rewrite Hrun. vm_compute. reflexivity.
  - rewrite Htarget. vm_compute. reflexivity.
Defined.

(** C2 on the small game: the player has seen no bunker. *)
Lemma assign_mission_target_not_found_witness :
  fst (assign_mission_target Toy.game Toy.find_seen_bunker Toy.town_world) = None
  /\ miss (snd (assign_mission_target Toy.game Toy.find_seen_bunker
                  Toy.town_world))
     = Toy.a_mission.
Proof.
  assert (Hinvalid :
    is_invalid Toy.game
      (fst (assign_mission_target_search Toy.game Toy.find_seen_bunker
              Toy.town_world)) = true) by (vm_compute; reflexivity).
  destruct (assign_mission_target_not_found Toy.game Toy.find_seen_bunker
              Toy.town_world Hinvalid) as (evs & Hrun & _ & Hmiss).
  split; [rewrite Hrun; reflexivity | exact Hmiss].
Defined.

(** C3 as stated fails for [place_dog]: with no NPC and no city around it
    logs two debug messages, one of them from the search for a house. *)
Lemma place_dog_not_only_debugmsg :
  find_npc Toy.game (ext Toy.empty_world) (npc_id (miss Toy.empty_world)) = None
  /\ log (snd (mission_start_place_dog Toy.game Toy.empty_world))
     = [EDebugmsg "could not find closest city" [];
        EDebugmsg "Couldn't find NPC! %d" [ArgInt 42]]
  /\ ~ only_debugmsg Toy.game (mission_start_place_dog Toy.game)
        Toy.empty_world.
Proof.
  split; [reflexivity |]. split; [vm_compute; reflexivity |].
  intros (fmt & args & Hrun).
  apply (f_equal (fun r => List.length (log (snd r)))) in Hrun.
  vm_compute in Hrun. discriminate.
Qed.

(** C3 (amended) on the small game. *)
Lemma npc_missing_returns_after_debugmsg_witness :
  only_debugmsg Toy.game (mission_start_join Toy.game) Toy.empty_world
  /\ only_debugmsg Toy.game (mission_start_place_npc_software Toy.game)
       Toy.empty_world
  /\ miss (snd (mission_start_place_dog Toy.game Toy.empty_world))
     = Toy.a_mission.
Proof.
  destruct (npc_missing_returns_after_debugmsg Toy.game Toy.empty_world)
    as [Hseven Hdog].
  destruct (Hseven eq_refl) as (Hjoin & _ & _ & _ & _ & _ & Hsoftware).
  destruct (Hdog eq_refl) as (_ & Hmiss & _).
  split; [exact Hjoin |]. split; [exact Hsoftware | exact Hmiss].
Defined.

(** C4 on the small game: a safe tile two tiles away, and no safe tile at
    all. *)
Lemma find_safety_sets_target_witness :
  rng_in_range Toy.game
  /\ chebyshev
       (target (miss (snd (mission_start_find_safety Toy.game Toy.town_world))))
       (Tripoint 3 4 0) <= 20
  /\ exists dx dy,
       (dx = 20 \/ dx = -20) /\ (dy = 20 \/ dy = -20)
       /\ target (miss (snd (mission_start_find_safety Toy.game
                               Toy.empty_world)))
          = Tripoint (3 + dx) (4 + dy) 0.
Proof.
  split; [exact toy_rng_in_range |]. split.
  - destruct (find_safety_sets_target Toy.game Toy.town_world toy_rng_in_range)
      as (_ & _ & Hnear & _).
    exact Hnear.
  - destruct (find_safety_sets_target Toy.game Toy.empty_world toy_rng_in_range)
      as (_ & _ & _ & Hcorner).
    apply Hcorner. vm_compute. reflexivity.
Defined.

(** C5 as stated fails when the mission's NPC is not found: the routine
    returns after the debug message, without a search, a target or a
    reveal. *)
Lemma kill_horde_master_without_npc :
  find_npc Toy.game (ext Toy.empty_world) (npc_id (miss Toy.empty_world)) = None
  /\ log (snd (mission_start_kill_horde_master Toy.game Toy.empty_world))
     = [EDebugmsg "could not find mission NPC %d" [ArgInt 42]]
  /\ miss (snd (mission_start_kill_horde_master Toy.game Toy.empty_world))
     = miss Toy.empty_world
  /\ ~ (exists site,
          In (EMission (WTarget site))
             (log (snd (mission_start_kill_horde_master Toy.game
                          Toy.empty_world)))
          /\ In (EReveal site 6)
                (log (snd (mission_start_kill_horde_master Toy.game
                             Toy.empty_world)))).
Proof.
  split; [reflexivity |]. split; [reflexivity |]. split; [reflexivity |].
  intros (site & Htarget & _). vm_compute in Htarget.
  destruct Htarget as [Habs | []]. discriminate.
Qed.

(** C5 (amended) on the small games.  With nobody around the routine
    stops at the debug message.  In the town there is no office tower and
    no hotel, but a school: three searches, and the school is the target.
    Where the doctor is alone, all four searches fail: the invalid point is
    the target, and the doubling of its coordinates wraps around, so that
    the map is loaded at (0, 0). *)
Lemma kill_horde_master_haunt_witness :
  find_npc Toy.game (ext Toy.empty_world) (npc_id (miss Toy.empty_world)) = None
  /\ log (snd (mission_start_kill_horde_master Toy.game Toy.empty_world))
     = [EDebugmsg "could not find mission NPC %d" [ArgInt 42]]
  /\ find_npc Toy.game (ext Toy.town_world) (npc_id (miss Toy.town_world))
     = Some Toy.guide
  /\ target (miss (snd (mission_start_kill_horde_master Toy.game
                          Toy.town_world)))
     = Tripoint 20 3 0
  /\ firstn 7 (log (snd (mission_start_kill_horde_master Toy.game
                           Toy.town_world)))
     = [ENpc 42 (NpcSetAttitude NPCATT_FOLLOW);
        EFindClosest (FindQuery (Tripoint 10 10 0) "office_tower_1" 0 false
                        false false None);
        EFindClosest (FindQuery (Tripoint 10 10 0) "hotel_tower_1_8" 0 false
                        false false None);
        EFindClosest (FindQuery (Tripoint 10 10 0) "school_5" 0 false false
                        false None);
        EMission (WTarget (Tripoint 20 3 0)); EReveal (Tripoint 20 3 0) 6;
        EMap (MapLoad 40 6 0 false)]
  /\ find_npc Lab.game (ext Lab.lost_world) (npc_id (miss Lab.lost_world))
     = Some Lab.doctor
  /\ target (miss (snd (mission_start_kill_horde_master Lab.game
                          Lab.lost_world)))
     = Tripoint int_min int_min int_min
  /\ In (EMap (MapLoad 0 0 int_min false))
        (log (snd (mission_start_kill_horde_master Lab.game Lab.lost_world))).
Proof.
  split; [reflexivity |]. split.
  { destruct (kill_horde_master_haunt Toy.game Toy.empty_world) as [Hnone _].
    rewrite (Hnone eq_refl). reflexivity. }
  split; [reflexivity |].
  destruct (kill_horde_master_haunt Toy.game Toy.town_world) as [_ Hfound].
  destruct (Hfound Toy.guide eq_refl)
    as (n & site & horde & Hn & _ & _ & Hvalid & Hsite & Hrun & _ & Htarget).
  assert (Hschool : site = Tripoint 20 3 0)
    by (rewrite Hsite; vm_compute; reflexivity).
  split; [rewrite Htarget; exact Hschool |].
  split.
  { rewrite Hrun, Hschool.
    assert (Hthree : n = 3%nat).
    { destruct n as [| [| [| [| n]]]]; [lia | | | reflexivity | ].
      - exfalso. clear - Hsite Hrun Hschool.
        apply (f_equal (fun x => nth 2 (log x) (EDebugmsg "" []))) in Hrun.
        rewrite Hschool in Hrun. vm_compute in Hrun. discriminate.
      - exfalso. clear - Hsite Hrun Hschool.
        apply (f_equal (fun x => nth 3 (log x) (EDebugmsg "" []))) in Hrun.
        rewrite Hschool in Hrun. vm_compute in Hrun. discriminate.
      - exfalso. clear - Hsite Hrun Hschool.
        apply (f_equal (fun x => nth 4 (log x) (EDebugmsg "" []))) in Hrun.
        rewrite Hschool in Hrun. vm_compute in Hrun.
        destruct n; discriminate. }
    rewrite Hthree. reflexivity. }
  split; [reflexivity |].
  destruct (kill_horde_master_haunt Lab.game Lab.lost_world) as [_ Hlost].
  destruct (Hlost Lab.doctor eq_refl)
    as (m & nowhere & horde' & _ & _ & _ & _ & Hnowhere & Hrun' & _
        & Htarget').
  assert (Hinv : nowhere = Tripoint int_min int_min int_min)
    by (rewrite Hnowhere; vm_compute; reflexivity).
  split; [rewrite Htarget'; exact Hinv |].
  rewrite Hrun', Hinv. unfold after. cbn [log].
  apply in_or_app. right. apply in_or_app. right.
  right. right. left. reflexivity.
Defined.

(** C6 on the small game: the city of size 2 around (5, 5). *)
Lemma random_house_in_city_within_city_witness :
  0 <= city_size (City 2 "Toytown")
  /\ 3 <= px (fst (random_house_in_city Toy.game (City 2 "Toytown")
                     (Tripoint 10 11 0) Toy.town_world)) <= 7
  /\ 3 <= py (fst (random_house_in_city Toy.game (City 2 "Toytown")
                     (Tripoint 10 11 0) Toy.town_world)) <= 7.
Proof.
  assert (Hsize : 0 <= city_size (City 2 "Toytown")) by (cbn; lia).
  destruct (random_house_in_city_within_city Toy.game (City 2 "Toytown")
              (Tripoint 10 11 0) Toy.town_world Hsize toy_sm_to_omt_keeps_z)
    as (_ & Hx & Hy & _).
  split; [exact Hsize |]. split; [exact Hx | exact Hy].
Defined.

(** C7 on the small game: no city at all. *)
Lemma random_house_in_closest_city_no_city_witness :
  fst (random_house_in_closest_city Toy.game Toy.empty_world) = Tripoint 3 4 0
  /\ log (snd (random_house_in_closest_city Toy.game Toy.empty_world))
     = [EDebugmsg "could not find closest city" []].
Proof.
  rewrite (random_house_in_closest_city_no_city Toy.game Toy.empty_world eq_refl).
  split; reflexivity.
Defined.

(** C8 on the small games.  With both entrances known, the hidden stairs
    are closer: they are returned on z = 0, revealed and made the target.
    With nothing known, both results are the invalid point on x and y, the
    distances tie, and the surface result, the invalid point itself, is
    returned without a reveal. *)
Lemma target_closest_lab_entrance_closest_witness :
  fst (target_closest_lab_entrance Toy.game (Tripoint 3 4 (-2)) 2
         Lab.stairs_world)
  = Tripoint 4 5 0
  /\ log (snd (target_closest_lab_entrance Toy.game (Tripoint 3 4 (-2)) 2
                 Lab.stairs_world))
     = [EFindClosest (FindQuery (Tripoint 3 4 0) "lab_stairs" 0 false true
                        false None);
        EFindClosest (FindQuery (Tripoint 3 4 (-1)) "hidden_lab_stairs" 0
                        false true false None);
        EReveal (Tripoint 4 5 0) 2;
        EMission (WTarget (Tripoint 4 5 0))]
  /\ fst (target_closest_lab_entrance Toy.game (Tripoint 3 4 (-2)) 2
            Toy.empty_world)
     = Tripoint int_min int_min int_min
  /\ log (snd (target_closest_lab_entrance Toy.game (Tripoint 3 4 (-2)) 2
                 Toy.empty_world))
     = [EFindClosest (FindQuery (Tripoint 3 4 0) "lab_stairs" 0 false true
                        false None);
        EFindClosest (FindQuery (Tripoint 3 4 (-1)) "hidden_lab_stairs" 0
                        false true false None);
        EMission (WTarget (Tripoint int_min int_min int_min))].
Proof.
  destruct (target_closest_lab_entrance_closest Toy.game (Tripoint 3 4 (-2)) 2
              Lab.stairs_world) as (_ & Hhidden & _ & Hrun).
  assert (Hcloser :
    fst (target_closest_lab_entrance Toy.game (Tripoint 3 4 (-2)) 2
           Lab.stairs_world) = Tripoint 4 5 0).
  { rewrite Hhidden; [reflexivity | vm_compute; reflexivity]. }
  destruct (target_closest_lab_entrance_closest Toy.game (Tripoint 3 4 (-2)) 2
              Toy.empty_world) as (Hsurface & _ & _ & Hrun0).
  assert (Htie :
    fst (target_closest_lab_entrance Toy.game (Tripoint 3 4 (-2)) 2
           Toy.empty_world) = Tripoint int_min int_min int_min).
  { rewrite Hsurface; [reflexivity | vm_compute; discriminate]. }
  split; [exact Hcloser |].
  split; [rewrite Hrun, Hcloser; reflexivity |].
  split; [exact Htie |].
  rewrite Hrun0, Htie. reflexivity.
Defined.

(** C9 on the small game: a field could be turned into a bunker, but the
    player must have seen the target. *)
Lemma assign_mission_target_must_see_creates_nothing_witness :
  must_see Toy.find_seen_bunker = true
  /\ exists q rest,
       snd (assign_mission_target Toy.game Toy.find_seen_bunker Toy.town_world)
       = after Toy.game Toy.town_world (EFindClosest q :: rest)
       /\ Forall (fun e => creates_terrain e = false) (EFindClosest q :: rest).
Proof.
  split; [reflexivity |].
  destruct (assign_mission_target_must_see_creates_nothing Toy.game
              Toy.find_seen_bunker Toy.town_world eq_refl)
    as (q & rest & Hrun & _ & _ & Hcreate).
  exists q, rest. split; [exact Hrun | exact Hcreate].
Defined.

(** [set_assign_om_target] on the small game: a reveal radius of 0 and a
    search range of -5 both become 1. *)
Example set_assign_om_target_in_town :
  exists p z,
    mission_util_set_assign_om_target Toy.game Toy.target_json []
    = inr [assign_om_target_func Toy.game p z]
    /\ reveal_radius p = Some 1 /\ search_range p = 1 /\ random p = true.
Proof.
  exists (fst (assign_om_target_params Toy.game Toy.target_json)),
         (snd (assign_om_target_params Toy.game Toy.target_json)).
  repeat split.
Qed.

(** [target_closest_lab_entrance] on the small game: only the surface
    stairs exist, so they are revealed and become the target. *)
Example lab_entrance_in_town :
  fst (target_closest_lab_entrance Toy.game (Tripoint 3 4 (-2)) 2 Toy.town_world)
  = Tripoint 8 8 0
  /\ skipn 2 (log (snd (target_closest_lab_entrance Toy.game (Tripoint 3 4 (-2))
                          2 Toy.town_world)))
     = [EReveal (Tripoint 8 8 0) 2; EMission (WTarget (Tripoint 8 8 0))].
Proof. split; vm_compute; reflexivity. Qed.

(** [place_dog] on the small game when the NPC is there. *)
Example place_dog_in_town :
  target (miss (snd (mission_start_place_dog Toy.game Toy.town_world)))
  = Tripoint 4 6 0.
Proof. vm_compute. reflexivity. Qed.

(** [assign_mission_target] on the small game: the school is known, so it
    is found by the first search, revealed with radius 3 and made the
    target. *)
Example assign_mission_target_school :
  fst (assign_mission_target Toy.game Toy.find_school Toy.town_world)
  = Some (Tripoint 20 3 0)
  /\ skipn 1 (log (snd (assign_mission_target Toy.game Toy.find_school
                          Toy.town_world)))
     = [EReveal (Tripoint 20 3 0) 3; EMission (WTarget (Tripoint 20 3 0))].
Proof. split; vm_compute; reflexivity. Qed.

(** * Further properties of the routines *)

Section MoreProperties.

Context {W : Type} (S : services W).

Ltac exec_step :=
  first [ rewrite ret_run | rewrite ask_run | rewrite get_miss_run
        | rewrite find_closest_after | rewrite find_random_after
        | rewrite place_special_after | rewrite rng_after
        | rewrite reveal_after | rewrite debugmsg_after
        | rewrite write_mission_after | rewrite add_spawn_after
        | rewrite emit_after ];
  cbv beta iota.

Ltac exec := cbv beta iota; repeat exec_step; rewrite ?after_app; cbn [app].

(** ** assign_mission_target: the search phase, case by case *)

Ltac or_cases H :=
  repeat match type of H with
         | _ \/ _ => destruct H as [H | H]
         | False => contradiction
         end.

Ltac search_leaf :=
  cbn [fst snd]; eexists; split; [reflexivity |];
  split; [repeat constructor |];
  split; [repeat (apply Forall_cons;
                  [intros ? ? Hfrom; cbn in Hfrom;
                   first [discriminate
                         | inversion Hfrom; subst; split; reflexivity] |]);
          apply Forall_nil |];
  split; [intros Hfast; or_cases Hfast; try congruence; try discriminate;
          split; reflexivity |];
  split; [intros ? ? Hin; cbn in Hin; or_cases Hin; try discriminate;
          inversion Hin; subst; repeat split; try reflexivity; assumption |];
  split; [intros ? ? ? Hin; cbn in Hin; or_cases Hin; try discriminate;
          inversion Hin; subst; repeat split; try reflexivity; assumption |];
  cbn; lia.

Lemma assign_mission_target_search_cases (params : mission_target_params)
    (w : world W) :
  let pos := fst (assign_mission_target_search S params w) in
  exists rest,
    snd (assign_mission_target_search S params w)
    = after S w (first_search_call S params w :: rest)
    /\ Forall (fun e => is_target_search e = true) rest
    /\ Forall (fun e => forall o r, search_from e = Some (o, r) ->
                 o = first_search_origin S params w /\ r = search_range params)
              (first_search_call S params w :: rest)
    /\ ((is_invalid S (first_search_hit S params w) = false
         \/ create_if_necessary params = false
         \/ must_see params = true) ->
        rest = [] /\ pos = first_search_hit S params w)
    /\ (forall p o, In (ESetOter p o) rest ->
          p = pos /\ o = overmap_terrain_subtype params
          /\ is_invalid S pos = false
          /\ overmap_special params = None
          /\ is_invalid S (first_search_hit S params w) = true)
    /\ (forall sp o r, In (EPlaceSpecial sp o r) rest ->
          overmap_special params = Some sp
          /\ is_invalid S (first_search_hit S params w) = true)
    /\ (List.length (filter is_set_oter rest) <= 1)%nat.
Proof.
  intros pos. subst pos.
  unfold first_search_call, first_search_hit, first_search_query,
    first_search_origin.
  unfold assign_mission_target_search, bind.
  destruct (search_origin params) as [o |]; exec;
  destruct (random params); exec;
  match goal with |- context [is_invalid S ?p && _ && _] =>
    destruct (is_invalid S p) eqn:Hhit end; cbn [andb];
  try (destruct (create_if_necessary params) eqn:Hcreate; cbn [andb]);
  try (destruct (must_see params) eqn:Hsee; cbn [andb negb]);
  exec; try (search_leaf; fail).
  all: destruct (overmap_special params) as [special |] eqn:Hspecial; exec.
  all: try (match goal with |- context [ob_place_special S ?e ?a ?b ?c] =>
              destruct (ob_place_special S e a b c) end; exec;
            search_leaf; fail).
  all: destruct (replaceable_overmap_terrain_subtype params) as [repl |];
    exec; try (search_leaf; fail).
  all: match goal with |- context [is_invalid S ?p] =>
         destruct (is_invalid S p) eqn:Hfound end; exec.
  all: match goal with |- context [negb (is_invalid S ?p)] =>
         destruct (is_invalid S p) eqn:Hfound' end;
    try congruence; cbn [negb]; exec.
  all: search_leaf.
Qed.

Lemma not_target_search (e : event) :
  is_target_search e = false ->
  search_from e = None /\ is_set_oter e = false /\ creates_terrain e = false.
Proof. destruct e; try discriminate; repeat split. Qed.

(** What [assign_mission_target] does after the search phase. *)
Lemma assign_mission_target_tail (params : mission_target_params)
    (w : world W) :
  let pos := fst (assign_mission_target_search S params w) in
  exists tail,
    assign_mission_target S params w
    = (if is_invalid S pos then None else Some pos,
       after S (snd (assign_mission_target_search S params w)) tail)
    /\ Forall (fun e => is_target_search e = false) tail
    /\ (if is_invalid S pos
        then Forall (fun e => is_mission_write e = false) tail
        else exists before, tail = before ++ [EMission (WTarget pos)]).
Proof.
  intros pos. unfold assign_mission_target. rewrite bind_run. fold pos.
  destruct (is_invalid S pos).
  - unfold bind. exec. eexists. split; [reflexivity |].
    split; repeat constructor.
  - unfold bind. destruct (reveal_radius params) as [r |]; exec.
    + exists [EReveal pos r; EMission (WTarget pos)].
      split; [reflexivity |]. split; [repeat constructor |].
      exists [EReveal pos r]. reflexivity.
    + exists [EMission (WTarget pos)].
      split; [reflexivity |]. split; [repeat constructor |].
      exists []. reflexivity.
Qed.

(** X1.  The optional that [assign_mission_target] returns never holds the
    invalid point.  When it holds a point, that point is the mission's
    target afterwards; when it is empty, the mission object is the one from
    before the call. *)
Theorem assign_mission_target_result (params : mission_target_params)
    (w : world W) :
  match fst (assign_mission_target S params w) with
  | Some p =>
      is_invalid S p = false
      /\ target (miss (snd (assign_mission_target S params w))) = p
  | None => miss (snd (assign_mission_target S params w)) = miss w
  end.
Proof.
  destruct (assign_mission_target_tail params w) as (tail & Hrun & _ & Htail).
  destruct (assign_mission_target_search_trace S params w)
    as (evs & Hw1 & Hsearch).
  rewrite Hrun. cbn [fst snd]. rewrite Hw1, after_app.
  destruct (is_invalid S (fst (assign_mission_target_search S params w)))
    eqn:Hpos.
  - unfold after. cbn [miss]. apply replay_no_write.
    apply Forall_app. split; [| exact Htail].
    eapply Forall_impl; [| exact Hsearch].
    intros e He. destruct e; try discriminate; reflexivity.
  - split; [exact Hpos |]. destruct Htail as (before & ->).
    rewrite app_assoc. apply target_after_write.
Qed.

(** X2.  When the first search of [assign_mission_target] finds a valid
    position, or when the parameters forbid creation, or when the player
    must have seen the target, that search is the only search or creation
    call of the routine, and the routine returns its result (the empty
    optional when the result is the invalid point). *)
Theorem assign_mission_target_single_search (params : mission_target_params)
    (w : world W) :
  is_invalid S (first_search_hit S params w) = false
  \/ create_if_necessary params = false
  \/ must_see params = true ->
  exists tail,
    snd (assign_mission_target S params w)
    = after S w (first_search_call S params w :: tail)
    /\ Forall (fun e => is_target_search e = false) tail
    /\ fst (assign_mission_target S params w)
       = if is_invalid S (first_search_hit S params w)
         then None else Some (first_search_hit S params w).
Proof.
  intros Hfast.
  destruct (assign_mission_target_search_cases params w)
    as (rest & Hw1 & _ & _ & Hone & _).
  destruct (Hone Hfast) as [-> Hpos].
  destruct (assign_mission_target_tail params w) as (tail & Hrun & Htail & _).
  exists tail. rewrite Hrun. cbn [fst snd]. rewrite Hw1, after_app, Hpos.
  repeat split. exact Htail.
Qed.

(** X3.  [assign_mission_target] assigns a terrain id at most once, and
    only when creation is allowed, the player need not have seen the
    target, no overmap special is given and the first search failed; the
    tile that gets the id is then the one the routine returns and makes the
    target, and the id is the requested terrain. *)
Theorem assign_mission_target_replaces_target (params : mission_target_params)
    (w : world W) :
  exists evs,
    snd (assign_mission_target S params w) = after S w evs
    /\ (List.length (filter is_set_oter evs) <= 1)%nat
    /\ forall p o,
         In (ESetOter p o) evs ->
         fst (assign_mission_target S params w) = Some p
         /\ target (miss (snd (assign_mission_target S params w))) = p
         /\ o = overmap_terrain_subtype params
         /\ overmap_special params = None
         /\ create_if_necessary params = true
         /\ must_see params = false
         /\ is_invalid S (first_search_hit S params w) = true.
Proof.
  destruct (assign_mission_target_search_cases params w)
    as (rest & Hw1 & _ & _ & Hone & Hset & _ & Hcount).
  destruct (assign_mission_target_tail params w) as (tail & Hrun & Htail & Hlast).
  assert (Hquiet : Forall (fun e => is_set_oter e = false) tail).
  { eapply Forall_impl; [| exact Htail]. intros e He.
    apply not_target_search in He. tauto. }
  exists (first_search_call S params w :: rest ++ tail).
  split; [| split].
  - rewrite Hrun. cbn [snd]. rewrite Hw1, after_app. reflexivity.
  - assert (Hfirst : is_set_oter (first_search_call S params w) = false)
      by (unfold first_search_call; destruct (random params); reflexivity).
    cbn [filter]. rewrite Hfirst, filter_app.
    assert (Hnone : filter is_set_oter tail = []).
    { clear - Hquiet. induction Hquiet as [| e l He _ IH]; [reflexivity |].
      cbn. rewrite He. exact IH. }
    rewrite Hnone, app_nil_r. exact Hcount.
  - intros p o Hin.
    assert (Hrest : In (ESetOter p o) rest).
    { destruct Hin as [Hin | Hin].
      - unfold first_search_call in Hin. destruct (random params); discriminate.
      - apply in_app_or in Hin. destruct Hin as [Hin | Hin]; [exact Hin |].
        rewrite Forall_forall in Hquiet. specialize (Hquiet _ Hin).
        discriminate. }
    destruct (Hset p o Hrest) as (Hp & Ho & Hvalid & Hspecial & Hmiss).
    assert (Hflags : create_if_necessary params = true
                     /\ must_see params = false).
    { destruct (create_if_necessary params) eqn:Hc;
        destruct (must_see params) eqn:Hs; auto;
        (destruct Hone as [Hnil _]; [auto |]; rewrite Hnil in Hrest;
         contradiction). }
    subst p. rewrite Hvalid in Hlast, Hrun. destruct Hlast as (before & ->).
    rewrite Hrun. cbn [fst snd].
    repeat split; try tauto.
    apply target_after_write.
Qed.

(** X4.  [assign_mission_target] places an overmap special only when the
    parameters name it, and then only after a failed first search, with
    creation allowed and a target the player need not have seen; it places
    it around the origin of the search and within the search range. *)
Theorem assign_mission_target_places_special (params : mission_target_params)
    (w : world W) :
  exists evs,
    snd (assign_mission_target S params w) = after S w evs
    /\ forall sp o r,
         In (EPlaceSpecial sp o r) evs ->
         overmap_special params = Some sp
         /\ o = first_search_origin S params w
         /\ r = search_range params
         /\ create_if_necessary params = true
         /\ must_see params = false
         /\ is_invalid S (first_search_hit S params w) = true.
Proof.
  destruct (assign_mission_target_search_cases params w)
    as (rest & Hw1 & _ & Hfrom & Hone & _ & Hplace & _).
  destruct (assign_mission_target_tail params w) as (tail & Hrun & Htail & _).
  exists (first_search_call S params w :: rest ++ tail). split.
  - rewrite Hrun. cbn [snd]. rewrite Hw1, after_app. reflexivity.
  - intros sp o r Hin.
    assert (Hrest : In (EPlaceSpecial sp o r) rest).
    { destruct Hin as [Hin | Hin].
      - unfold first_search_call in Hin. destruct (random params); discriminate.
      - apply in_app_or in Hin. destruct Hin as [Hin | Hin]; [exact Hin |].
        rewrite Forall_forall in Htail. specialize (Htail _ Hin).
        discriminate. }
    destruct (Hplace sp o r Hrest) as (Hspecial & Hmiss).
    rewrite Forall_forall in Hfrom.
    destruct (Hfrom (EPlaceSpecial sp o r) (or_intror Hrest) o r eq_refl)
      as [Ho Hr].
    assert (Hflags : create_if_necessary params = true
                     /\ must_see params = false).
    { destruct (create_if_necessary params) eqn:Hc;
        destruct (must_see params) eqn:Hs; auto;
        (destruct Hone as [Hnil _]; [auto |]; rewrite Hnil in Hrest;
         contradiction). }
    tauto.
Qed.

(** All searches of [assign_mission_target] and the placement of a special
    start from one origin, with one range. *)
Lemma assign_mission_target_from (params : mission_target_params)
    (w : world W) :
  exists evs,
    snd (assign_mission_target S params w) = after S w evs
    /\ Forall (fun e => forall o r, search_from e = Some (o, r) ->
                 o = first_search_origin S params w
                 /\ r = search_range params) evs
    /\ (must_see params = true ->
        Forall (fun e => creates_terrain e = false) evs).
Proof.
  destruct (assign_mission_target_search_cases params w)
    as (rest & Hw1 & _ & Hfrom & Hone & _).
  destruct (assign_mission_target_tail params w) as (tail & Hrun & Htail & _).
  exists ((first_search_call S params w :: rest) ++ tail). split; [| split].
  - rewrite Hrun. cbn [snd]. rewrite Hw1, after_app. reflexivity.
  - apply Forall_app. split; [exact Hfrom |].
    eapply Forall_impl; [| exact Htail]. intros e He o r Hsome.
    apply not_target_search in He. destruct He as [He _]. congruence.
  - intros Hsee. destruct Hone as [-> _]; [auto |].
    apply Forall_app. split.
    + constructor; [| constructor].
      unfold first_search_call, first_search_query.
      destruct (random params); reflexivity.
    + eapply Forall_impl; [| exact Htail]. intros e He.
      apply not_target_search in He. tauto.
Qed.

(** X5.  Every search that [assign_mission_target] makes, and the placement
    of a special, starts from the same origin (the given search origin, or
    the player's location at the start) and uses the same range, the
    [search_range] of the parameters. *)
Theorem assign_mission_target_one_origin (params : mission_target_params)
    (w : world W) :
  exists evs,
    snd (assign_mission_target S params w) = after S w evs
    /\ Forall (fun e => forall o r, search_from e = Some (o, r) ->
                 o = first_search_origin S params w
                 /\ r = search_range params) evs.
Proof.
  destruct (assign_mission_target_from params w) as (evs & Hrun & Hfrom & _).
  exists evs. auto.
Qed.

(** ** The closure of set_assign_om_target *)

(** The parameters the closure hands to [assign_mission_target]. *)
Lemma assign_om_target_func_run (p : mission_target_params) (z : option Z)
    (w : world W) :
  snd (assign_om_target_func S p z w)
  = snd (assign_mission_target S
           (MissionTargetParams
              (overmap_terrain_subtype p)
              (match z with
               | Some zv =>
                   Some (Tripoint (px (u_global_omt_location S (ext w)))
                                  (py (u_global_omt_location S (ext w))) zv)
               | None => search_origin p
               end)
              (replaceable_overmap_terrain_subtype p)
              (overmap_special p) (reveal_radius p) (must_see p)
              (random p) (create_if_necessary p) (search_range p)) w).
Proof.
  unfold assign_om_target_func, bind.
  destruct z as [zv |]; exec.
  - match goal with |- context [assign_mission_target S ?mtp w] =>
      destruct (assign_mission_target S mtp w) end.
    reflexivity.
  - destruct p. cbn. 
    match goal with |- context [assign_mission_target S ?mtp w] =>
      destruct (assign_mission_target S mtp w) end.
    reflexivity.
Qed.

(** X6.  For a JSON object with an "om_terrain" string and an integer "z",
    the closure that [set_assign_om_target] appends searches from the
    player's x and y on level z: every search it makes, and the placement
    of a special, starts there and uses the search range read from the
    object. *)
Theorem set_assign_om_target_level (jo : JsonObject) (zv : Z)
    (funcs : list (M (W := W) unit)) :
  has_string jo "om_terrain" = true ->
  json_member jo "z" = Some (JInt zv) ->
  exists f,
    mission_util_set_assign_om_target S jo funcs = inr (funcs ++ [f])
    /\ forall w : world W,
         exists evs,
           snd (f w) = after S w evs
           /\ Forall (fun e => forall o r, search_from e = Some (o, r) ->
                        o = Tripoint (px (u_global_omt_location S (ext w)))
                                     (py (u_global_omt_location S (ext w))) zv
                        /\ r = search_range (fst (assign_om_target_params S jo)))
                     evs.
Proof.
  intros Hterrain Hz.
  exists (assign_om_target_func S (fst (assign_om_target_params S jo)) (Some zv)).
  split.
  - unfold mission_util_set_assign_om_target. rewrite Hterrain. cbn [negb].
    unfold assign_om_target_params, has_int, get_int. rewrite Hz. reflexivity.
  - intros w. rewrite assign_om_target_func_run.
    match goal with |- context [assign_mission_target S ?mtp w] =>
      destruct (assign_mission_target_from mtp w) as (evs & Hrun & Hfrom & _)
    end.
    exists evs. split; [exact Hrun | exact Hfrom].
Qed.

(** X7.  For a JSON object with an "om_terrain" string and "must_see" set to
    true, the closure that [set_assign_om_target] appends never creates
    overmap terrain, whatever else the object says: it places no special,
    assigns no terrain id and makes no search that may create overmaps. *)
Theorem set_assign_om_target_must_see (jo : JsonObject)
    (funcs : list (M (W := W) unit)) :
  has_string jo "om_terrain" = true ->
  json_member jo "must_see" = Some (JBool true) ->
  exists f,
    mission_util_set_assign_om_target S jo funcs = inr (funcs ++ [f])
    /\ forall w : world W,
         exists evs,
           snd (f w) = after S w evs
           /\ Forall (fun e => creates_terrain e = false) evs.
Proof.
  intros Hterrain Hsee.
  exists (assign_om_target_func S (fst (assign_om_target_params S jo))
            (snd (assign_om_target_params S jo))).
  split.
  - unfold mission_util_set_assign_om_target. rewrite Hterrain. cbn [negb].
    destruct (assign_om_target_params S jo). reflexivity.
  - intros w. rewrite assign_om_target_func_run.
    match goal with |- context [assign_mission_target S ?mtp w] =>
      destruct (assign_mission_target_from mtp w) as (evs & Hrun & _ & Hcreate)
    end.
    exists evs. split; [exact Hrun |]. apply Hcreate.
    unfold assign_om_target_params, has_bool, get_bool. cbn [fst must_see].
    rewrite Hsee. reflexivity.
Qed.

(** ** find_safety *)

Lemma until_return_outcome_in {A : Type} (good : W -> tripoint -> Prop)
    (l : list A) (body : A -> M bool) :
  (forall a, In a l -> search_outcome_in S good (body a)) ->
  search_outcome_in S good (until_return l body).
Proof.
  induction l as [| a rest IH]; intros Hbody w.
  - exists []. split; [constructor |]. left. rewrite after_nil. auto.
  - cbn [until_return]. rewrite bind_run.
    destruct (Hbody a (or_introl eq_refl) w)
      as (rngs1 & Hrngs1 & [[Hfalse Hw1] | (check & Hgood & Htrue & Hw1)]).
    + rewrite Hfalse, Hw1.
      destruct (IH (fun b Hb => Hbody b (or_intror Hb)) (after S w rngs1))
        as (rngs2 & Hrngs2 & [[Hfalse2 Hw2] | (check & Hgood & Htrue & Hw2)]).
      * exists (rngs1 ++ rngs2). split; [apply Forall_app; auto |]. left.
        rewrite Hfalse2, Hw2, after_app. auto.
      * exists (rngs1 ++ rngs2). split; [apply Forall_app; auto |]. right.
        exists check. rewrite Htrue, Hw2, after_app, app_assoc.
        rewrite after_app in Hgood. auto.
    + rewrite Htrue, Hw1. exists rngs1. split; [exact Hrngs1 |]. right.
      exists check. auto.
Qed.

Lemma rng_then_outcome_in (good : W -> tripoint -> Prop) (lo hi : Z)
    (k : Z -> M bool) :
  (forall v, search_outcome_in S good (k v)) ->
  search_outcome_in S good (bind (rng S lo hi) k).
Proof.
  intros Hk w. rewrite bind_run, rng_after. cbn [fst snd].
  destruct (Hk (rng_value S (ext w) lo hi) (after S w [ERng lo hi]))
    as (rngs & Hrngs & [[Hfalse Hw1] | (check & Hgood & Htrue & Hw1)]).
  - exists (ERng lo hi :: rngs). split; [constructor; auto |]. left.
    rewrite Hfalse, Hw1, after_app. auto.
  - exists (ERng lo hi :: rngs). split; [constructor; auto |]. right.
    exists check. rewrite Htrue, Hw1, after_app.
    rewrite after_app in Hgood. auto.
Qed.

Lemma find_safety_search_safe (place : tripoint) :
  search_outcome_in S
    (fun e check => ob_is_safe S e check = true /\ within 20 place check)
    (find_safety_search S place).
Proof.
  unfold find_safety_search.
  apply until_return_outcome_in. intros radius Hradius.
  apply in_range in Hradius.
  apply until_return_outcome_in. intros dist Hdist. apply in_range in Hdist.
  apply rng_then_outcome_in. intros offset.
  apply until_return_outcome_in. intros i _ w.
  exists []. split; [constructor |].
  rewrite bind_run, ask_run. cbn [fst snd].
  destruct (ob_is_safe S (ext w) _) eqn:Hsafe.
  - right. exists (safety_check place radius dist (Z.rem (offset + i) 4)).
    rewrite after_nil. split.
    + split; [exact Hsafe | apply safety_check_within; lia].
    + rewrite bind_run, write_mission_after. split; reflexivity.
  - left. rewrite after_nil. auto.
Qed.

(** X8.  When the search of [find_safety] succeeds, the tile that becomes
    the target is one that [overmap_buffer.is_safe] reported safe in the
    state in which the target was written; the routine made only random
    draws before, and the write of the target is its last call. *)
Theorem find_safety_target_is_safe (w : world W) :
  let place := u_global_omt_location S (ext w) in
  fst (find_safety_search S place w) = true ->
  exists rngs check,
    Forall (fun e => is_rng e = true) rngs
    /\ ob_is_safe S (ext (after S w rngs)) check = true
    /\ snd (mission_start_find_safety S w)
       = after S w (rngs ++ [EMission (WTarget check)])
    /\ target (miss (snd (mission_start_find_safety S w))) = check.
Proof.
  intros place Hfound.
  destruct (find_safety_search_safe place w)
    as (rngs & Hrngs & [[Hfalse _] | (check & [Hsafe _] & _ & Hw1)]);
    [congruence |].
  exists rngs, check.
  assert (Hrun : snd (mission_start_find_safety S w)
                 = after S w (rngs ++ [EMission (WTarget check)])).
  { unfold mission_start_find_safety.
    rewrite bind_run, ask_run. cbn [fst snd]. fold place.
    rewrite bind_run, Hfound, Hw1. reflexivity. }
  repeat split; auto.
  rewrite Hrun. apply target_after_write.
Qed.

Lemma safety_check_origin (place : tripoint) (dir : Z) :
  safety_check place 0 0 dir = place.
Proof.
  destruct place as [x y z]. unfold safety_check.
  destruct dir as [| [[| |] | [| |] |] |]; cbn [px py pz]; try reflexivity;
    f_equal; lia.
Qed.

(** X9.  When the player's own overmap tile is safe, [find_safety] makes it
    the target after a single random draw. *)
Theorem find_safety_own_tile (w : world W) :
  let place := u_global_omt_location S (ext w) in
  ob_is_safe S (ext (after S w [ERng 0 3])) place = true ->
  snd (mission_start_find_safety S w)
  = after S w [ERng 0 3; EMission (WTarget place)].
Proof.
  intros place Hsafe.
  unfold mission_start_find_safety, find_safety_search.
  rewrite bind_run, ask_run. cbn [fst snd]. fold place.
  change (range 0 20) with (0 :: range 1 20).
  cbn [until_return].
  change (range (0 - 0) 0) with [0].
  cbn [until_return].
  change (range 0 3) with [0; 1; 2; 3].
  cbn [until_return].
  unfold bind. exec. rewrite safety_check_origin, Hsafe. exec.
  reflexivity.
Qed.

(** ** kill_horde_master *)

Lemma kill_horde_master_run (w : world W) (p : npc) :
  find_npc S (ext w) (npc_id (miss w)) = Some p ->
  let center := npc_global_omt_location p in
  let w0 := after S w [ENpc (npc_getID p) (NpcSetAttitude NPCATT_FOLLOW)] in
  let site := fst (first_valid_site S center haunt_types w0) in
  let w1 := snd (first_valid_site S center haunt_types w0) in
  let before :=
    [EMission (WTarget site); EReveal site 6;
     EMap (MapLoad (wrap_int (px site * 2))
             (wrap_int (py site * 2)) (pz site) false);
     EMap (MapAddSpawn "mon_zombie_master" 1 (SEEX S) (SEEY S) false (-1)
             (uid (miss w)) "Demonic Soul");
     EMap (MapAddSpawn "mon_zombie_brute" 3 (SEEX S) (SEEY S) false (-1)
             (-1) "NONE");
     EMap (MapAddSpawn "mon_zombie_dog" 3 (SEEX S) (SEEY S) false (-1)
             (-1) "NONE")] in
  let loops :=
    if inbounds S (Tripoint (SEEX S) (SEEY S) 0) 1
    then
      for_each (range (SEEX S - 1) (SEEX S + 1)) (fun x =>
        bind (for_each (range (SEEY S - 1) (SEEY S + 1)) (fun y =>
                bind (rng S 3 10) (fun n =>
                  add_spawn S "mon_zombie" n x y)))
             (fun _ =>
                bind (rng S 0 2) (fun n =>
                  add_spawn S "mon_zombie_dog" n (SEEX S) (SEEY S))))
    else ret tt in
  snd (mission_start_kill_horde_master S w)
  = after S (snd (loops (after S w1 before)))
      [EMap (MapAddSpawn "mon_zombie_necro" 2 (SEEX S) (SEEY S) false (-1)
               (-1) "NONE");
       EMap (MapAddSpawn "mon_zombie_hulk" 1 (SEEX S) (SEEY S) false (-1)
               (-1) "NONE");
       EMap MapSave].
Proof.
  intros Hfound center w0 site w1 before loops.
  unfold mission_start_kill_horde_master.
  rewrite bind_run, get_miss_run. cbn [fst snd].
  rewrite bind_run, ask_run. cbn [fst snd].
  rewrite Hfound.
  rewrite bind_run, emit_after. cbn [fst snd].
  fold center w0.
  rewrite haunt_chain. rewrite bind_run. fold site w1.
  unfold map_load.
  rewrite bind_run, write_mission_after. cbn [fst snd].
  rewrite bind_run, reveal_after. cbn [fst snd].
  rewrite bind_run, emit_after. cbn [fst snd].
  rewrite bind_run, emit_after. cbn [fst snd].
  rewrite bind_run, add_spawn_after. cbn [fst snd].
  rewrite bind_run, add_spawn_after. cbn [fst snd].
  rewrite !after_app. cbn [app]. fold before.
  rewrite bind_run. fold loops.
  rewrite bind_run, add_spawn_after. cbn [fst snd].
  rewrite bind_run, add_spawn_after. cbn [fst snd].
  rewrite emit_after. cbn [snd].
  rewrite !after_app. reflexivity.
Qed.

(** When no search finds a valid site, [first_valid_site] has searched for
    every type and returns the invalid point. *)
Lemma first_valid_site_none (center : tripoint) (types : list string)
    (w : world W) :
  is_invalid S (fst (first_valid_site S center types w)) = true ->
  fst (first_valid_site S center types w) = invalid_tripoint S
  /\ snd (first_valid_site S center types w)
     = after S w (map (fun type => EFindClosest (haunt_query center type))
                      types).
Proof.
  revert w. induction types as [| type rest IH]; intros w Hinvalid.
  - cbn. rewrite after_nil. auto.
  - cbn [first_valid_site] in *. rewrite bind_run, find_closest_after in *.
    cbn [fst snd] in *.
    destruct (is_invalid S (ob_find_closest S (ext w) (haunt_query center type)))
      eqn:Hthis.
    + destruct (IH _ Hinvalid) as [Hsite Hrun].
      rewrite Hsite, Hrun, after_app. auto.
    + rewrite ret_run in Hinvalid. cbn [fst] in Hinvalid. congruence.
Qed.

(** X10.  [kill_horde_master] has no fallback site: when the mission's NPC
    is found but none of the four searches finds a valid site, all four
    searches are made and the invalid point becomes the mission's target
    and is revealed with radius 6.  The map is then loaded at the [int]
    products of its x and y with 2: for the invalid point of the game,
    which has the smallest [int] on all three axes, these wrap around, and
    the horde is spawned in the map at (0, 0) on the lowest level. *)
Theorem kill_horde_master_no_site (w : world W) (p : npc) :
  find_npc S (ext w) (npc_id (miss w)) = Some p ->
  let center := npc_global_omt_location p in
  let w0 := after S w [ENpc (npc_getID p) (NpcSetAttitude NPCATT_FOLLOW)] in
  let nowhere := invalid_tripoint S in
  is_invalid S (fst (first_valid_site S center haunt_types w0)) = true ->
  let load :=
    EMap (MapLoad (wrap_int (px nowhere * 2)) (wrap_int (py nowhere * 2))
            (pz nowhere) false) in
  exists horde,
    snd (mission_start_kill_horde_master S w)
    = after S w0
        (map (fun type =>
                EFindClosest (FindQuery center type 0 false false false None))
             ["office_tower_1"; "hotel_tower_1_8"; "school_5"; "forest_thick"]
         ++ [EMission (WTarget nowhere); EReveal nowhere 6; load]
         ++ horde)
    /\ Forall (fun e => is_add_spawn e || is_rng e || is_map_save e = true)
              horde
    /\ target (miss (snd (mission_start_kill_horde_master S w))) = nowhere
    /\ (nowhere = Tripoint int_min int_min int_min ->
        load = EMap (MapLoad 0 0 int_min false)).
Proof.
  intros Hfound center w0 nowhere Hnone load.
  pose proof (kill_horde_master_run w p Hfound) as Hrun. cbv zeta in Hrun.
  fold center w0 in Hrun.
  destruct (first_valid_site_none center haunt_types w0 Hnone) as [Hsite Hw1].
  rewrite Hsite, Hw1 in Hrun. fold nowhere in Hrun.
  match type of Hrun with context [snd ((if _ then _ else _) ?wx)] =>
    destruct (horde_loops_trace S wx) as (loops & Hloops & Hspawns) end.
  rewrite Hloops in Hrun. rewrite !after_app in Hrun.
  rewrite <- ?app_assoc in Hrun. cbn [app] in Hrun.
  clear Hloops.
  set (horde :=
         EMap (MapAddSpawn "mon_zombie_master" 1 (SEEX S) (SEEY S) false (-1)
                 (uid (miss w)) "Demonic Soul")
         :: EMap (MapAddSpawn "mon_zombie_brute" 3 (SEEX S) (SEEY S) false
                    (-1) (-1) "NONE")
         :: EMap (MapAddSpawn "mon_zombie_dog" 3 (SEEX S) (SEEY S) false
                    (-1) (-1) "NONE")
         :: loops
         ++ [EMap (MapAddSpawn "mon_zombie_necro" 2 (SEEX S) (SEEY S) false
                     (-1) (-1) "NONE");
             EMap (MapAddSpawn "mon_zombie_hulk" 1 (SEEX S) (SEEY S) false
                     (-1) (-1) "NONE");
             EMap MapSave]) in *.
  assert (Hhorde :
    Forall (fun e => is_add_spawn e || is_rng e || is_map_save e = true) horde).
  { unfold horde. do 3 (apply Forall_cons; [reflexivity |]).
    apply Forall_app. split.
    - eapply Forall_impl; [| exact Hspawns]. intros e He.
      rewrite He. reflexivity.
    - repeat constructor. }
  clearbody horde.
  exists horde. split; [exact Hrun |]. split; [exact Hhorde |].
  split.
  - rewrite Hrun, <- after_app.
    change ([EMission (WTarget nowhere); EReveal nowhere 6;
             EMap (MapLoad (wrap_int (px nowhere * 2))
                     (wrap_int (py nowhere * 2)) (pz nowhere) false)]
            ++ horde)
      with (EMission (WTarget nowhere)
            :: ([EReveal nowhere 6;
                 EMap (MapLoad (wrap_int (px nowhere * 2))
                         (wrap_int (py nowhere * 2)) (pz nowhere) false)]
                ++ horde)).
    apply target_after_write_first.
    do 2 (apply Forall_cons; [reflexivity |]).
    eapply Forall_impl; [| exact Hhorde].
    intros e He. destruct e; try discriminate; reflexivity.
  - intros Hmin. unfold load. rewrite Hmin. reflexivity.
Qed.

Lemma length_range (lo hi : Z) :
  List.length (range lo hi) = Z.to_nat (hi - lo + 1).
Proof. unfold range. rewrite length_map, length_seq. reflexivity. Qed.

Lemma spawn_counts_app (mon : string) (evs1 evs2 : list event) :
  spawn_counts mon (evs1 ++ evs2)
  = spawn_counts mon evs1 ++ spawn_counts mon evs2.
Proof. unfold spawn_counts. apply flat_map_app. Qed.

Lemma spawn_groups_app (mon : string) (n1 n2 : nat) (lo hi : Z)
    (evs1 evs2 : list event) :
  spawn_groups mon n1 lo hi evs1 -> spawn_groups mon n2 lo hi evs2 ->
  spawn_groups mon (n1 + n2) lo hi (evs1 ++ evs2).
Proof.
  intros [Hn1 Hc1] [Hn2 Hc2]. unfold spawn_groups.
  rewrite spawn_counts_app, length_app, Hn1, Hn2.
  split; [reflexivity | apply Forall_app; auto].
Qed.

(** A loop whose body adds [n] groups of [mon] adds [n] groups for every
    round. *)
Lemma for_each_groups {A : Type} (Q : nat -> list event -> Prop) (n : nat)
    (l : list A) (body : A -> M unit) :
  Q 0%nat [] ->
  (forall a b evs1 evs2, Q a evs1 -> Q b evs2 -> Q (a + b)%nat (evs1 ++ evs2)) ->
  (forall a w, exists evs, snd (body a w) = after S w evs /\ Q n evs) ->
  forall w : world W,
    exists evs,
      snd (for_each l body w) = after S w evs
      /\ Q (List.length l * n)%nat evs.
Proof.
  intros Hnil Happ Hbody. induction l as [| a rest IH]; intros w.
  - exists []. rewrite after_nil. auto.
  - cbn [for_each]. rewrite bind_run.
    destruct (Hbody a w) as (evs1 & Hw1 & Hq1). rewrite Hw1.
    destruct (IH (after S w evs1)) as (evs2 & Hw2 & Hq2).
    exists (evs1 ++ evs2). rewrite Hw2, after_app. split; [reflexivity |].
    cbn [List.length Nat.mul]. apply Happ; assumption.
Qed.

(** The loops of [kill_horde_master]: nine groups of zombies and three of
    zombie dogs, of the sizes that [rng] allows. *)
Lemma horde_loops_groups (w : world W) :
  rng_in_range S ->
  exists evs,
    snd (for_each (range (SEEX S - 1) (SEEX S + 1)) (fun x =>
           bind (for_each (range (SEEY S - 1) (SEEY S + 1)) (fun y =>
                   bind (rng S 3 10) (fun n =>
                     add_spawn S "mon_zombie" n x y)))
                (fun _ =>
                   bind (rng S 0 2) (fun n =>
                     add_spawn S "mon_zombie_dog" n (SEEX S) (SEEY S)))) w)
    = after S w evs
    /\ spawn_groups "mon_zombie" 9 3 10 evs
    /\ spawn_groups "mon_zombie_dog" 3 0 2 evs.
Proof.
  intros Hrng.
  set (Qin := fun (k : nat) (evs : list event) =>
                spawn_groups "mon_zombie" k 3 10 evs
                /\ spawn_groups "mon_zombie_dog" 0 0 2 evs).
  set (Qout := fun (k : nat) (evs : list event) =>
                 spawn_groups "mon_zombie" (3 * k) 3 10 evs
                 /\ spawn_groups "mon_zombie_dog" k 0 2 evs).
  assert (Hnil : forall mon lo hi, spawn_groups mon 0 lo hi [])
    by (intros; split; [reflexivity | constructor]).
  destruct (for_each_groups Qout 1 (range (SEEX S - 1) (SEEX S + 1))
              (fun x =>
                 bind (for_each (range (SEEY S - 1) (SEEY S + 1)) (fun y =>
                         bind (rng S 3 10) (fun n =>
                           add_spawn S "mon_zombie" n x y)))
                      (fun _ =>
                         bind (rng S 0 2) (fun n =>
                           add_spawn S "mon_zombie_dog" n (SEEX S) (SEEY S)))))
    with (w := w) as (evs & Hrun & Hz & Hd).
  - split; apply Hnil.
  - intros a b evs1 evs2 [Hz1 Hd1] [Hz2 Hd2]. split.
    + replace (3 * (a + b))%nat with (3 * a + 3 * b)%nat by lia.
      apply spawn_groups_app; assumption.
    + apply spawn_groups_app; assumption.
  - intros x w0. rewrite bind_run.
    destruct (for_each_groups Qin 1 (range (SEEY S - 1) (SEEY S + 1))
                (fun y => bind (rng S 3 10) (fun n =>
                            add_spawn S "mon_zombie" n x y)))
      with (w := w0) as (inner & Hinner & Hz & Hd).
    + split; apply Hnil.
    + intros a b evs1 evs2 [Hz1 Hd1] [Hz2 Hd2]. split.
      * apply spawn_groups_app; assumption.
      * apply (spawn_groups_app "mon_zombie_dog" 0 0); assumption.
    + intros y w1. unfold bind. exec. cbn [snd]. rewrite ?after_app.
      eexists. split; [reflexivity |]. split; split; cbn; try reflexivity.
      * constructor; [| constructor]. apply Hrng. lia.
      * constructor.
    + rewrite Hinner. rewrite length_range in Hz.
      replace (Z.to_nat (SEEY S + 1 - (SEEY S - 1) + 1) * 1)%nat with 3%nat
        in Hz by lia.
      unfold bind. exec. cbn [snd]. rewrite ?after_app.
      eexists. split; [reflexivity |]. split.
      * rewrite <- (app_nil_r (inner ++ _)).
        replace (3 * 1)%nat with (3 + 0 + 0)%nat by lia.
        repeat apply spawn_groups_app; try assumption;
          (split; cbn; [reflexivity | constructor]).
      * replace 1%nat with (0 + 1)%nat by lia.
        apply spawn_groups_app; [assumption |].
        split; cbn; [reflexivity |].
        constructor; [| constructor]. apply Hrng. lia.
  - exists evs. rewrite length_range in Hz, Hd.
    replace (Z.to_nat (SEEX S + 1 - (SEEX S - 1) + 1) * 1)%nat with 3%nat
      in Hz, Hd by lia.
    auto.
Qed.

Lemma spawn_counts_searches (mon : string) (center : tripoint)
    (types : list string) :
  spawn_counts mon
    (map (fun type => EFindClosest (haunt_query center type)) types) = [].
Proof. induction types as [| t rest IH]; [reflexivity | exact IH]. Qed.

(** X11.  With [rng] inside its bounds, the mission's NPC found and the
    centre of the map in bounds, the horde of [kill_horde_master] has nine
    groups of 3 to 10 zombies each, and four groups of zombie dogs: one of
    3 and three of at most 2 each. *)
Theorem kill_horde_master_horde (w : world W) (p : npc) :
  rng_in_range S ->
  find_npc S (ext w) (npc_id (miss w)) = Some p ->
  inbounds S (Tripoint (SEEX S) (SEEY S) 0) 1 = true ->
  exists evs dogs,
    snd (mission_start_kill_horde_master S w) = after S w evs
    /\ spawn_groups "mon_zombie" 9 3 10 evs
    /\ spawn_counts "mon_zombie_dog" evs = 3 :: dogs
    /\ List.length dogs = 3%nat
    /\ Forall (fun c => 0 <= c <= 2) dogs.
Proof.
  intros Hrng Hfound Hin.
  pose proof (kill_horde_master_run w p Hfound) as Hrun. cbv zeta in Hrun.
  rewrite Hin in Hrun.
  match type of Hrun with context [snd (for_each _ _ ?wx)] =>
    destruct (horde_loops_groups wx Hrng) as (loops & Hloops & Hz & Hd) end.
  rewrite Hloops in Hrun.
  destruct (first_valid_site_trace S (npc_global_omt_location p) haunt_types
              (after S w [ENpc (npc_getID p) (NpcSetAttitude NPCATT_FOLLOW)]))
    as (n & _ & _ & Hw1).
  rewrite Hw1 in Hrun. rewrite !after_app in Hrun.
  eexists. exists (spawn_counts "mon_zombie_dog" loops).
  split; [exact Hrun |].
  destruct Hz as [Hzn Hzc]. destruct Hd as [Hdn Hdc].
  unfold spawn_groups.
  rewrite !spawn_counts_app, !spawn_counts_searches. cbn.
  rewrite !app_nil_r. auto.
Qed.

(** ** Picking a tile of the loaded map *)

Lemma random_entry_member (container : list tripoint) (d : tripoint)
    (w : world W) :
  rng_in_range S -> container <> [] ->
  In (fst (random_entry S container d w)) container.
Proof.
  intros Hrng Hne. destruct container as [| a rest]; [congruence |].
  unfold random_entry, bind. exec. cbn [fst].
  apply nth_In.
  pose proof (Hrng (ext w) 0 (Z.of_nat (List.length (a :: rest)) - 1)) as Hi.
  cbn [List.length] in *. lia.
Qed.

Lemma in_map_tiles (x y : Z) :
  In (x, y) (map_tiles S)
  <-> 0 <= x <= SEEX S * 2 - 1 /\ 0 <= y <= SEEY S * 2 - 1.
Proof.
  unfold map_tiles. rewrite in_flat_map. split.
  - intros [x0 [Hx Hin]]. apply in_map_iff in Hin.
    destruct Hin as [y0 [Heq Hy]]. inversion Heq; subst.
    apply in_range in Hx. apply in_range in Hy. auto.
  - intros [Hx Hy]. exists x. split; [apply in_range; exact Hx |].
    apply in_map_iff. exists y. split; [reflexivity | apply in_range; exact Hy].
Qed.

Lemma in_around (x y x2 y2 : Z) :
  In (x2, y2) (around x y)
  <-> x - 1 <= x2 <= x + 1 /\ y - 1 <= y2 <= y + 1.
Proof.
  unfold around. rewrite in_flat_map. split.
  - intros [x0 [Hx Hin]]. apply in_map_iff in Hin.
    destruct Hin as [y0 [Heq Hy]]. inversion Heq; subst.
    apply in_range in Hx. apply in_range in Hy. auto.
  - intros [Hx Hy]. exists x2. split; [apply in_range; exact Hx |].
    apply in_map_iff. exists y2. split; [reflexivity | apply in_range; exact Hy].
Qed.

(** A loop that stops at the first hit finds a hit exactly when there is
    one. *)
Lemma first_hit_existsb (h : Z -> Z -> bool) (l : list (Z * Z)) (b : bool) :
  fold_left (fun (okay : bool) (t : Z * Z) =>
               let (x2, y2) := t in if okay then okay else h x2 y2) l b
  = b || existsb (fun t => h (fst t) (snd t)) l.
Proof.
  revert b. induction l as [| [x2 y2] rest IH]; intros b; cbn.
  - rewrite orb_false_r. reflexivity.
  - rewrite IH. destruct b; reflexivity.
Qed.

Lemma next_to_metal_wall_spec (e : W) (x y : Z) :
  next_to_metal_wall S e x y = true
  <-> exists x2 y2,
        x - 1 <= x2 <= x + 1 /\ y - 1 <= y2 <= y + 1
        /\ tm_ter S e x2 y2 = "t_wall_metal".
Proof.
  unfold next_to_metal_wall.
  rewrite (first_hit_existsb
             (fun x2 y2 => String.eqb (tm_ter S e x2 y2) "t_wall_metal")).
  cbn [orb]. rewrite existsb_exists. split.
  - intros [[x2 y2] [Hin Hwall]]. apply in_around in Hin.
    apply String.eqb_eq in Hwall. exists x2, y2. tauto.
  - intros (x2 & y2 & Hx & Hy & Hwall). exists (x2, y2). split.
    + apply in_around. auto.
    + apply String.eqb_eq. exact Hwall.
Qed.

Lemma deposit_box_points_spec (e : W) (z : Z) (p : tripoint) :
  In p (deposit_box_points S e z)
  <-> 0 <= px p <= SEEX S * 2 - 1 /\ 0 <= py p <= SEEY S * 2 - 1 /\ pz p = z
      /\ tm_ter S e (px p) (py p) = "t_floor"
      /\ next_to_metal_wall S e (px p) (py p) = true.
Proof.
  unfold deposit_box_points. rewrite in_flat_map. split.
  - intros [[x y] [Htile Hin]]. apply in_map_tiles in Htile.
    destruct (String.eqb (tm_ter S e x y) "t_floor") eqn:Hfloor;
      [| contradiction].
    destruct (next_to_metal_wall S e x y) eqn:Hwall; [| contradiction].
    destruct Hin as [<- | []]. cbn [px py pz].
    apply String.eqb_eq in Hfloor. tauto.
  - intros (Hx & Hy & Hz & Hfloor & Hwall). exists (px p, py p). split.
    + apply in_map_tiles. auto.
    + rewrite Hfloor, Hwall. left. destruct p. cbn in *. congruence.
Qed.

Lemma broken_consoles_spec (e : W) (z : Z) (p : tripoint) :
  In p (broken_consoles S e z)
  <-> 0 <= px p <= SEEX S * 2 - 1 /\ 0 <= py p <= SEEY S * 2 - 1 /\ pz p = z
      /\ tm_ter S e (px p) (py p) = "t_console_broken".
Proof.
  unfold broken_consoles. rewrite in_flat_map. split.
  - intros [[x y] [Htile Hin]]. apply in_map_tiles in Htile.
    destruct (String.eqb (tm_ter S e x y) "t_console_broken") eqn:Hbroken;
      [| contradiction].
    destruct Hin as [<- | []]. cbn [px py pz].
    apply String.eqb_eq in Hbroken. tauto.
  - intros (Hx & Hy & Hz & Hbroken). exists (px p, py p). split.
    + apply in_map_tiles. auto.
    + rewrite Hbroken. left. destruct p. cbn in *. congruence.
Qed.

Lemma diary_points_spec (e : W) (z : Z) (p : tripoint) :
  In p (diary_points S e z)
  <-> 0 <= px p <= SEEX S * 2 - 1 /\ 0 <= py p <= SEEY S * 2 - 1 /\ pz p = z
      /\ In (tm_furn S e (px p) (py p))
            ["f_bed"; "f_dresser"; "f_indoor_plant"; "f_cupboard"].
Proof.
  unfold diary_points. rewrite in_flat_map. split.
  - intros [[x y] [Htile Hin]]. apply in_map_tiles in Htile.
    destruct (String.eqb (tm_furn S e x y) "f_bed") eqn:H1;
    destruct (String.eqb (tm_furn S e x y) "f_dresser") eqn:H2;
    destruct (String.eqb (tm_furn S e x y) "f_indoor_plant") eqn:H3;
    destruct (String.eqb (tm_furn S e x y) "f_cupboard") eqn:H4;
    cbn [orb] in Hin; try contradiction;
    destruct Hin as [<- | []]; cbn [px py pz];
    repeat match goal with
           | H : String.eqb _ _ = true |- _ => apply String.eqb_eq in H
           end;
    cbn [In]; intuition congruence.
  - intros (Hx & Hy & Hz & Hfurn). exists (px p, py p). split.
    + apply in_map_tiles. auto.
    + assert (Hany :
        String.eqb (tm_furn S e (px p) (py p)) "f_bed"
        || String.eqb (tm_furn S e (px p) (py p)) "f_dresser"
        || String.eqb (tm_furn S e (px p) (py p)) "f_indoor_plant"
        || String.eqb (tm_furn S e (px p) (py p)) "f_cupboard" = true).
      { cbn [In] in Hfurn. rewrite !orb_true_iff, !String.eqb_eq.
        intuition congruence. }
      rewrite Hany. left. destruct p. cbn in *. congruence.
Qed.

Lemma potential_points_z (e : W) (z : Z) (p : tripoint) :
  In p (potential_points S e z) -> pz p = z.
Proof.
  unfold potential_points. rewrite in_flat_map.
  intros [[x y] [_ Hin]].
  destruct (String.eqb (tm_ter S e x y) "t_console_broken"); [contradiction |].
  destruct (String.eqb (tm_ter S e x y) "t_floor"
            && String.eqb (tm_furn S e x y) "f_null"); [| contradiction].
  destruct (bed_and_walls S e x y) as [okay wall].
  apply in_app_or in Hin.
  destruct Hin as [Hin | Hin];
    match type of Hin with In _ (if ?c then _ else _) => destruct c end;
    try contradiction; destruct Hin as [<- | []]; reflexivity.
Qed.

(** X12.  With [rng] inside its bounds, [find_potential_computer_point]
    returns a point on the given z-level.  When the loaded map has a broken
    console, the point is the tile of a broken console; when it has none
    but has potential points, it is one of these; and when it has neither,
    it is the fallback, between 10 and [SEEX * 2 - 11] on x and between 10
    and [SEEY * 2 - 11] on y. *)
Theorem find_potential_computer_point_prefers_broken (z : Z) (w : world W) :
  rng_in_range S ->
  let point := fst (find_potential_computer_point S z w) in
  pz point = z
  /\ (broken_consoles S (ext w) z <> [] ->
      tm_ter S (ext w) (px point) (py point) = "t_console_broken"
      /\ 0 <= px point <= SEEX S * 2 - 1 /\ 0 <= py point <= SEEY S * 2 - 1)
  /\ (broken_consoles S (ext w) z = [] ->
      potential_points S (ext w) z <> [] ->
      In point (potential_points S (ext w) z))
  /\ (broken_consoles S (ext w) z = [] ->
      potential_points S (ext w) z = [] ->
      10 <= SEEX S * 2 - 11 -> 10 <= SEEY S * 2 - 11 ->
      10 <= px point <= SEEX S * 2 - 11 /\ 10 <= py point <= SEEY S * 2 - 11).
Proof.
  intros Hrng point. subst point.
  unfold find_potential_computer_point, bind. exec.
  destruct (broken_consoles S (ext w) z) as [| b brest] eqn:Hbroken;
    cbv iota.
  - destruct (potential_points S (ext w) z) as [| q qrest] eqn:Hpotential.
    + rewrite random_entry_nil. cbn [fst px py pz].
      split; [reflexivity |]. split; [congruence |]. split; [congruence |].
      intros _ _ Hx Hy. split; apply Hrng; assumption.
    + match goal with |- context [random_entry S ?l ?d ?wx] =>
        assert (Hin : In (fst (random_entry S l d wx)) l)
          by (apply random_entry_member; [exact Hrng | congruence])
      end.
      pose proof Hin as Hin'. rewrite <- Hpotential in Hin' at 2.
      split; [eapply potential_points_z; exact Hin' |].
      split; [congruence |]. split; [| congruence].
      intros _ _. exact Hin.
  - match goal with |- context [random_entry S ?l ?d ?wx] =>
      assert (Hin : In (fst (random_entry S l d wx)) l)
        by (apply random_entry_member; [exact Hrng | congruence])
    end.
    rewrite <- Hbroken in Hin at 2.
    apply broken_consoles_spec in Hin.
    split; [tauto |]. split; [intros _; tauto |].
    split; congruence.
Qed.

(** ** place_deposit_box *)

Lemma place_deposit_box_run (w : world W) (p : npc) :
  find_npc S (ext w) (npc_id (miss w)) = Some p ->
  let here := npc_global_omt_location p in
  let w0 := after S w [ENpc (npc_getID p) (NpcSetAttitude NPCATT_FOLLOW)] in
  let qb := FindQuery here "bank" 0 false false false None in
  let qo := FindQuery here "office_tower_1" 0 false false false None in
  let bank := ob_find_closest S (ext w0) qb in
  let office := ob_find_closest S (ext (after S w0 [EFindClosest qb])) qo in
  let searches :=
    if is_invalid S bank
    then EFindClosest qb :: EFindClosest qo
         :: (if is_invalid S office
             then [EDebugmsg "Couldn't find a place for deposit box" []]
             else [])
    else [EFindClosest qb] in
  let site :=
    if is_invalid S bank
    then (if is_invalid S office then here else office)
    else bank in
  let w2 := after S w0
              (searches
               ++ [EMission (WTarget site); EReveal site 2;
                   EMap (MapLoad (wrap_int (px site * 2))
                           (wrap_int (py site * 2)) (pz site) false)]) in
  let fx := rng_value S (ext w2) 6 (SEEX S * 2 - 7) in
  let w3 := after S w2 [ERng 6 (SEEX S * 2 - 7)] in
  let fy := rng_value S (ext w3) 6 (SEEY S * 2 - 7) in
  let w4 := after S w3 [ERng 6 (SEEY S * 2 - 7)] in
  let pick := random_entry S (deposit_box_points S (ext w2) (pz site))
                (Tripoint fx fy (pz site)) w4 in
  snd (mission_start_place_deposit_box S w)
  = after S (snd pick) [EMap (MapSpawnItem (fst pick) "safe_box"); EMap MapSave].
Proof.
  intros Hfound. cbv zeta.
  unfold mission_start_place_deposit_box, bind. exec. rewrite Hfound. exec.
  destruct (is_invalid S
              (ob_find_closest S
                 (ext (after S w [ENpc (npc_getID p)
                                    (NpcSetAttitude NPCATT_FOLLOW)]))
                 (FindQuery (npc_global_omt_location p) "bank" 0 false false
                    false None))) eqn:Hbank; exec.
  - match goal with |- context [is_invalid S ?o] =>
      destruct (is_invalid S o) eqn:Hoffice end; exec;
      unfold map_load; exec;
      match goal with |- context [random_entry S ?l ?d ?wx] =>
        destruct (random_entry S l d wx) as [point w5] end;
      exec; reflexivity.
  - rewrite Hbank. exec. unfold map_load. exec.
    match goal with |- context [random_entry S ?l ?d ?wx] =>
      destruct (random_entry S l d wx) as [point w5] end.
    exec. reflexivity.
Qed.

Lemma target_after_write_mid (w : world W) (pre post : list event)
    (p : tripoint) :
  Forall (fun e => is_mission_write e = false) post ->
  target (miss (after S w (pre ++ EMission (WTarget p) :: post))) = p.
Proof.
  intros Hpost. rewrite <- after_app. apply target_after_write_first.
  exact Hpost.
Qed.

(** X13.  When the mission's NPC is found, [place_deposit_box] makes the
    NPC follow and takes as site the closest "bank", else the closest
    "office_tower_1", else the NPC's own location, with the debug message
    "Couldn't find a place for deposit box" in exactly the last case.  The
    site becomes the target, is revealed with radius 2 and is where the map
    is loaded (at the [int] products of its x and y with 2); after that
    come only random draws and calls on the map.  When the NPC's location
    is valid, so is the target. *)
Theorem place_deposit_box_site (w : world W) (p : npc) :
  find_npc S (ext w) (npc_id (miss w)) = Some p ->
  let here := npc_global_omt_location p in
  let w0 := after S w [ENpc (npc_getID p) (NpcSetAttitude NPCATT_FOLLOW)] in
  let qb := FindQuery here "bank" 0 false false false None in
  let qo := FindQuery here "office_tower_1" 0 false false false None in
  let bank := ob_find_closest S (ext w0) qb in
  let office := ob_find_closest S (ext (after S w0 [EFindClosest qb])) qo in
  let searches :=
    if is_invalid S bank
    then EFindClosest qb :: EFindClosest qo
         :: (if is_invalid S office
             then [EDebugmsg "Couldn't find a place for deposit box" []]
             else [])
    else [EFindClosest qb] in
  let site :=
    if is_invalid S bank
    then (if is_invalid S office then here else office)
    else bank in
  exists rest,
    snd (mission_start_place_deposit_box S w)
    = after S w0
        (searches
         ++ [EMission (WTarget site); EReveal site 2;
             EMap (MapLoad (wrap_int (px site * 2))
                     (wrap_int (py site * 2)) (pz site) false)]
         ++ rest)
    /\ Forall (fun e => is_rng e || is_map_call e = true) rest
    /\ target (miss (snd (mission_start_place_deposit_box S w))) = site
    /\ (is_invalid S here = false -> is_invalid S site = false).
Proof.
  intros Hfound here w0 qb qo bank office searches site.
  pose proof (place_deposit_box_run w p Hfound) as Hrun. cbv zeta in Hrun.
  fold here w0 qb qo bank office searches site in Hrun.
  match type of Hrun with context [random_entry S ?l ?d ?wx] =>
    destruct (random_entry_emits S l d wx) as (rngs & Hrngs & Hpick);
    set (point := fst (random_entry S l d wx)) in * end.
  rewrite Hpick in Hrun. rewrite !after_app in Hrun.
  rewrite <- !app_assoc in Hrun.
  assert (Hrest : Forall (fun e => is_rng e || is_map_call e = true)
            ([ERng 6 (SEEX S * 2 - 7)] ++ [ERng 6 (SEEY S * 2 - 7)] ++ rngs
             ++ [EMap (MapSpawnItem point "safe_box"); EMap MapSave])).
  { repeat (apply Forall_app; split); try (repeat constructor; fail).
    eapply Forall_impl; [| exact Hrngs]. intros e He. rewrite He. reflexivity. }
  eexists. split; [exact Hrun |]. split; [exact Hrest |]. split.
  - rewrite Hrun. cbn [app].
    apply target_after_write_mid.
    do 2 (apply Forall_cons; [reflexivity |]).
    eapply Forall_impl; [| exact Hrest].
    intros e He. destruct e; try discriminate; reflexivity.
  - intros Hhere. subst site.
    destruct (is_invalid S bank) eqn:Hbank; [| exact Hbank].
    destruct (is_invalid S office) eqn:Hoffice; [exact Hhere | exact Hoffice].
Qed.

(** The run of [place_deposit_box] around the loading of the map. *)
Lemma place_deposit_box_shape (w : world W) (p : npc) :
  find_npc S (ext w) (npc_id (miss w)) = Some p ->
  exists pre site,
    let w2 := after S w
                (pre ++ [EMap (MapLoad (wrap_int (px site * 2))
                                 (wrap_int (py site * 2)) (pz site)
                                 false)]) in
    let fx := rng_value S (ext w2) 6 (SEEX S * 2 - 7) in
    let w3 := after S w2 [ERng 6 (SEEX S * 2 - 7)] in
    let fy := rng_value S (ext w3) 6 (SEEY S * 2 - 7) in
    let w4 := after S w3 [ERng 6 (SEEY S * 2 - 7)] in
    let pick := random_entry S (deposit_box_points S (ext w2) (pz site))
                  (Tripoint fx fy (pz site)) w4 in
    snd (mission_start_place_deposit_box S w)
    = after S (snd pick)
        [EMap (MapSpawnItem (fst pick) "safe_box"); EMap MapSave]
    /\ target (miss w2) = site.
Proof.
  intros Hfound.
  pose proof (place_deposit_box_run w p Hfound) as Hrun. cbv zeta in Hrun.
  set (w0 := after S w [ENpc (npc_getID p) (NpcSetAttitude NPCATT_FOLLOW)])
    in *.
  match type of Hrun with
    context [after S w0 (?searches ++ [EMission (WTarget ?site); ?rev; ?load])] =>
      set (sr := searches) in *; set (st := site) in *
  end.
  exists ([ENpc (npc_getID p) (NpcSetAttitude NPCATT_FOLLOW)] ++ sr
          ++ [EMission (WTarget st); EReveal st 2]), st.
  assert (Hw2 :
    after S w
      (([ENpc (npc_getID p) (NpcSetAttitude NPCATT_FOLLOW)] ++ sr
        ++ [EMission (WTarget st); EReveal st 2])
       ++ [EMap (MapLoad (wrap_int (px st * 2))
                   (wrap_int (py st * 2)) (pz st) false)])
    = after S w0
        (sr ++ [EMission (WTarget st); EReveal st 2;
                EMap (MapLoad (wrap_int (px st * 2))
                        (wrap_int (py st * 2)) (pz st) false)])).
  { unfold w0. rewrite after_app. f_equal. rewrite <- !app_assoc. reflexivity. }
  cbv zeta. rewrite Hw2. split; [exact Hrun |].
  unfold w0. rewrite after_app, app_assoc.
  apply target_after_write_mid. repeat constructor.
Qed.

(** X14.  With [rng] inside its bounds and the mission's NPC found,
    [place_deposit_box] puts the safe box on the z-level of the target.
    When the map, as it is right after loading, has a floor tile next to a
    metal wall, the box lies on such a tile; when it has none, the box goes
    to the fallback, between 6 and [SEEX * 2 - 7] on x and between 6 and
    [SEEY * 2 - 7] on y.  The spawn of the box and the save are the last
    two calls. *)
Theorem place_deposit_box_box (w : world W) (p : npc) :
  find_npc S (ext w) (npc_id (miss w)) = Some p ->
  rng_in_range S ->
  let site := target (miss (snd (mission_start_place_deposit_box S w))) in
  exists pre draws point,
    snd (mission_start_place_deposit_box S w)
    = after S w
        ((pre ++ [EMap (MapLoad (wrap_int (px site * 2))
                          (wrap_int (py site * 2)) (pz site) false)])
         ++ draws
         ++ [EMap (MapSpawnItem point "safe_box"); EMap MapSave])
    /\ Forall (fun e => is_rng e = true) draws
    /\ pz point = pz site
    /\ let e := ext (after S w
                       (pre ++ [EMap (MapLoad (wrap_int (px site * 2))
                                        (wrap_int (py site * 2))
                                        (pz site) false)])) in
       (deposit_box_points S e (pz site) <> [] ->
        0 <= px point <= SEEX S * 2 - 1 /\ 0 <= py point <= SEEY S * 2 - 1
        /\ tm_ter S e (px point) (py point) = "t_floor"
        /\ exists x2 y2,
             px point - 1 <= x2 <= px point + 1
             /\ py point - 1 <= y2 <= py point + 1
             /\ tm_ter S e x2 y2 = "t_wall_metal")
       /\ (deposit_box_points S e (pz site) = [] ->
           6 <= SEEX S * 2 - 7 -> 6 <= SEEY S * 2 - 7 ->
           6 <= px point <= SEEX S * 2 - 7 /\ 6 <= py point <= SEEY S * 2 - 7).
Proof.
  intros Hfound Hrng site.
  destruct (place_deposit_box_shape w p Hfound) as (pre & site0 & Hrun & Htarget).
  cbv zeta in Hrun, Htarget.
  set (loaded := after S w
                   (pre ++ [EMap (MapLoad (wrap_int (px site0 * 2))
                                    (wrap_int (py site0 * 2))
                                    (pz site0) false)])) in *.
  match type of Hrun with context [random_entry S ?l ?d ?wx] =>
    destruct (random_entry_emits S l d wx) as (rngs & Hrngs & Hpick);
    pose proof (random_entry_member l d wx Hrng) as Hmember;
    pose proof (random_entry_nil S d wx) as Hnil;
    set (point := fst (random_entry S l d wx)) in * end.
  rewrite Hpick in Hrun.
  assert (Hflat : snd (mission_start_place_deposit_box S w)
                  = after S loaded
                      (([ERng 6 (SEEX S * 2 - 7); ERng 6 (SEEY S * 2 - 7)]
                        ++ rngs)
                       ++ [EMap (MapSpawnItem point "safe_box"); EMap MapSave])).
  { rewrite Hrun, !after_app. reflexivity. }
  assert (Hsite : site = site0).
  { subst site. rewrite Hflat, <- Htarget.
    unfold after at 1. cbn [miss]. f_equal. apply replay_no_write.
    apply Forall_app. split; [| repeat constructor].
    do 2 (apply Forall_cons; [reflexivity |]).
    eapply Forall_impl; [| exact Hrngs].
    intros e He. destruct e; try discriminate; reflexivity. }
  clearbody site. subst site.
  exists pre, ([ERng 6 (SEEX S * 2 - 7); ERng 6 (SEEY S * 2 - 7)] ++ rngs), point.
  fold loaded.
  split; [| split; [| split; [| split]]].
  - rewrite Hflat. unfold loaded. rewrite after_app. reflexivity.
  - do 2 (apply Forall_cons; [reflexivity |]). exact Hrngs.
  - destruct (deposit_box_points S (ext loaded) (pz site0)) as [| a l] eqn:Hpoints.
    + subst point. rewrite Hnil. reflexivity.
    + assert (Hin : In point (a :: l)) by (apply Hmember; congruence).
      rewrite <- Hpoints in Hin. apply deposit_box_points_spec in Hin. tauto.
  - intros Hsome. specialize (Hmember Hsome).
    apply deposit_box_points_spec in Hmember.
    destruct Hmember as (Hx & Hy & _ & Hfloor & Hwall).
    apply next_to_metal_wall_spec in Hwall. tauto.
  - intros Hnone Hx Hy. subst point. rewrite Hnone, random_entry_nil.
    cbn [fst px py]. split; apply Hrng; assumption.
Qed.

(** ** place_priest_diary *)

Lemma place_priest_diary_run (w : world W) :
  let place := fst (random_house_in_closest_city S w) in
  let loaded :=
    after S (snd (random_house_in_closest_city S w))
      [EMission (WTarget place); EReveal place 2;
       EMap (MapLoad (wrap_int (px place * 2))
               (wrap_int (py place * 2)) (pz place) false)] in
  let fx := rng_value S (ext loaded) 6 (SEEX S * 2 - 7) in
  let w3 := after S loaded [ERng 6 (SEEX S * 2 - 7)] in
  let fy := rng_value S (ext w3) 6 (SEEY S * 2 - 7) in
  let w4 := after S w3 [ERng 6 (SEEY S * 2 - 7)] in
  let pick := random_entry S (diary_points S (ext loaded) (pz place))
                (Tripoint fx fy (pz place)) w4 in
  snd (mission_start_place_priest_diary S w)
  = after S (snd pick)
      [EMap (MapSpawnItem (fst pick) "priest_diary"); EMap MapSave].
Proof.
  cbv zeta. unfold mission_start_place_priest_diary. rewrite bind_run.
  unfold bind, map_load. exec.
  match goal with |- context [random_entry S ?l ?d ?wx] =>
    destruct (random_entry S l d wx) as [point w5] end.
  exec. reflexivity.
Qed.

(** X15.  [place_priest_diary] needs no NPC.  With [rng] inside its bounds
    it makes the house that [random_house_in_closest_city] returns the
    target, reveals it with radius 2, loads the map there (at the [int]
    products of its x and y with 2), and spawns the
    diary on the z-level of the target: on a tile with a bed, a dresser, an
    indoor plant or a cupboard when the loaded map has one, and otherwise at
    the fallback, between 6 and [SEEX * 2 - 7] on x and between 6 and
    [SEEY * 2 - 7] on y. *)
Theorem place_priest_diary_point (w : world W) :
  rng_in_range S ->
  let place := fst (random_house_in_closest_city S w) in
  let loaded :=
    after S (snd (random_house_in_closest_city S w))
      [EMission (WTarget place); EReveal place 2;
       EMap (MapLoad (wrap_int (px place * 2))
               (wrap_int (py place * 2)) (pz place) false)] in
  exists draws point,
    snd (mission_start_place_priest_diary S w)
    = after S loaded
        (draws ++ [EMap (MapSpawnItem point "priest_diary"); EMap MapSave])
    /\ Forall (fun e => is_rng e = true) draws
    /\ target (miss (snd (mission_start_place_priest_diary S w))) = place
    /\ pz point = pz place
    /\ (diary_points S (ext loaded) (pz place) <> [] ->
        0 <= px point <= SEEX S * 2 - 1 /\ 0 <= py point <= SEEY S * 2 - 1
        /\ In (tm_furn S (ext loaded) (px point) (py point))
              ["f_bed"; "f_dresser"; "f_indoor_plant"; "f_cupboard"])
    /\ (diary_points S (ext loaded) (pz place) = [] ->
        6 <= SEEX S * 2 - 7 -> 6 <= SEEY S * 2 - 7 ->
        6 <= px point <= SEEX S * 2 - 7 /\ 6 <= py point <= SEEY S * 2 - 7).
Proof.
  intros Hrng place loaded.
  pose proof (place_priest_diary_run w) as Hrun. cbv zeta in Hrun.
  fold place in Hrun. fold loaded in Hrun.
  match type of Hrun with context [random_entry S ?l ?d ?wx] =>
    destruct (random_entry_emits S l d wx) as (rngs & Hrngs & Hpick);
    pose proof (random_entry_member l d wx Hrng) as Hmember;
    pose proof (random_entry_nil S d wx) as Hnil;
    set (point := fst (random_entry S l d wx)) in * end.
  rewrite Hpick in Hrun.
  assert (Hflat : snd (mission_start_place_priest_diary S w)
                  = after S loaded
                      (([ERng 6 (SEEX S * 2 - 7); ERng 6 (SEEY S * 2 - 7)]
                        ++ rngs)
                       ++ [EMap (MapSpawnItem point "priest_diary");
                           EMap MapSave])).
  { rewrite Hrun, !after_app. reflexivity. }
  exists ([ERng 6 (SEEX S * 2 - 7); ERng 6 (SEEY S * 2 - 7)] ++ rngs), point.
  split; [exact Hflat |].
  split; [do 2 (apply Forall_cons; [reflexivity |]); exact Hrngs |].
  split; [| split; [| split]].
  - rewrite Hflat. unfold loaded. rewrite after_app. cbn [app].
    apply target_after_write_first.
    do 4 (apply Forall_cons; [reflexivity |]).
    apply Forall_app. split; [| repeat constructor].
    eapply Forall_impl; [| exact Hrngs].
    intros e He. destruct e; try discriminate; reflexivity.
  - destruct (diary_points S (ext loaded) (pz place)) as [| a l] eqn:Hpoints.
    + subst point. rewrite Hnil. reflexivity.
    + assert (Hin : In point (a :: l)) by (apply Hmember; congruence).
      rewrite <- Hpoints in Hin. apply diary_points_spec in Hin. tauto.
  - intros Hsome. specialize (Hmember Hsome).
    apply diary_points_spec in Hmember. tauto.
  - intros Hnone Hx Hy. subst point. rewrite Hnone, random_entry_nil.
    cbn [fst px py]. split; apply Hrng; assumption.
Qed.

(** X16.  When [closest_city] finds no city, [place_priest_diary] still
    places the diary: after the debug message of the failed search it makes
    the player's own overmap tile the target, reveals it with radius 2 and
    loads the map there (at the [int] products of its x and y with 2). *)
Theorem place_priest_diary_no_city (w : world W) :
  cref_city (ob_closest_city S (ext w) (u_global_sm_location S (ext w))) = None ->
  let here :=
    u_global_omt_location S
      (ext (after S w [EDebugmsg "could not find closest city" []])) in
  exists rest,
    snd (mission_start_place_priest_diary S w)
    = after S w
        ([EDebugmsg "could not find closest city" [];
          EMission (WTarget here); EReveal here 2;
          EMap (MapLoad (wrap_int (px here * 2))
                  (wrap_int (py here * 2)) (pz here) false)]
         ++ rest)
    /\ Forall (fun e => is_rng e || is_map_call e = true) rest
    /\ target (miss (snd (mission_start_place_priest_diary S w))) = here.
Proof.
  intros Hnone here.
  assert (Hhouse : random_house_in_closest_city S w
                   = (here, after S w [EDebugmsg "could not find closest city" []])).
  { unfold random_house_in_closest_city, bind. exec. rewrite Hnone. exec.
    reflexivity. }
  pose proof (place_priest_diary_run w) as Hrun. cbv zeta in Hrun.
  rewrite Hhouse in Hrun. cbn [fst snd] in Hrun.
  match type of Hrun with context [random_entry S ?l ?d ?wx] =>
    destruct (random_entry_emits S l d wx) as (rngs & Hrngs & Hpick);
    set (point := fst (random_entry S l d wx)) in * end.
  rewrite Hpick in Hrun. rewrite !after_app in Hrun.
  cbn [app] in Hrun. rewrite <- ?app_assoc in Hrun. cbn [app] in Hrun.
  assert (Hrest : Forall (fun e => is_rng e || is_map_call e = true)
            (ERng 6 (SEEX S * 2 - 7) :: ERng 6 (SEEY S * 2 - 7)
             :: rngs ++ [EMap (MapSpawnItem point "priest_diary");
                         EMap MapSave])).
  { do 2 (apply Forall_cons; [reflexivity |]).
    apply Forall_app. split; [| repeat constructor].
    eapply Forall_impl; [| exact Hrngs]. intros e He. rewrite He. reflexivity. }
  eexists. split; [exact Hrun |]. split; [exact Hrest |].
  rewrite Hrun.
  apply (target_after_write_mid w [EDebugmsg "could not find closest city" []]).
  do 2 (apply Forall_cons; [reflexivity |]).
  eapply Forall_impl; [| exact Hrest].
  intros e He. destruct e; try discriminate; reflexivity.
Qed.

(** ** reveal_destination *)

(** X17.  With [rng] inside its bounds, [reveal_destination] draws a search
    radius between 40 and 80, makes one random search of that radius around
    the player, and reveals with radius 2 around the result exactly when
    the result is valid; it returns the result, which is the invalid point
    exactly when nothing was revealed. *)
Theorem reveal_destination_reveals (type : string) (w : world W) :
  rng_in_range S ->
  let radius := rng_value S (ext w) 40 80 in
  let q := FindQuery (u_global_omt_location S (ext w)) type radius false false
             false None in
  let center := ob_find_random S (ext (after S w [ERng 40 80])) q in
  40 <= radius <= 80
  /\ fst (reveal_destination S type w) = center
  /\ snd (reveal_destination S type w)
     = after S w
         ([ERng 40 80; EFindRandom q]
          ++ (if is_invalid S center then [] else [EReveal center 2])).
Proof.
  intros Hrng radius q center.
  split; [apply Hrng; lia |].
  unfold reveal_destination, bind. exec. fold radius. fold q. fold center.
  destruct (is_invalid S center) eqn:Hcenter; cbn [negb]; exec.
  - apply tripoint_eqb_eq in Hcenter.
    split; [symmetry; exact Hcenter | reflexivity].
  - split; reflexivity.
Qed.

(** ** place_npc_software *)

Lemma find_potential_computer_point_trace (z : Z) (w : world W) :
  exists rngs,
    Forall (fun e => is_rng e = true) rngs
    /\ snd (find_potential_computer_point S z w) = after S w rngs.
Proof.
  unfold find_potential_computer_point, bind. exec.
  match goal with |- context [random_entry S ?l ?d ?wx] =>
    destruct (random_entry_emits S l d wx) as (rngs & Hrngs & Hpick) end.
  rewrite Hpick, after_app. eexists. split; [| reflexivity].
  do 2 (apply Forall_cons; [reflexivity |]). exact Hrngs.
Qed.

Ltac software_tail :=
  unfold map_load; exec;
  match goal with |- context [if ?c then find_potential_computer_point _ _ else _] =>
    destruct c
  end;
  [ match goal with |- context [find_potential_computer_point S ?z ?wx] =>
      destruct (find_potential_computer_point S z wx) as [point w2] end
  | ];
  exec; reflexivity.

Ltac house_case Hkeep :=
  match goal with |- context [random_house_in_closest_city ?S0 ?wx] =>
    let evs := fresh "evs" in
    let Hw1 := fresh "Hw1" in
    let Hevs := fresh "Hevs" in
    let place := fresh "place" in
    let w1 := fresh "w1" in
    destruct (random_house_in_closest_city_trace S0 wx)
      as (evs & Hw1 & Hevs & _);
    destruct (random_house_in_closest_city S0 wx) as [place w1];
    cbn [snd] in Hw1; subst w1;
    rewrite ?after_app;
    match goal with |- context [after _ _ (?l ++ evs)] =>
      exists (l ++ evs), place;
      cbv zeta; split;
      [ rewrite <- !app_assoc; cbn [app]; software_tail |];
      unfold after; cbn [miss]; unfold replay at 1 2;
      rewrite !fold_left_app; cbn [fold_left apply_event apply_write];
      fold (replay evs); rewrite !Hkeep by exact Hevs;
      split; [reflexivity |]; split; [reflexivity |];
      split;
      [ repeat (apply Forall_cons; [reflexivity |]);
        eapply Forall_impl; [| exact Hevs];
        let e := fresh "e" in let He := fresh "He" in
        intros e He; destruct e; try discriminate; reflexivity
      | split;
        [ repeat (apply Forall_cons; [reflexivity |]);
          eapply Forall_impl; [| exact Hevs];
          let e := fresh "e" in let He := fresh "He" in
          intros e He; destruct e; try discriminate; reflexivity
        | let Hd := fresh "Hd" in intros Hd; discriminate Hd ] ]
    end
  end.

Lemma place_npc_software_run (w : world W) (dev : npc) :
  find_npc S (ext w) (npc_id (miss w)) = Some dev ->
  exists pre place,
    let loaded :=
      after S w
        (pre ++ [EMission (WTarget place); EReveal place 6;
                 EMap (MapLoad (wrap_int (px place * 2))
                         (wrap_int (py place * 2)) (pz place) false)]) in
    let oter := ob_ter S (ext loaded) place in
    let at_house :=
      is_ot_type S "house" oter || is_ot_type S "s_pharm" oter
      || String.eqb oter "" in
    let pick := find_potential_computer_point S (pz place) loaded in
    snd (mission_start_place_npc_software S w)
    = (if at_house
       then after S (snd pick) (software_console (fst pick) dev (uid (miss w)))
       else after S loaded (software_console (Tripoint 0 0 0) dev (uid (miss w))))
    /\ item_id (miss (after S w pre)) = software_of (myclass dev)
    /\ follow_up (miss (after S w pre))
       = software_follow_up (myclass dev) (follow_up (miss w))
    /\ Forall (fun e => is_map_call e = false) pre
    /\ (if match myclass dev with NC_DOCTOR => true | _ => false end
        then In (EFindClosest
                   (FindQuery (npc_global_omt_location dev) "s_pharm" 0 false
                      false false None)) pre
        else Forall (fun e => is_find_closest e = false) pre)
    /\ (myclass dev = NC_DOCTOR ->
        place
        = ob_find_closest S
            (ext (after S w
                    [EPlayerAddItem "usb_drive" 0;
                     EAddMsg "%s gave you a USB drive." [ArgStr (npc_name dev)];
                     EMission (WItemId "software_medical");
                     EMission (WFollowUp "MISSION_GET_ZOMBIE_BLOOD_ANAL")]))
            (FindQuery (npc_global_omt_location dev) "s_pharm" 0 false false
               false None)).
Proof.
  intros Hfound.
  assert (Hkeep : forall (m : mission) (evs : list event),
             Forall (fun e => is_debugmsg e || is_rng e = true) evs ->
             replay evs m = m).
  { intros m evs Hevs. apply replay_no_write.
    eapply Forall_impl; [| exact Hevs].
    intros e He. destruct e; try discriminate; reflexivity. }
  unfold mission_start_place_npc_software, bind, add_msg. exec.
  rewrite Hfound. exec.
  destruct (myclass dev) eqn:Hclass; exec; cbn [String.eqb Ascii.eqb Bool.eqb];
    cbv iota.
  3: { (* the doctor *)
    exists [EPlayerAddItem "usb_drive" 0;
            EAddMsg "%s gave you a USB drive." [ArgStr (npc_name dev)];
            EMission (WItemId "software_medical");
            EMission (WFollowUp "MISSION_GET_ZOMBIE_BLOOD_ANAL");
            EFindClosest (FindQuery (npc_global_omt_location dev) "s_pharm" 0
                            false false false None)],
           (ob_find_closest S
              (ext (after S w
                      [EPlayerAddItem "usb_drive" 0;
                       EAddMsg "%s gave you a USB drive." [ArgStr (npc_name dev)];
                       EMission (WItemId "software_medical");
                       EMission (WFollowUp "MISSION_GET_ZOMBIE_BLOOD_ANAL")]))
              (FindQuery (npc_global_omt_location dev) "s_pharm" 0 false false
                 false None)).
    cbv zeta. cbn [app].
    split; [software_tail |].
    unfold after; cbn [miss]; unfold replay; cbn.
    split; [reflexivity |]. split; [reflexivity |].
    split; [repeat constructor |].
    split; [cbn; tauto | intros _; reflexivity]. }
  all: house_case Hkeep.
Qed.

Lemma place_npc_software_flat (w : world W) (dev : npc) :
  find_npc S (ext w) (npc_id (miss w)) = Some dev ->
  exists pre place rngs point,
    let mid :=
      [EMission (WTarget place); EReveal place 6;
       EMap (MapLoad (wrap_int (px place * 2))
               (wrap_int (py place * 2)) (pz place) false)] in
    let loaded := after S w (pre ++ mid) in
    let oter := ob_ter S (ext loaded) place in
    let at_house :=
      is_ot_type S "house" oter || is_ot_type S "s_pharm" oter
      || String.eqb oter "" in
    snd (mission_start_place_npc_software S w)
    = after S w
        (pre ++ mid ++ rngs ++ software_console point dev (uid (miss w)))
    /\ Forall (fun e => is_rng e = true) rngs
    /\ (if at_house
        then point = fst (find_potential_computer_point S (pz place) loaded)
        else rngs = [] /\ point = Tripoint 0 0 0)
    /\ item_id (miss (after S w pre)) = software_of (myclass dev)
    /\ follow_up (miss (after S w pre))
       = software_follow_up (myclass dev) (follow_up (miss w))
    /\ Forall (fun e => is_map_call e = false) pre
    /\ (if match myclass dev with NC_DOCTOR => true | _ => false end
        then In (EFindClosest
                   (FindQuery (npc_global_omt_location dev) "s_pharm" 0 false
                      false false None)) pre
        else Forall (fun e => is_find_closest e = false) pre)
    /\ (myclass dev = NC_DOCTOR ->
        place
        = ob_find_closest S
            (ext (after S w
                    [EPlayerAddItem "usb_drive" 0;
                     EAddMsg "%s gave you a USB drive." [ArgStr (npc_name dev)];
                     EMission (WItemId "software_medical");
                     EMission (WFollowUp "MISSION_GET_ZOMBIE_BLOOD_ANAL")]))
            (FindQuery (npc_global_omt_location dev) "s_pharm" 0 false false
               false None)).
Proof.
  intros Hfound.
  destruct (place_npc_software_run w dev Hfound)
    as (pre & place & Hrun & Hitem & Hfollow & Hpre & Hclass & Hplace).
  cbv zeta in Hrun.
  set (mid := [EMission (WTarget place); EReveal place 6;
               EMap (MapLoad (wrap_int (px place * 2))
                       (wrap_int (py place * 2)) (pz place) false)])
    in *.
  set (loaded := after S w (pre ++ mid)) in *.
  destruct (find_potential_computer_point_trace (pz place) loaded)
    as (rngs & Hrngs & Hpick).
  destruct (is_ot_type S "house" (ob_ter S (ext loaded) place)
            || is_ot_type S "s_pharm" (ob_ter S (ext loaded) place)
            || String.eqb (ob_ter S (ext loaded) place) "") eqn:Hhouse.
  - exists pre, place, rngs,
      (fst (find_potential_computer_point S (pz place) loaded)).
    cbv zeta. fold mid. fold loaded. rewrite Hhouse.
    split.
    { rewrite Hrun, Hpick. unfold loaded. rewrite !after_app.
      rewrite <- !app_assoc. reflexivity. }
    split; [exact Hrngs |]. split; [reflexivity |].
    split; [exact Hitem |]. split; [exact Hfollow |].
    split; [exact Hpre |]. split; [exact Hclass | exact Hplace].
  - exists pre, place, [], (Tripoint 0 0 0).
    cbv zeta. fold mid. fold loaded. rewrite Hhouse.
    split.
    { rewrite Hrun. unfold loaded. rewrite !after_app.
      rewrite <- !app_assoc. reflexivity. }
    split; [constructor |]. split; [split; reflexivity |].
    split; [exact Hitem |]. split; [exact Hfollow |].
    split; [exact Hpre |]. split; [exact Hclass | exact Hplace].
Qed.

Lemma software_console_no_write (point : tripoint) (dev : npc) (u : Z) :
  Forall (fun e => is_mission_write e = false) (software_console point dev u).
Proof. repeat constructor. Qed.

Lemma rngs_no_write (rngs : list event) :
  Forall (fun e => is_rng e = true) rngs ->
  Forall (fun e => is_mission_write e = false) rngs.
Proof.
  intros H. eapply Forall_impl; [| exact H].
  intros e He. destruct e; try discriminate; reflexivity.
Qed.

(** X18.  When the mission's NPC is found, [place_npc_software] leaves the
    mission asking for the software of the NPC's class: "software_hacking"
    for a hacker, "software_medical" for a doctor, "software_math" for a
    scientist and "software_useless" for any other class.  Only a doctor
    changes the follow-up mission (to "MISSION_GET_ZOMBIE_BLOOD_ANAL"), and
    only for a doctor is the place searched with [find_closest] (the closest
    "s_pharm" from the NPC's location, radius 0); for every other class no
    [find_closest] call is made at all. *)
Theorem place_npc_software_by_class (w : world W) (dev : npc) :
  find_npc S (ext w) (npc_id (miss w)) = Some dev ->
  let w' := snd (mission_start_place_npc_software S w) in
  item_id (miss w') = software_of (myclass dev)
  /\ follow_up (miss w')
     = software_follow_up (myclass dev) (follow_up (miss w))
  /\ exists evs,
       w' = after S w evs
       /\ (if match myclass dev with NC_DOCTOR => true | _ => false end
           then In (EFindClosest
                      (FindQuery (npc_global_omt_location dev) "s_pharm" 0
                         false false false None)) evs
           else Forall (fun e => is_find_closest e = false) evs).
Proof.
  intros Hfound w'. subst w'.
  destruct (place_npc_software_flat w dev Hfound)
    as (pre & place & rngs & point & Hrun & Hrngs & _ & Hitem & Hfollow & _
        & Hclass & _).
  cbv zeta in Hrun. rewrite Hrun.
  assert (Hrest : forall m : mission,
             replay ([EMission (WTarget place); EReveal place 6;
                      EMap (MapLoad (wrap_int (px place * 2))
                              (wrap_int (py place * 2)) (pz place)
                              false)]
                     ++ rngs ++ software_console point dev (uid (miss w))) m
             = apply_write (WTarget place) m).
  { intros m. cbn [app]. unfold replay. cbn [fold_left apply_event].
    fold (replay (rngs ++ software_console point dev (uid (miss w)))
            (apply_write (WTarget place) m)).
    apply replay_no_write. apply Forall_app. split.
    - apply rngs_no_write. exact Hrngs.
    - apply software_console_no_write. }
  assert (Hmiss : miss (after S w
                    (pre ++ [EMission (WTarget place); EReveal place 6;
                             EMap (MapLoad (wrap_int (px place * 2))
                                     (wrap_int (py place * 2))
                                     (pz place) false)]
                     ++ rngs ++ software_console point dev (uid (miss w))))
                  = apply_write (WTarget place) (miss (after S w pre))).
  { rewrite <- after_app. unfold after at 1. cbn [miss]. apply Hrest. }
  rewrite Hmiss. cbn [apply_write item_id follow_up].
  split; [exact Hitem |]. split; [exact Hfollow |].
  eexists. split; [reflexivity |].
  destruct (myclass dev).
  3: { apply in_or_app. left. exact Hclass. }
  all: apply Forall_app; split; [exact Hclass |];
    repeat (apply Forall_cons; [reflexivity |]);
    apply Forall_app; split;
    [ eapply Forall_impl; [| exact Hrngs];
      intros e He; destruct e; try discriminate; reflexivity
    | repeat constructor ].
Qed.

(** X19.  When the mission's NPC is found, [place_npc_software] makes the
    place it picked the target of the mission, reveals it with radius 6 and
    loads the map at the [int] products of its x and y with 2; no call on
    the map comes before that load.  These products are twice the
    coordinates when that fits an [int]; for the invalid point, which a
    doctor gets as place when no "s_pharm" is found, they wrap around and
    the map is loaded at (0, 0).  The console is then set up by five calls
    at one point: the terrain "t_console", a computer named after the NPC,
    the mission's uid, the option "Download Software", and the save.  That
    point is the one [find_potential_computer_point] returns when the
    overmap terrain of the place is a "house", an "s_pharm" or the empty
    id; for any other terrain no point is looked for and the console goes
    to (0, 0, 0). *)
Theorem place_npc_software_console (w : world W) (dev : npc) :
  find_npc S (ext w) (npc_id (miss w)) = Some dev ->
  exists pre place rngs point,
    let load :=
      EMap (MapLoad (wrap_int (px place * 2)) (wrap_int (py place * 2))
              (pz place) false) in
    let mid := [EMission (WTarget place); EReveal place 6; load] in
    let loaded := after S w (pre ++ mid) in
    let oter := ob_ter S (ext loaded) place in
    let at_house :=
      is_ot_type S "house" oter || is_ot_type S "s_pharm" oter
      || String.eqb oter "" in
    snd (mission_start_place_npc_software S w)
    = after S w
        (pre ++ mid ++ rngs ++ software_console point dev (uid (miss w)))
    /\ target (miss (snd (mission_start_place_npc_software S w))) = place
    /\ Forall (fun e => is_map_call e = false) pre
    /\ Forall (fun e => is_rng e = true) rngs
    /\ (if at_house
        then point = fst (find_potential_computer_point S (pz place) loaded)
        else rngs = [] /\ point = Tripoint 0 0 0)
    /\ (int_min <= px place * 2 <= 2147483647 ->
        int_min <= py place * 2 <= 2147483647 ->
        load = EMap (MapLoad (px place * 2) (py place * 2) (pz place) false))
    /\ (place = Tripoint int_min int_min int_min ->
        load = EMap (MapLoad 0 0 int_min false))
    /\ (myclass dev = NC_DOCTOR ->
        place
        = ob_find_closest S
            (ext (after S w
                    [EPlayerAddItem "usb_drive" 0;
                     EAddMsg "%s gave you a USB drive." [ArgStr (npc_name dev)];
                     EMission (WItemId "software_medical");
                     EMission (WFollowUp "MISSION_GET_ZOMBIE_BLOOD_ANAL")]))
            (FindQuery (npc_global_omt_location dev) "s_pharm" 0 false false
               false None)).
Proof.
  intros Hfound.
  destruct (place_npc_software_flat w dev Hfound)
    as (pre & place & rngs & point & Hrun & Hrngs & Hpoint & _ & _ & Hpre
        & _ & Hplace).
  exists pre, place, rngs, point. cbv zeta in *.
  split; [exact Hrun |].
  split.
  { rewrite Hrun. cbn [app]. apply target_after_write_mid.
    do 2 (apply Forall_cons; [reflexivity |]).
    apply Forall_app. split.
    - apply rngs_no_write. exact Hrngs.
    - apply software_console_no_write. }
  split; [exact Hpre |]. split; [exact Hrngs |]. split; [exact Hpoint |].
  split.
  { intros Hx Hy. rewrite (wrap_int_fits _ Hx), (wrap_int_fits _ Hy).
    reflexivity. }
  split; [intros Hmin; rewrite Hmin; reflexivity | exact Hplace].
Qed.

(** ** target_closest_lab_entrance *)

(** X20.  When neither search of [target_closest_lab_entrance] finds
    stairs, the routine returns the invalid point and makes it the
    mission's target, and it reveals nothing, whatever the radius: moving
    the second result to z = 0 leaves its x and y, so the two distances are
    equal and the untouched surface result is taken. *)
Theorem target_closest_lab_entrance_nothing_found (origin : tripoint)
    (reveal_rad : Z) (w : world W) :
  ob_find_closest S (ext w) (surface_query origin) = invalid_tripoint S ->
  ob_find_closest S (ext (after S w [EFindClosest (surface_query origin)]))
    (underground_query origin) = invalid_tripoint S ->
  target_closest_lab_entrance S origin reveal_rad w
  = (invalid_tripoint S,
     after S w
       [EFindClosest (surface_query origin);
        EFindClosest (underground_query origin);
        EMission (WTarget (invalid_tripoint S))]).
Proof.
  intros Hsurface Hunder.
  rewrite target_closest_lab_entrance_run. cbv zeta.
  rewrite Hsurface, Hunder. cbn [with_z px py].
  rewrite Z.leb_refl.
  assert (Hinv : is_invalid S (invalid_tripoint S) = true)
    by (apply tripoint_eqb_eq; reflexivity).
  rewrite Hinv. reflexivity.
Qed.

(** ** random_house_in_closest_city with a city *)

(** X21.  When [closest_city] finds a city of non-negative size,
    [random_house_in_closest_city] logs no debug message and makes at most
    one call, a random draw.  The point it returns is on the z-level of the
    city's submap position and within [size] of the city centre on x and y;
    it is the centre itself or a "house" tile. *)
Theorem random_house_in_closest_city_in_city (w : world W) (c : city) :
  let cref := ob_closest_city S (ext w) (u_global_sm_location S (ext w)) in
  cref_city cref = Some c ->
  0 <= city_size c ->
  sm_to_omt_keeps_z S ->
  let center := sm_to_omt_copy S (abs_sm_pos cref) in
  let house := fst (random_house_in_closest_city S w) in
  pz house = pz (abs_sm_pos cref)
  /\ px center - city_size c <= px house <= px center + city_size c
  /\ py center - city_size c <= py house <= py center + city_size c
  /\ (house = center
      \/ ob_check_ot_type S (ext w) "house" (px house) (py house)
           (pz (abs_sm_pos cref)) = true)
  /\ exists draws,
       snd (random_house_in_closest_city S w) = after S w draws
       /\ Forall (fun e => is_rng e = true) draws
       /\ (List.length draws <= 1)%nat.
Proof.
  intros cref Hcity Hsize Hz center house.
  assert (Hcz : pz center = pz (abs_sm_pos cref)) by apply Hz.
  assert (Hrun : random_house_in_closest_city S w
                 = random_house_in_city S c (abs_sm_pos cref) w).
  { unfold random_house_in_closest_city, bind. exec.
    fold cref. rewrite Hcity. reflexivity. }
  unfold house. rewrite Hrun.
  unfold random_house_in_city, bind. exec. fold center.
  set (valid := houses_in_square S (ext w) (px center - city_size c)
                  (px center + city_size c) (py center - city_size c)
                  (py center + city_size c) (pz (abs_sm_pos cref))).
  assert (Hdraws : exists draws,
             snd (random_entry S valid center w) = after S w draws
             /\ Forall (fun e => is_rng e = true) draws
             /\ (List.length draws <= 1)%nat).
  { destruct valid as [| a rest].
    - exists []. rewrite random_entry_nil, after_nil.
      split; [reflexivity |]. split; [constructor | cbn; lia].
    - eexists [_]. unfold random_entry, bind. exec.
      split; [reflexivity |]. split; [repeat constructor | cbn; lia]. }
  destruct (random_entry_in S valid center w) as [Hin | Heq].
  - apply houses_in_square_spec in Hin. destruct Hin as (Hx & Hy & Hpz & Hc).
    split; [exact Hpz |]. split; [exact Hx |]. split; [exact Hy |].
    split; [right; exact Hc | exact Hdraws].
  - rewrite Heq.
    split; [exact Hcz |]. split; [lia |]. split; [lia |].
    split; [left; reflexivity | exact Hdraws].
Qed.

End MoreProperties.

(** * The further properties on the small games *)

Lemma lab_rng_in_range : rng_in_range Lab.game.
Proof.
  intros s lo hi Hle. cbn.
  pose proof (Z.mod_pos_bound (Toy.draws s) (hi - lo + 1) ltac:(lia)). lia.
Qed.

(** X2 on the small game: the school is known, so the first search is the
    only one. *)
Lemma assign_mission_target_single_search_witness :
  is_invalid Toy.game (first_search_hit Toy.game Toy.find_school Toy.town_world)
  = false
  /\ fst (assign_mission_target Toy.game Toy.find_school Toy.town_world)
     = Some (Tripoint 20 3 0)
  /\ exists tail,
       log (snd (assign_mission_target Toy.game Toy.find_school Toy.town_world))
       = first_search_call Toy.game Toy.find_school Toy.town_world :: tail
       /\ Forall (fun e => is_target_search e = false) tail.
Proof.
  assert (Hvalid :
    is_invalid Toy.game
      (first_search_hit Toy.game Toy.find_school Toy.town_world) = false)
    by (vm_compute; reflexivity).
  destruct (assign_mission_target_single_search Toy.game Toy.find_school
              Toy.town_world (or_introl Hvalid))
    as (tail & Hrun & Htail & Hfst).
  split; [exact Hvalid |]. split.
  - rewrite Hfst. vm_compute. reflexivity.
  - exists tail. split; [rewrite Hrun; reflexivity | exact Htail].
Defined.

(** X6 on the small game: a target two levels down. *)
Lemma set_assign_om_target_level_witness :
  has_string Lab.seen_json "om_terrain" = true
  /\ json_member Lab.seen_json "z" = Some (JInt (-2))
  /\ exists f,
       mission_util_set_assign_om_target Toy.game Lab.seen_json [] = inr [f]
       /\ exists evs,
            snd (f Toy.town_world) = after Toy.game Toy.town_world evs
            /\ Forall (fun e => forall o r, search_from e = Some (o, r) ->
                         o = Tripoint 3 4 (-2) /\ r = 180) evs.
Proof.
  split; [reflexivity |]. split; [reflexivity |].
  destruct (set_assign_om_target_level Toy.game Lab.seen_json (-2) []
              eq_refl eq_refl) as (f & Hf & Hsearches).
  exists f. split; [exact Hf |].
  destruct (Hsearches Toy.town_world) as (evs & Hrun & Hevs).
  exists evs. split; [exact Hrun | exact Hevs].
Defined.

(** X7 on the small game: a field could be turned into a bunker, but the
    object asks for a target the player has seen. *)
Lemma set_assign_om_target_must_see_witness :
  has_string Lab.seen_json "om_terrain" = true
  /\ json_member Lab.seen_json "must_see" = Some (JBool true)
  /\ exists f,
       mission_util_set_assign_om_target Toy.game Lab.seen_json [] = inr [f]
       /\ exists evs,
            snd (f Toy.town_world) = after Toy.game Toy.town_world evs
            /\ Forall (fun e => creates_terrain e = false) evs.
Proof.
  split; [reflexivity |]. split; [reflexivity |].
  destruct (set_assign_om_target_must_see Toy.game Lab.seen_json []
              eq_refl eq_refl) as (f & Hf & Hcalls).
  exists f. split; [exact Hf |].
  destruct (Hcalls Toy.town_world) as (evs & Hrun & Hevs).
  exists evs. split; [exact Hrun | exact Hevs].
Defined.

(** X8 on the small game: the safe tile two tiles south of the player. *)
Lemma find_safety_target_is_safe_witness :
  fst (find_safety_search Toy.game
         (u_global_omt_location Toy.game (ext Toy.town_world)) Toy.town_world)
  = true
  /\ exists rngs check,
       Forall (fun e => is_rng e = true) rngs
       /\ ob_is_safe Toy.game (ext (after Toy.game Toy.town_world rngs)) check
          = true
       /\ target (miss (snd (mission_start_find_safety Toy.game Toy.town_world)))
          = check.
Proof.
  assert (Hfound :
    fst (find_safety_search Toy.game
           (u_global_omt_location Toy.game (ext Toy.town_world)) Toy.town_world)
    = true) by (vm_compute; reflexivity).
  split; [exact Hfound |].
  destruct (find_safety_target_is_safe Toy.game Toy.town_world Hfound)
    as (rngs & check & Hrngs & Hsafe & _ & Htarget).
  exists rngs, check.
  split; [exact Hrngs |]. split; [exact Hsafe | exact Htarget].
Defined.

(** X9 on the small game: the player stands on the only safe tile. *)
Lemma find_safety_own_tile_witness :
  ob_is_safe Lab.game (ext (after Lab.game Lab.bank_world [ERng 0 3]))
    (u_global_omt_location Lab.game (ext Lab.bank_world)) = true
  /\ log (snd (mission_start_find_safety Lab.game Lab.bank_world))
     = [ERng 0 3; EMission (WTarget (Tripoint 3 4 0))].
Proof.
  split; [reflexivity |].
  rewrite (find_safety_own_tile Lab.game Lab.bank_world eq_refl).
  reflexivity.
Defined.

(** X10 on the small game: the doctor is there, but no haunt is known.
    The map is loaded at (0, 0). *)
Lemma kill_horde_master_no_site_witness :
  find_npc Lab.game (ext Lab.lost_world) (npc_id (miss Lab.lost_world))
  = Some Lab.doctor
  /\ is_invalid Lab.game
       (fst (first_valid_site Lab.game (npc_global_omt_location Lab.doctor)
               haunt_types
               (after Lab.game Lab.lost_world
                  [ENpc (npc_getID Lab.doctor) (NpcSetAttitude NPCATT_FOLLOW)])))
     = true
  /\ target (miss (snd (mission_start_kill_horde_master Lab.game
                          Lab.lost_world)))
     = Tripoint int_min int_min int_min
  /\ skipn 5 (firstn 8 (log (snd (mission_start_kill_horde_master Lab.game
                                    Lab.lost_world))))
     = [EMission (WTarget (Tripoint int_min int_min int_min));
        EReveal (Tripoint int_min int_min int_min) 6;
        EMap (MapLoad 0 0 int_min false)].
Proof.
  assert (Hnone :
    is_invalid Lab.game
      (fst (first_valid_site Lab.game (npc_global_omt_location Lab.doctor)
              haunt_types
              (after Lab.game Lab.lost_world
                 [ENpc (npc_getID Lab.doctor)
                    (NpcSetAttitude NPCATT_FOLLOW)])))
    = true) by (vm_compute; reflexivity).
  split; [reflexivity |]. split; [exact Hnone |].
  destruct (kill_horde_master_no_site Lab.game Lab.lost_world Lab.doctor
              eq_refl Hnone) as (horde & Hrun & _ & Htarget & Hload).
  split; [exact Htarget |].
  rewrite Hrun, (Hload eq_refl). reflexivity.
Defined.

(** X11 on the small game. *)
Lemma kill_horde_master_horde_witness :
  rng_in_range Toy.game
  /\ find_npc Toy.game (ext Toy.town_world) (npc_id (miss Toy.town_world))
     = Some Toy.guide
  /\ inbounds Toy.game (Tripoint (SEEX Toy.game) (SEEY Toy.game) 0) 1 = true
  /\ exists evs dogs,
       snd (mission_start_kill_horde_master Toy.game Toy.town_world)
       = after Toy.game Toy.town_world evs
       /\ spawn_groups "mon_zombie" 9 3 10 evs
       /\ spawn_counts "mon_zombie_dog" evs = 3 :: dogs
       /\ List.length dogs = 3%nat
       /\ Forall (fun c => 0 <= c <= 2) dogs.
Proof.
  split; [exact toy_rng_in_range |]. split; [reflexivity |].
  split; [reflexivity |].
  exact (kill_horde_master_horde Toy.game Toy.town_world Toy.guide
           toy_rng_in_range eq_refl eq_refl).
Defined.

(** X12 on the small game: the map has a broken console at (3, 4). *)
Lemma find_potential_computer_point_prefers_broken_witness :
  rng_in_range Lab.game
  /\ broken_consoles Lab.game (ext Lab.bank_world) 0 <> []
  /\ tm_ter Lab.game (ext Lab.bank_world)
       (px (fst (find_potential_computer_point Lab.game 0 Lab.bank_world)))
       (py (fst (find_potential_computer_point Lab.game 0 Lab.bank_world)))
     = "t_console_broken"
  /\ pz (fst (find_potential_computer_point Lab.game 0 Lab.bank_world)) = 0.
Proof.
  assert (Hbroken : broken_consoles Lab.game (ext Lab.bank_world) 0 <> [])
    by (vm_compute; discriminate).
  destruct (find_potential_computer_point_prefers_broken Lab.game 0
              Lab.bank_world lab_rng_in_range) as (Hz & Hconsole & _).
  split; [exact lab_rng_in_range |]. split; [exact Hbroken |].
  split; [apply (Hconsole Hbroken) | exact Hz].
Defined.

(** X13 on the small game: the bank at (9, 9). *)
Lemma place_deposit_box_site_witness :
  find_npc Lab.game (ext Lab.bank_world) (npc_id (miss Lab.bank_world))
  = Some Lab.doctor
  /\ target (miss (snd (mission_start_place_deposit_box Lab.game
                          Lab.bank_world)))
     = Tripoint 9 9 0.
Proof.
  split; [reflexivity |].
  destruct (place_deposit_box_site Lab.game Lab.bank_world Lab.doctor eq_refl)
    as (rest & _ & _ & Htarget & _).
  rewrite Htarget. vm_compute. reflexivity.
Defined.

(** X14 on the small game: the map has a metal wall at (8, 8). *)
Lemma place_deposit_box_box_witness :
  find_npc Lab.game (ext Lab.bank_world) (npc_id (miss Lab.bank_world))
  = Some Lab.doctor
  /\ rng_in_range Lab.game
  /\ exists pre draws point,
       log (snd (mission_start_place_deposit_box Lab.game Lab.bank_world))
       = (pre ++ [EMap (MapLoad 18 18 0 false)]) ++ draws
         ++ [EMap (MapSpawnItem point "safe_box"); EMap MapSave]
       /\ pz point = 0
       /\ tm_ter Lab.game
            (ext (after Lab.game Lab.bank_world
                    (pre ++ [EMap (MapLoad 18 18 0 false)])))
            (px point) (py point) = "t_floor".
Proof.
  split; [reflexivity |]. split; [exact lab_rng_in_range |].
  destruct (place_deposit_box_box Lab.game Lab.bank_world Lab.doctor eq_refl
              lab_rng_in_range)
    as (pre & draws & point & Hrun & _ & Hz & Hnear & _).
  exists pre, draws, point.
  split; [rewrite Hrun; reflexivity |].
  split; [exact Hz |].
  apply Hnear. vm_compute. discriminate.
Defined.

(** X15 on the small game: the map has a bed at (5, 5). *)
Lemma place_priest_diary_point_witness :
  rng_in_range Lab.game
  /\ target (miss (snd (mission_start_place_priest_diary Lab.game
                          Lab.bank_world)))
     = Tripoint 3 4 0
  /\ exists draws point,
       log (snd (mission_start_place_priest_diary Lab.game Lab.bank_world))
       = [EDebugmsg "could not find closest city" [];
          EMission (WTarget (Tripoint 3 4 0)); EReveal (Tripoint 3 4 0) 2;
          EMap (MapLoad 6 8 0 false)]
         ++ draws
         ++ [EMap (MapSpawnItem point "priest_diary"); EMap MapSave]
       /\ Lab.furn (px point) (py point) = "f_bed".
Proof.
  split; [exact lab_rng_in_range |].
  destruct (place_priest_diary_point Lab.game Lab.bank_world lab_rng_in_range)
    as (draws & point & Hrun & _ & Htarget & _ & Hfurn & _).
  split; [rewrite Htarget; vm_compute; reflexivity |].
  exists draws, point.
  split; [rewrite Hrun; reflexivity |].
  assert (Hne : diary_points Lab.game
                  (ext (after Lab.game
                          (snd (random_house_in_closest_city Lab.game
                                  Lab.bank_world))
                          [EMission (WTarget (Tripoint 3 4 0));
                           EReveal (Tripoint 3 4 0) 2;
                           EMap (MapLoad 6 8 0 false)])) 0 <> [])
    by (vm_compute; discriminate).
  destruct (Hfurn Hne) as (_ & _ & Hin).
  cbn [tm_furn Lab.game] in Hin. unfold Lab.furn in *.
  destruct ((px point =? 5) && (py point =? 5)); [reflexivity |].
  cbn in Hin. intuition discriminate.
Defined.

(** X16 on the small game: no city at all. *)
Lemma place_priest_diary_no_city_witness :
  cref_city (ob_closest_city Lab.game (ext Lab.bank_world)
               (u_global_sm_location Lab.game (ext Lab.bank_world))) = None
  /\ target (miss (snd (mission_start_place_priest_diary Lab.game
                          Lab.bank_world)))
     = Tripoint 3 4 0.
Proof.
  split; [reflexivity |].
  destruct (place_priest_diary_no_city Lab.game Lab.bank_world eq_refl)
    as (rest & _ & _ & Htarget).
  exact Htarget.
Defined.

(** X17 on the small game: the school is found and revealed. *)
Lemma reveal_destination_reveals_witness :
  rng_in_range Toy.game
  /\ fst (reveal_destination Toy.game "school_5" Toy.town_world)
     = Tripoint 20 3 0
  /\ In (EReveal (Tripoint 20 3 0) 2)
        (log (snd (reveal_destination Toy.game "school_5" Toy.town_world))).
Proof.
  split; [exact toy_rng_in_range |].
  destruct (reveal_destination_reveals Toy.game "school_5" Toy.town_world
              toy_rng_in_range) as (_ & Hfst & Hrun).
  split.
  - rewrite Hfst. reflexivity.
  - rewrite Hrun. vm_compute. right. right. left. reflexivity.
Defined.

(** X18 on the small game: the doctor asks for medical software. *)
Lemma place_npc_software_by_class_witness :
  find_npc Lab.game (ext Lab.bank_world) (npc_id (miss Lab.bank_world))
  = Some Lab.doctor
  /\ item_id (miss (snd (mission_start_place_npc_software Lab.game
                           Lab.bank_world)))
     = "software_medical"
  /\ follow_up (miss (snd (mission_start_place_npc_software Lab.game
                             Lab.bank_world)))
     = "MISSION_GET_ZOMBIE_BLOOD_ANAL".
Proof.
  split; [reflexivity |].
  destruct (place_npc_software_by_class Lab.game Lab.bank_world Lab.doctor
              eq_refl) as (Hitem & Hfollow & _).
  split; [exact Hitem | exact Hfollow].
Defined.

(** X19 on the small games: the hacker's console in a house of the town;
    and the doctor's console when no pharmacy is known, where the place is
    the invalid point and the map is loaded at (0, 0). *)
Lemma place_npc_software_console_witness :
  find_npc Toy.game (ext Toy.town_world) (npc_id (miss Toy.town_world))
  = Some Toy.guide
  /\ (exists pre place rngs point,
        log (snd (mission_start_place_npc_software Toy.game Toy.town_world))
        = pre
          ++ [EMission (WTarget place); EReveal place 6;
              EMap (MapLoad (px place * 2) (py place * 2) (pz place) false)]
          ++ rngs ++ software_console point Toy.guide 5
        /\ target (miss (snd (mission_start_place_npc_software Toy.game
                                Toy.town_world)))
           = place)
  /\ find_npc Lab.game (ext Lab.bank_world) (npc_id (miss Lab.bank_world))
     = Some Lab.doctor
  /\ target (miss (snd (mission_start_place_npc_software Lab.game
                          Lab.bank_world)))
     = Tripoint int_min int_min int_min
  /\ In (EMap (MapLoad 0 0 int_min false))
        (log (snd (mission_start_place_npc_software Lab.game Lab.bank_world))).
Proof.
  split; [reflexivity |]. split.
  { destruct (place_npc_software_console Toy.game Toy.town_world Toy.guide
                eq_refl)
      as (pre & place & rngs & point & Hrun & Htarget & _ & _ & _ & Hfits
          & _).
    cbv zeta in Hrun, Hfits.
    assert (Hhouse : place = Tripoint 4 6 0)
      by (rewrite <- Htarget; vm_compute; reflexivity).
    exists pre, place, rngs, point.
    split; [| exact Htarget].
    rewrite Hrun, Hfits; [reflexivity | |];
      rewrite Hhouse; vm_compute; split; discriminate. }
  split; [reflexivity |].
  destruct (place_npc_software_console Lab.game Lab.bank_world Lab.doctor
              eq_refl)
    as (pre & place & rngs & point & Hrun & Htarget & _ & _ & _ & _ & Hmin
        & Hdoctor).
  cbv zeta in Hrun, Hmin.
  assert (Hnowhere : place = Tripoint int_min int_min int_min)
    by (rewrite (Hdoctor eq_refl); vm_compute; reflexivity).
  split; [rewrite Htarget; exact Hnowhere |].
  rewrite Hrun. unfold after. cbn [log].
  apply in_or_app. right. apply in_or_app. right.
  right. right. left. exact (Hmin Hnowhere).
Defined.

(** X20 on the small game: no stairs are known. *)
Lemma target_closest_lab_entrance_nothing_found_witness :
  ob_find_closest Toy.game (ext Toy.empty_world)
    (surface_query (Tripoint 3 4 (-2))) = invalid_tripoint Toy.game
  /\ fst (target_closest_lab_entrance Toy.game (Tripoint 3 4 (-2)) 2
            Toy.empty_world) = Toy.nowhere
  /\ List.length
       (log (snd (target_closest_lab_entrance Toy.game (Tripoint 3 4 (-2)) 2
                    Toy.empty_world))) = 3%nat.
Proof.
  split; [reflexivity |].
  rewrite (target_closest_lab_entrance_nothing_found Toy.game
             (Tripoint 3 4 (-2)) 2 Toy.empty_world eq_refl eq_refl).
  split; reflexivity.
Defined.

(** X21 on the small game: the city of size 2 around (5, 5). *)
Lemma random_house_in_closest_city_in_city_witness :
  cref_city (ob_closest_city Toy.game (ext Toy.town_world)
               (u_global_sm_location Toy.game (ext Toy.town_world)))
  = Some (City 2 "Toytown")
  /\ 0 <= city_size (City 2 "Toytown")
  /\ sm_to_omt_keeps_z Toy.game
  /\ 3 <= px (fst (random_house_in_closest_city Toy.game Toy.town_world)) <= 7
  /\ 3 <= py (fst (random_house_in_closest_city Toy.game Toy.town_world)) <= 7.
Proof.
  assert (Hsize : 0 <= city_size (City 2 "Toytown")) by (cbn; lia).
  destruct (random_house_in_closest_city_in_city Toy.game Toy.town_world
              (City 2 "Toytown") eq_refl Hsize toy_sm_to_omt_keeps_z)
    as (_ & Hx & Hy & _).
  split; [reflexivity |]. split; [exact Hsize |].
  split; [exact toy_sm_to_omt_keeps_z |].
  split; [exact Hx | exact Hy].
Defined.

(** [assign_mission_target] on the small game when a special is named: the
    bunker is not found, the special is placed around the player (the game
    refuses it), and the search is not repeated. *)
Example assign_mission_target_special_in_lab :
  fst (assign_mission_target Lab.game Lab.find_special_bunker Lab.bank_world)
  = None
  /\ skipn 1 (log (snd (assign_mission_target Lab.game Lab.find_special_bunker
                          Lab.bank_world)))
     = [EPlaceSpecial "bunker_special" (Tripoint 3 4 0) 180;
        EDebugmsg "Unable to find and assign mission target %s."
          [ArgStr "bunker"]].
Proof. split; vm_compute; reflexivity. Qed.

(** [assign_mission_target] on the small game when nothing may be created:
    one search, then the debug message. *)
Example assign_mission_target_no_creation_in_lab :
  fst (assign_mission_target Lab.game Lab.find_bunker_only Lab.bank_world)
  = None
  /\ skipn 1 (log (snd (assign_mission_target Lab.game Lab.find_bunker_only
                          Lab.bank_world)))
     = [EDebugmsg "Unable to find and assign mission target %s."
          [ArgStr "bunker"]].
Proof. split; vm_compute; reflexivity. Qed.
